(** * Build execution engine of the CI/CD monitor: [utils/build_runner.py]

    A shallow embedding of [run_command_and_stream] and [run_build_thread]
    together with the properties of the build engine: log batching, event
    throttling, progress reporting, fail-fast and the top-level safety net.

    The two functions talk to four collaborators: the database session
    ([db.session]), the Socket.IO server ([socketio.emit]), the operating
    system ([subprocess.Popen], [platform.system], [datetime.now]) and the
    JSON parser ([json.loads]).  Their answers are collected in a [World];
    what the functions do to them is recorded in a [State]. *)

From Stdlib Require Import ZArith Lia Ascii.
From Stdlib Require Import Floats.SpecFloat.
From stdpp Require Import base gmap strings list pretty.

Local Open Scope string_scope.
Local Open Scope list_scope.
Local Open Scope Z_scope.

(** ** Python values and exceptions *)

(** What [json.loads] can return.  A real number is kept only as its truth
    value ([0.0] is falsy): the runner never computes with one. *)
#[local] Unset Elimination Schemes.
Inductive json :=
| JNull
| JBool (b : bool)
| JInt (z : Z)
| JFloat (nonzero : bool)
| JStr (s : string)
| JArr (items : list json)
| JObj (fields : list (string * json)).
#[local] Set Elimination Schemes.

(** A raised exception: its class and [str(e)]. *)
Record exn := Exn { exn_class : string; exn_msg : string }.

Definition type_name (v : json) : string :=
  match v with
  | JNull => "NoneType"
  | JBool _ => "bool"
  | JInt _ => "int"
  | JFloat _ => "float"
  | JStr _ => "str"
  | JArr _ => "list"
  | JObj _ => "dict"
  end.

Definition AttributeError (ty attr : string) : exn :=
  Exn "AttributeError" ("'" +:+ ty +:+ "' object has no attribute '" +:+ attr +:+ "'").

Definition TypeError (msg : string) : exn := Exn "TypeError" msg.

(** [bool(v)] *)
Definition truthy (v : json) : bool :=
  match v with
  | JNull => false
  | JBool b => b
  | JInt z => negb (z =? 0)
  | JFloat nz => nz
  | JStr s => negb (String.eqb s "")
  | JArr l => negb (Nat.eqb (length l) 0)
  | JObj kv => negb (Nat.eqb (length kv) 0)
  end.

Fixpoint assoc (key : string) (kv : list (string * json)) : option json :=
  match kv with
  | [] => None
  | (k, v) :: rest => if String.eqb k key then Some v else assoc key rest
  end.

(** [v.get(key, default)]: only a dict has the method. *)
Definition py_get (v : json) (key : string) (dflt : json) : exn + json :=
  match v with
  | JObj kv => inr (default dflt (assoc key kv))
  | _ => inl (AttributeError (type_name v) "get")
  end.

(** [len(v)] and the items [enumerate(v)] walks through.  A string yields
    its characters, a dict its keys. *)
Definition py_len (v : json) : exn + nat :=
  match v with
  | JStr s => inr (String.length s)
  | JArr l => inr (length l)
  | JObj kv => inr (length kv)
  | _ => inl (TypeError ("object of type '" +:+ type_name v +:+ "' has no len()"))
  end.

Definition py_iter (v : json) : exn + list json :=
  match v with
  | JStr s => inr ((λ c, JStr (String c "")) <$> String.list_ascii_of_string s)
  | JArr l => inr l
  | JObj kv => inr ((λ kv, JStr kv.1) <$> kv)
  | _ => inl (TypeError ("'" +:+ type_name v +:+ "' object is not iterable"))
  end.

(** [s.rstrip("\n")]: every trailing newline goes. *)
Definition newline : ascii := "010"%char.

Fixpoint rstrip_nl (s : string) : string :=
  match s with
  | EmptyString => EmptyString
  | String c r =>
      match rstrip_nl r with
      | EmptyString => if Ascii.eqb c newline then EmptyString else String c EmptyString
      | r' => String c r'
      end
  end.

(** ** Storage records, events, the world and the state *)

(** A row of [Build]: the columns [app.py] and the runner touch.  Times are
    seconds on some clock. *)
Record Build := mkBuild {
  pipeline_id : Z;
  status : string;
  started_at : option Z;
  finished_at : option Z
}.

(** A row of [BuildLog] as the runner creates it. *)
Record BuildLog := mkBuildLog {
  log_build_id : Z;
  log_step_index : nat;
  log_text : string
}.

(** The Socket.IO events of the runner, each with its payload. *)
Inductive Event :=
| build_status_update (build_id : Z) (st : string)
| build_step_start (build_id : Z) (step_index : nat) (cmd : json)
| build_log (build_id : Z) (step_index : nat) (text : string)
| build_progress (build_id : Z) (progress : Z)
| build_finished (build_id : Z) (st : string) (error : option string).

(** A child process once it has run: what [proc.stdout.readline] does, call
    after call, and what [wait] returns.  The pipe is opened with
    [text=True]: a call returns the next line, or the empty string at the
    end of the output, or it raises, a [UnicodeDecodeError] when the bytes
    it has to decode are no text.  After the last entry every call
    returns the empty string. *)
Record Proc := mkProc {
  proc_stdout : list (exn + string);
  proc_returncode : Z
}.

(** Everything the runner does not decide itself.  Storage accesses and
    emits are numbered in the order the runner makes them. *)
Record World := mkWorld {
  is_windows : bool;                     (* platform.system() == "Windows" *)
  json_loads : string → exn + json;      (* json.loads *)
  py_format : json → string;             (* f"{cmd}" for a cmd that is no string *)
  popen : nat → json → exn + Proc;       (* Popen(cmd, shell=True, ...) of a step *)
  emit_raises : nat → option exn;        (* the n-th socketio.emit fails *)
  db_fault : nat → option exn;           (* the n-th storage access fails *)
  db_vanish : nat → Z → bool;            (* the row was deleted by another
                                            request just before the n-th access *)
  utcnow : nat → Z                       (* datetime.now(timezone.utc) *)
}.

Record State := mkState {
  builds : gmap Z Build;                 (* table Build, by id *)
  build_logs : list BuildLog;            (* table BuildLog, in insertion order *)
  published : list Event;                (* calls of socketio.emit, in order *)
  stdout : list string;                  (* lines printed *)
  db_clock : nat;                        (* storage accesses made so far *)
  commits : list (Z * Build)             (* every committed write of a Build *)
}.

(** ** The monad: state and exceptions *)

Inductive Res (A : Type) :=
| Ok (a : A)
| Raise (e : exn).
Arguments Ok {A} a.
Arguments Raise {A} e.

Definition M (A : Type) : Type := State → Res A * State.

Definition ret {A} (a : A) : M A := λ s, (Ok a, s).

Definition bind {A B} (m : M A) (k : A → M B) : M B :=
  λ s, match m s with
       | (Ok a, s') => k a s'
       | (Raise e, s') => (Raise e, s')
       end.

Definition raise {A} (e : exn) : M A := λ s, (Raise e, s).

(** [try: m  except Exception as e: h e] *)
Definition try_except {A} (m : M A) (h : exn → M A) : M A :=
  λ s, match m s with
       | (Ok a, s') => (Ok a, s')
       | (Raise e, s') => h e s'
       end.

Definition lift {A} (r : exn + A) : M A :=
  match r with
  | inl e => raise e
  | inr a => ret a
  end.

Declare Scope py_scope.
Delimit Scope py_scope with py.
Notation "x <- m ;; k" := (bind m (λ x, k))
  (at level 100, m at next level, right associativity) : py_scope.
Notation "m ;; k" := (bind m (λ _, k))
  (at level 100, k at level 200, right associativity) : py_scope.
Local Open Scope py_scope.

(** ** The collaborators' operations *)

Definition print (line : string) : M unit := λ s,
  (Ok tt, mkState (builds s) (build_logs s) (published s) (stdout s ++ [line])
                  (db_clock s) (commits s)).

Section Runner.
Context (w : World).

(** [socketio.emit(...)]: the call is recorded, then it may fail. *)
Definition socketio_emit (ev : Event) : M unit := λ s,
  let s' := mkState (builds s) (build_logs s) (published s ++ [ev]) (stdout s)
                    (db_clock s) (commits s) in
  match emit_raises w (length (published s)) with
  | Some e => (Raise e, s')
  | None => (Ok tt, s')
  end.

(** [try: socketio.emit(...)  except Exception: pass] *)
Definition publish (ev : Event) : M unit :=
  try_except (socketio_emit ev) (λ _, ret tt).

(** The table [Build] as the n-th access finds it. *)
Definition builds_at (t : nat) (id : Z) (m : gmap Z Build) : gmap Z Build :=
  if db_vanish w t id then delete id m else m.

(** [db.session.get(Build, id)] *)
Definition db_get (id : Z) : M (option Build) := λ s,
  let t := db_clock s in
  let m := builds_at t id (builds s) in
  let s' := mkState m (build_logs s) (published s) (stdout s) (S t) (commits s) in
  match db_fault w t with
  | Some e => (Raise e, s')
  | None => (Ok (m !! id), s')
  end.

Definition StaleDataError : exn :=
  Exn "StaleDataError" "UPDATE statement on table 'build' expected to update 1 row(s); 0 were matched.".

(** [db.session.commit()] after the attributes of the row [id] were set:
    the row becomes [b], unless it is gone or the storage fails. *)
Definition db_commit_build (id : Z) (b : Build) : M unit := λ s,
  let t := db_clock s in
  let m := builds_at t id (builds s) in
  let s' := mkState m (build_logs s) (published s) (stdout s) (S t) (commits s) in
  match db_fault w t with
  | Some e => (Raise e, s')
  | None =>
      match m !! id with
      | None => (Raise StaleDataError, s')
      | Some _ =>
          (Ok tt, mkState (<[id := b]> m) (build_logs s) (published s) (stdout s)
                          (S t) (commits s ++ [(id, b)]))
      end
  end.

(** [for log_line in buffer: db.session.add(BuildLog(...))] and
    [db.session.commit()]: all the rows or, when the storage fails, none. *)
Definition db_commit_logs (rows : list BuildLog) : M unit := λ s,
  let t := db_clock s in
  match db_fault w t with
  | Some e =>
      (Raise e, mkState (builds s) (build_logs s) (published s) (stdout s) (S t) (commits s))
  | None =>
      (Ok tt, mkState (builds s) (build_logs s ++ rows) (published s) (stdout s)
                      (S t) (commits s))
  end.

(** [datetime.now(timezone.utc)] *)
Definition now : M Z := λ s, (Ok (utcnow w (db_clock s)), s).

(** ** [run_command_and_stream] *)

Definition step_tag (build_id : Z) (step_index : nat) : string :=
  "[Build " +:+ pretty build_id +:+ " | Step " +:+ pretty step_index +:+ "]".

Definition log_rows (build_id : Z) (step_index : nat) (buffer : list string)
  : list BuildLog :=
  mkBuildLog build_id step_index <$> buffer.

(** The loop [for line in iter(proc.stdout.readline, ""):], with the two
    local variables [buffer] and [emit_cooldown]; it returns the buffer it
    ends with.  A [readline] that raises ends the loop with its exception:
    nothing in [run_command_and_stream] catches it. *)
Fixpoint stream_loop (build_id : Z) (step_index : nat) (reads : list (exn + string))
    (buffer : list string) (emit_cooldown : nat) : M (list string) :=
  match reads with
  | [] => ret buffer
  | inl e :: _ => raise e
  | inr line :: rest =>
      if String.eqb line "" then ret buffer
      else
        let text_line := rstrip_nl line in
        print (step_tag build_id step_index +:+ ": " +:+ text_line) ;;
        let buffer := buffer ++ [text_line] in
        buffer <- (if 15 <=? length buffer
                   then db_commit_logs (log_rows build_id step_index buffer) ;; ret []
                   else ret buffer) ;;
        let emit_cooldown := S emit_cooldown in
        emit_cooldown <- (if 5 <=? emit_cooldown
                          then publish (build_log build_id step_index text_line) ;; ret 0
                          else ret emit_cooldown) ;;
        stream_loop build_id step_index rest buffer emit_cooldown
  end%nat.

(** [f"{cmd}"] *)
Definition format_value (cmd : json) : string :=
  match cmd with
  | JStr s => s
  | _ => py_format w cmd
  end.

(** The argument of [Popen]: the command, wrapped for Windows. *)
Definition shell_cmd (cmd : json) : json :=
  if is_windows w then JStr ("cmd /c " +:+ format_value cmd) else cmd.

Definition run_command_and_stream (build_id : Z) (step_index : nat) (cmd : json)
  : M Z :=
  if negb (truthy cmd) then ret 0
  else
    match popen w step_index (shell_cmd cmd) with
    | inl e =>
        print (step_tag build_id step_index +:+ " Failed to start: " +:+ exn_msg e) ;;
        ret 1
    | inr proc =>
        buffer <- stream_loop build_id step_index (proc_stdout proc) [] 0 ;;
        match buffer with
        | [] => ret tt
        | _ => db_commit_logs (log_rows build_id step_index buffer)
        end ;;
        print (step_tag build_id step_index +:+ " Return code "
               +:+ pretty (proc_returncode proc)) ;;
        ret (proc_returncode proc)
    end.

End Runner.

(** ** The progress percentage: [int(((index + 1) / total_steps) * 100)]

    Python floats are IEEE 754 binary64 numbers; [SpecFloat] computes on
    them exactly as the hardware does. *)

Definition prec : Z := 53.
Definition emax : Z := 1024.

(** [a / b] on two ints: the exact quotient, rounded once to the nearest
    float. *)
Definition py_truediv (a b : Z) : exn + spec_float :=
  match b, a with
  | 0, _ => inl (Exn "ZeroDivisionError" "division by zero")
  | _, 0 => inr (S754_zero (b <? 0))
  | _, _ =>
      let '(q, e, l) := SFdiv_core_binary prec emax (Z.abs a) 0 (Z.abs b) 0 in
      match binary_round_aux prec emax (xorb (a <? 0) (b <? 0)) q e l with
      | S754_infinity _ =>
          inl (Exn "OverflowError" "integer division result too large for a float")
      | x => inr x
      end
  end.

(** [float(n)] *)
Definition float_of_int (n : Z) : spec_float := binary_normalize prec emax n 0 false.

(** [x * 100] on a float [x] *)
Definition py_times_100 (x : spec_float) : spec_float :=
  SFmul prec emax x (float_of_int 100).

(** [int(x)] on a float: truncation towards zero. *)
Definition py_int (x : spec_float) : exn + Z :=
  match x with
  | S754_zero _ => inr 0
  | S754_infinity _ => inl (Exn "OverflowError" "cannot convert float infinity to integer")
  | S754_nan => inl (Exn "ValueError" "cannot convert float NaN to integer")
  | S754_finite s m e =>
      let a := if 0 <=? e then Z.pos m * 2 ^ e else Z.pos m / 2 ^ (- e) in
      inr (if s then - a else a)
  end.

Definition progress_percent (completed total_steps : nat) : exn + Z :=
  match py_truediv (Z.of_nat completed) (Z.of_nat total_steps) with
  | inl e => inl e
  | inr x => py_int (py_times_100 x)
  end.

(** ** [run_build_thread] *)

Section Executor.
Context (w : World).

Definition set_status (st : string) (b : Build) : Build :=
  mkBuild (pipeline_id b) st (started_at b) (finished_at b).

Definition set_finished (st : string) (t : Z) (b : Build) : Build :=
  mkBuild (pipeline_id b) st (started_at b) (Some t).

(** [build.status = st]: on [None] the assignment raises. *)
Definition require_build (build : option Build) : M Build :=
  match build with
  | Some b => ret b
  | None => raise (AttributeError "NoneType" "status")
  end.

(** The block that ends a build:
    [build = db.session.get(Build, build_id)], [build.status = st],
    [build.finished_at = datetime.now(timezone.utc)], [db.session.commit()]. *)
Definition finish_build (build_id : Z) (st : string) : M unit :=
  build <- db_get w build_id ;;
  b <- require_build build ;;
  t <- now w ;;
  db_commit_build w build_id (set_finished st t b).

(** The [build_progress] emit; its payload is computed inside the [try]. *)
Definition publish_progress (build_id : Z) (completed total_steps : nat) : M unit :=
  try_except
    (p <- lift (progress_percent completed total_steps) ;;
     socketio_emit w (build_progress build_id p))
    (λ _, ret tt).

(** How the [for] loop over the steps ends: it runs out of steps, or the
    function returns from inside it. *)
Inductive flow := Completed | Returned.

(** [for index, step in enumerate(steps):] from [index] on. *)
Fixpoint for_steps (build_id : Z) (total_steps : nat) (index : nat)
    (steps : list json) : M flow :=
  match steps with
  | [] => ret Completed
  | step :: rest =>
      cmd <- lift (py_get step "cmd" JNull) ;;
      publish w (build_step_start build_id index cmd) ;;
      rc <- run_command_and_stream w build_id index cmd ;;
      publish_progress build_id (S index) total_steps ;;
      if rc =? 0 then for_steps build_id total_steps (S index) rest
      else
        finish_build build_id "failed" ;;
        publish w (build_finished build_id "failed" None) ;;
        ret Returned
  end.

(** [pipeline_config_json or "{}"] *)
Definition config_text (pipeline_config_json : option string) : string :=
  match pipeline_config_json with
  | None | Some "" => "{}"
  | Some text => text
  end.

(** The body of the outer [try]. *)
Definition run_steps (build_id : Z) (pipeline_config_json : option string) : M unit :=
  config <- lift (json_loads w (config_text pipeline_config_json)) ;;
  steps <- lift (py_get config "steps" (JArr [])) ;;
  n <- lift (py_len steps) ;;
  let total_steps := if Nat.eqb n 0 then 1%nat else n in
  items <- lift (py_iter steps) ;;
  fl <- for_steps build_id total_steps 0 items ;;
  match fl with
  | Returned => ret tt
  | Completed =>
      finish_build build_id "success" ;;
      publish w (build_finished build_id "success" None)
  end.

(** The [except Exception as e:] of the outer [try]. *)
Definition on_error (build_id : Z) (e : exn) : M unit :=
  build <- db_get w build_id ;;
  match build with
  | Some b =>
      t <- now w ;;
      db_commit_build w build_id (set_finished "failed" t b)
  | None => ret tt
  end ;;
  publish w (build_finished build_id "failed" (Some (exn_msg e))).

Definition run_build_thread (build_id : Z) (pipeline_config_json : option string)
  : M unit :=
  build <- db_get w build_id ;;
  match build with
  | None => print ("[Build " +:+ pretty build_id +:+ "] Not found in DB")
  | Some b =>
      db_commit_build w build_id (set_status "running" b) ;;
      publish w (build_status_update build_id "running") ;;
      try_except (run_steps build_id pipeline_config_json) (on_error build_id)
  end.

End Executor.

(** [run_pipeline] in [app.py] creates the row before it starts the task. *)
Definition new_build (pipeline : Z) (t : Z) : Build :=
  mkBuild pipeline "queued" (Some t) None.

(** ** Running the model: a small world

    The scenario of the specification: a pipeline whose second step fails.
    [demo_world] answers like a Linux host with a working database. *)

Definition JSONDecodeError : exn :=
  Exn "JSONDecodeError" "Expecting value: line 1 column 1 (char 0)".

Definition cmd_step (cmd : string) : json := JObj [("cmd", JStr cmd)].

Definition demo_config : string :=
  "{'steps': [{'cmd': 'echo A'}, {'cmd': 'false'}, {'cmd': 'echo C'}]}".

Definition three_echoes : string :=
  "{'steps': [{'cmd': 'echo A'}, {'cmd': 'echo B'}, {'cmd': 'echo C'}]}".

Definition demo_loads (text : string) : exn + json :=
  if String.eqb text "{}" then inr (JObj [])
  else if String.eqb text demo_config then
    inr (JObj [("steps", JArr [cmd_step "echo A"; cmd_step "false"; cmd_step "echo C"])])
  else if String.eqb text three_echoes then
    inr (JObj [("steps", JArr [cmd_step "echo A"; cmd_step "echo B"; cmd_step "echo C"])])
  else if String.eqb text "{'steps': [{'cmd': 'seq 37'}]}" then
    inr (JObj [("steps", JArr [cmd_step "seq 37"])])
  else if String.eqb text "{'steps': [7]}" then
    inr (JObj [("steps", JArr [JInt 7])])
  else inl JSONDecodeError.

(** The lines [seq n] prints, as [readline] returns them. *)
Definition seq_lines (n : nat) : list (exn + string) :=
  (λ i, inr (pretty i +:+ String newline "")) <$> seq 1 n.

Definition demo_popen (_ : nat) (cmd : json) : exn + Proc :=
  match cmd with
  | JStr "echo A" => inr (mkProc [inr (String "A" (String newline ""))] 0)
  | JStr "echo B" => inr (mkProc [inr (String "B" (String newline ""))] 0)
  | JStr "echo C" => inr (mkProc [inr (String "C" (String newline ""))] 0)
  | JStr "false" => inr (mkProc [] 1)
  | JStr "seq 37" => inr (mkProc (seq_lines 37) 0)
  | JStr _ => inl (Exn "FileNotFoundError" "[Errno 2] No such file or directory: '/bin/sh'")
  | JInt _ => inl (TypeError "'int' object is not iterable")
  | _ => inl (TypeError "expected str, bytes or os.PathLike object")
  end.

Definition demo_world : World :=
  mkWorld false demo_loads (λ _, "") demo_popen (λ _, None) (λ _, None)
          (λ _ _, false) (λ t, 1700000000 + Z.of_nat t).

(** Build 1 of pipeline 1, as [run_pipeline] leaves it. *)
Definition demo_state : State :=
  mkState {[ 1 := new_build 1 1700000000 ]} [] [] [] 0 [].

(** ** The routes of [app.py] that create and read what the runner uses *)

(** A row of [Pipeline]: the columns [create_pipeline] sets. *)
Record Pipeline := mkPipeline {
  pipeline_name : json;
  pipeline_description : json;
  config_json : option string
}.

(** The storage of the application: table [Pipeline] beside the tables of
    the runner. *)
Record App := mkApp {
  pipelines : gmap Z Pipeline;
  store : State
}.

(** What a route returns: [jsonify(body), code]. *)
Record Response := mkResponse {
  resp_code : Z;
  resp_body : json
}.

(** The arguments handed to [socketio.start_background_task]:
    [build.id] and [pipeline.config_json]. *)
Definition Task : Type := Z * option string.

Section Routes.
Context (w : World).

(** What the storage engine and [models.py] decide: the primary key of a
    new row, [json.dumps], and [Pipeline.to_dict(include_stats=True)]; and
    what the server decides: whether [socketio.start_background_task]
    starts the task or raises. *)
Context (new_build_id : gmap Z Build → Z).
Context (start_background_task : Task → option exn).
Context (new_pipeline_id : gmap Z Pipeline → Z).
Context (json_dumps : json → string).
Context (to_dict : App → Z → Pipeline → json).

(** One storage access of a route: it is counted, and it may fail. *)
Definition db_access (a : App) : Res unit * App :=
  let s := store a in
  let a' := mkApp (pipelines a)
              (mkState (builds s) (build_logs s) (published s) (stdout s)
                       (S (db_clock s)) (commits s)) in
  match db_fault w (db_clock s) with
  | Some e => (Raise e, a')
  | None => (Ok tt, a')
  end.

(** Reading an attribute of a row after [db.session.commit()]: the commit
    has expired the loaded attributes, so [build.id] loads the row again.
    The load may fail, and it raises when the row is gone. *)
Definition ObjectDeletedError : exn :=
  Exn "ObjectDeletedError"
      "Instance '<Build>' has been deleted, or its row is otherwise not present.".

Definition reload_build (id : Z) (a : App) : Res unit * App :=
  match db_get w id (store a) with
  | (Raise e, s1) => (Raise e, mkApp (pipelines a) s1)
  | (Ok None, s1) => (Raise ObjectDeletedError, mkApp (pipelines a) s1)
  | (Ok (Some _), s1) => (Ok tt, mkApp (pipelines a) s1)
  end.

(** [run_pipeline(pipeline_id)]: the response and, when a build was
    created and its task started, that task.  After the commit nothing is
    protected: [build.id] and [pipeline.config_json] are loaded again, then
    the task is started, and each of the three may raise. *)
Definition run_pipeline (pipeline_id : Z) (a : App)
  : Res (Response * option Task) * App :=
  match db_access a with
  | (Raise e, a1) => (Raise e, a1)
  | (Ok _, a1) =>
      match pipelines a1 !! pipeline_id with
      | None =>
          (Ok (mkResponse 404 (JObj [("error", JStr "Pipeline not found")]), None), a1)
      | Some pipeline =>
          let build := new_build pipeline_id (utcnow w (db_clock (store a1))) in
          match db_access a1 with
          | (Raise e, a2) => (Raise e, a2)
          | (Ok _, a2) =>
              let s := store a2 in
              let id := new_build_id (builds s) in
              let a3 :=
                mkApp (pipelines a2)
                  (mkState (<[id := build]> (builds s)) (build_logs s) (published s)
                           (stdout s) (db_clock s) (commits s ++ [(id, build)])) in
              match reload_build id a3 with
              | (Raise e, a4) => (Raise e, a4)
              | (Ok _, a4) =>
                  match db_access a4 with
                  | (Raise e, a5) => (Raise e, a5)
                  | (Ok _, a5) =>
                      match start_background_task (id, config_json pipeline) with
                      | Some e => (Raise e, a5)
                      | None =>
                          (Ok (mkResponse 202 (JObj [("build_id", JInt id)]),
                               Some (id, config_json pipeline)), a5)
                      end
                  end
              end
          end
      end
  end.

(** [create_pipeline()], on the body [request.get_json()] returned. *)
Definition create_pipeline (body : json) (a : App) : Res Response * App :=
  let data := if truthy body then body else JObj [] in
  match py_get data "name" JNull with
  | inl e => (Raise e, a)
  | inr name =>
      match (if truthy name then py_get data "config_json" JNull else inr JNull) with
      | inl e => (Raise e, a)
      | inr config =>
          if negb (truthy name) || negb (truthy config) then
            (Ok (mkResponse 400 (JObj [("error", JStr "Missing name or config_json")])), a)
          else
            match py_get data "description" (JStr "") with
            | inl e => (Raise e, a)
            | inr description =>
                let pipeline := mkPipeline name description (Some (json_dumps config)) in
                match db_access a with
                | (Raise e, a1) => (Raise e, a1)
                | (Ok _, a1) =>
                    let id := new_pipeline_id (pipelines a1) in
                    let a2 := mkApp (<[id := pipeline]> (pipelines a1)) (store a1) in
                    (Ok (mkResponse 201 (to_dict a2 id pipeline)), a2)
                end
            end
      end
  end.

(** The time stamp of the [n]-th row of [BuildLog], as [isoformat] prints
    it, or [null]: the column is filled by [models.py]. *)
Context (timestamp : nat → json).

Definition log_entry (n : nat) (l : BuildLog) : json :=
  JObj [("step_index", JInt (Z.of_nat (log_step_index l)));
        ("text", JStr (log_text l));
        ("timestamp", timestamp n)].

(** [BuildLog.query.filter_by(build_id=build_id).order_by(BuildLog.id.asc())],
    each row with its position in the table. *)
Definition logs_of_build (build_id : Z) (logs : list BuildLog) : list (nat * BuildLog) :=
  filter (λ nl, log_build_id nl.2 = build_id) (imap (λ n l, (n, l)) logs).

(** [get_build_logs(build_id)] *)
Definition get_build_logs (build_id : Z) (s : State) : Res Response * State :=
  match db_get w build_id s with
  | (Raise e, s1) => (Raise e, s1)
  | (Ok None, s1) =>
      (Ok (mkResponse 404 (JObj [("error", JStr "Build not found")])), s1)
  | (Ok (Some _), s1) =>
      let s2 := mkState (builds s1) (build_logs s1) (published s1) (stdout s1)
                        (S (db_clock s1)) (commits s1) in
      match db_fault w (db_clock s1) with
      | Some e => (Raise e, s2)
      | None =>
          (Ok (mkResponse 200
                 (JArr ((λ nl, log_entry nl.1 nl.2)
                          <$> logs_of_build build_id (build_logs s1)))), s2)
      end
  end.

End Routes.

(** ** [find_latest_json_report] of [app.py] *)

(** The file system as the function sees it.  A modification time is a
    finite float that is only compared; it is kept as a whole number of
    time units. *)
Record FileSystem := mkFileSystem {
  isdir : string → bool;                  (* os.path.isdir *)
  listdir : string → exn + list string;   (* os.listdir *)
  getmtime : string → exn + Z;            (* os.path.getmtime *)
  path_join : string → string → string    (* os.path.join *)
}.

(** [str.lower] and [str.endswith], on ASCII letters. *)
Definition ascii_lower (c : ascii) : ascii :=
  let n := nat_of_ascii c in
  if (65 <=? n)%nat && (n <=? 90)%nat then ascii_of_nat (n + 32) else c.

Fixpoint str_lower (s : string) : string :=
  match s with
  | EmptyString => EmptyString
  | String c r => String (ascii_lower c) (str_lower r)
  end.

Definition endswith (s suffix : string) : bool :=
  String.prefix (String.rev suffix) (String.rev s).

(** [l.sort(key=..., reverse=True)] on a list of keyed items: descending,
    and stable (items with equal keys stay in their order). *)
Fixpoint insert_desc {A} (x : Z * A) (l : list (Z * A)) : list (Z * A) :=
  match l with
  | [] => [x]
  | y :: rest => if y.1 <=? x.1 then x :: y :: rest else y :: insert_desc x rest
  end.

Definition sort_desc {A} (l : list (Z * A)) : list (Z * A) := foldr insert_desc [] l.

(** The key of every item, in order; the first failure is raised. *)
Fixpoint keyed {A} (key : A → exn + Z) (l : list A) : exn + list (Z * A) :=
  match l with
  | [] => inr []
  | x :: rest =>
      match key x with
      | inl e => inl e
      | inr k =>
          match keyed key rest with
          | inl e => inl e
          | inr kl => inr ((k, x) :: kl)
          end
      end
  end.

Definition is_json_name (f : string) : bool := endswith (str_lower f) ".json".

Definition json_files_of (fs : FileSystem) (reports_dir : string) (names : list string)
  : list string :=
  path_join fs reports_dir <$> filter (λ f, is_json_name f = true) names.

Definition find_latest_json_report (fs : FileSystem) (reports_dir : string)
  : exn + option string :=
  if negb (isdir fs reports_dir) then inr None
  else
    match listdir fs reports_dir with
    | inl e => inl e
    | inr names =>
        match json_files_of fs reports_dir names with
        | [] => inr None
        | json_files =>
            match keyed (getmtime fs) json_files with
            | inl e => inl e
            | inr kl => inr (snd <$> head (sort_desc kl))
            end
        end
    end.

(** ** [chunk_text] of [pyguard_embedding.py], and the overall risk *)

(** [l[start:stop]] for ints of either sign. *)
Definition slice_index (len i : Z) : Z :=
  if i <? 0 then Z.max 0 (i + len) else Z.min i len.

Definition py_slice {A} (l : list A) (start stop : Z) : list A :=
  let len := Z.of_nat (length l) in
  let a := slice_index len start in
  let b := slice_index len stop in
  take (Z.to_nat (b - a)) (drop (Z.to_nat a) l).

(** The [while] loop of [chunk_text], run for at most [fuel] rounds:
    [None] when the rounds do not suffice. *)
Fixpoint chunk_loop {A} (fuel : nat) (text : list A) (size overlap start : Z)
    (chunks : list (list A)) : option (list (list A)) :=
  match fuel with
  | O => None
  | S fuel =>
      if start <? Z.of_nat (length text) then
        let stop := start + size in
        chunk_loop fuel text size overlap (start + (size - overlap))
                   (chunks ++ [py_slice text start stop])
      else Some chunks
  end.

Definition chunk_text {A} (fuel : nat) (text : list A) (size overlap : Z)
  : option (list (list A)) :=
  chunk_loop fuel text size overlap 0 [].

(** The values [classify_risk] returns. *)
Definition risk_levels : list string := ["HIGH"; "MEDIUM"; "LOW"; "SAFE"].

(** [max(risks, default=d)] on strings: the first of the greatest. *)
Definition py_max_str (risks : list string) (d : string) : string :=
  match risks with
  | [] => d
  | x :: rest => foldl (λ m y, if String.ltb m y then y else m) x rest
  end.

(** [summary["overall_risk"]] of [scan_repo], from the risks of its
    findings, and the test that makes it exit with code 1. *)
Definition overall_risk (risks : list string) : string := py_max_str risks "SAFE".

Definition exits_with_1 (fail_on_high : bool) (risks : list string) : bool :=
  fail_on_high && String.eqb (overall_risk risks) "HIGH".

(** ** Vocabulary of the properties *)

(** What a call leaves of the state when it only appends rows, events and
    printed lines: the table [Build] and its write history stay. *)
Record appends (s s' : State) (rows : list BuildLog) (evs : list Event) : Prop :=
  mkAppends {
    app_builds : builds s' = builds s;
    app_commits : commits s' = commits s;
    app_logs : build_logs s' = build_logs s ++ rows;
    app_published : published s' = published s ++ evs
  }.

(** A storage that works: no access fails, no row disappears. *)

Definition Reliable (w : World) : Prop :=
  (∀ t, db_fault w t = None) ∧ (∀ t id, db_vanish w t id = false).

(** The lines the loop of [run_command_and_stream] sees: [iter(readline, "")]
    stops at the first empty answer, and the loop ends at the first call
    that raises. *)
Fixpoint lines_read (reads : list (exn + string)) : list string :=
  match reads with
  | inr line :: rest => if String.eqb line "" then [] else line :: lines_read rest
  | _ => []
  end.

(** The exception that ends the loop, when a [readline] raises before the
    end of the output is reached. *)
Fixpoint read_error (reads : list (exn + string)) : option exn :=
  match reads with
  | [] => None
  | inl e :: _ => Some e
  | inr line :: rest => if String.eqb line "" then None else read_error rest
  end.

(** The text lines of a process, stripped as the loop strips them. *)
Definition stream_texts (proc : Proc) : list string :=
  rstrip_nl <$> lines_read (proc_stdout proc).

(** The lines of the full batches of 15 among [texts]: the lines that are
    stored by the time the loop ends, before the final flush. *)
Definition full_batches (texts : list string) : list string :=
  take (15 * (length texts / 15)) texts.

(** The 5th, 10th, 15th, ... element of a list. *)
Fixpoint every_fifth {A} (l : list A) : list A :=
  match l with
  | _ :: _ :: _ :: _ :: x :: rest => x :: every_fifth rest
  | _ => []
  end.

(** What the throttle lets through when it starts from [emit_cooldown]. *)
Fixpoint throttle {A} (emit_cooldown : nat) (l : list A) : list A :=
  match l with
  | [] => []
  | x :: rest =>
      if (5 <=? S emit_cooldown)%nat then x :: throttle 0 rest
      else throttle (S emit_cooldown) rest
  end.

(** The process of a step, when [run_command_and_stream] launches one. *)
Definition step_proc (w : World) (step_index : nat) (cmd : json) : option Proc :=
  if truthy cmd then
    match popen w step_index (shell_cmd w cmd) with
    | inr proc => Some proc
    | inl _ => None
    end
  else None.

(** The exit code of a step: what [run_command_and_stream] returns to the
    executor when it returns. *)
Definition step_rc (w : World) (step_index : nat) (cmd : json) : Z :=
  if truthy cmd then
    match popen w step_index (shell_cmd w cmd) with
    | inr proc => proc_returncode proc
    | inl _ => 1
    end
  else 0.

(** The output lines of a step that the loop sees. *)
Definition step_texts (w : World) (step_index : nat) (cmd : json) : list string :=
  match step_proc w step_index cmd with
  | Some proc => stream_texts proc
  | None => []
  end.

(** The exception with which [run_command_and_stream] leaves a step whose
    output cannot be read to its end. *)
Definition step_error (w : World) (step_index : nat) (cmd : json) : option exn :=
  match step_proc w step_index cmd with
  | Some proc => read_error (proc_stdout proc)
  | None => None
  end.

(** The lines of a step that reach the storage: all that the loop saw
    when it ends normally, the full batches when a read raises (the final
    flush is then not reached). *)
Definition step_stored (w : World) (step_index : nat) (cmd : json) : list string :=
  match step_error w step_index cmd with
  | None => step_texts w step_index cmd
  | Some _ => full_batches (step_texts w step_index cmd)
  end.

(** The step returns, and returns 0. *)
Definition step_passes (w : World) (step_index : nat) (cmd : json) : bool :=
  match step_error w step_index cmd with
  | None => step_rc w step_index cmd =? 0
  | Some _ => false
  end.

(** [step.get("cmd")] on a step that is a dict. *)
Definition step_cmd (step : json) : json :=
  match py_get step "cmd" JNull with
  | inr cmd => cmd
  | inl _ => JNull
  end.

Definition is_dict (v : json) : bool :=
  match v with
  | JObj _ => true
  | _ => false
  end.

(** The steps that run when the loop starts at [index]: all up to and
    including the first that does not return 0. *)
Fixpoint executed (w : World) (index : nat) (steps : list json) : list json :=
  match steps with
  | [] => []
  | step :: rest =>
      step :: (if step_passes w index (step_cmd step)
               then executed w (S index) rest else [])
  end.

(** All steps return 0. *)
Fixpoint all_pass (w : World) (index : nat) (steps : list json) : bool :=
  match steps with
  | [] => true
  | step :: rest =>
      step_passes w index (step_cmd step) && all_pass w (S index) rest
  end.

(** The number of steps that return when the loop starts at [index]: the
    steps that run, but for one whose output cannot be read. *)
Fixpoint returned (w : World) (index : nat) (steps : list json) : nat :=
  match steps with
  | [] => 0
  | step :: rest =>
      match step_error w index (step_cmd step) with
      | Some _ => 0
      | None =>
          S (if step_rc w index (step_cmd step) =? 0
             then returned w (S index) rest else 0)
      end
  end.

(** How the loop over the steps ends on a storage that works: every step
    returned 0, or a step returned another exit code, or the output of a
    step could not be read. *)
Inductive ending := Succeeds | Fails | Breaks (e : exn).

Fixpoint run_end (w : World) (index : nat) (steps : list json) : ending :=
  match steps with
  | [] => Succeeds
  | step :: rest =>
      match step_error w index (step_cmd step) with
      | Some e => Breaks e
      | None =>
          if step_rc w index (step_cmd step) =? 0 then run_end w (S index) rest
          else Fails
      end
  end.

Definition progress_events (build_id : Z) (completed total_steps : nat) : list Event :=
  match progress_percent completed total_steps with
  | inr p => [build_progress build_id p]
  | inl _ => []
  end.

(** The events of one step, and of a run of steps, in order.  The progress
    is published when the step has returned. *)
Definition step_events (w : World) (build_id : Z) (total_steps index : nat)
    (step : json) : list Event :=
  build_step_start build_id index (step_cmd step)
  :: (build_log build_id index <$> every_fifth (step_texts w index (step_cmd step)))
  ++ match step_error w index (step_cmd step) with
     | None => progress_events build_id (S index) total_steps
     | Some _ => []
     end.

Fixpoint steps_events (w : World) (build_id : Z) (total_steps index : nat)
    (steps : list json) : list Event :=
  match steps with
  | [] => []
  | step :: rest =>
      step_events w build_id total_steps index step
      ++ steps_events w build_id total_steps (S index) rest
  end.

(** The rows of a run of steps, in order. *)
Fixpoint steps_rows (w : World) (build_id : Z) (index : nat) (steps : list json)
  : list BuildLog :=
  match steps with
  | [] => []
  | step :: rest =>
      log_rows build_id index (step_stored w index (step_cmd step))
      ++ steps_rows w build_id (S index) rest
  end.

(** The status a run ends with, and the error its [build_finished]
    carries. *)
Definition outcome (w : World) (steps : list json) : string :=
  match run_end w 0 steps with
  | Succeeds => "success"
  | _ => "failed"
  end.

Definition run_message (w : World) (steps : list json) : option string :=
  match run_end w 0 steps with
  | Breaks e => Some (exn_msg e)
  | _ => None
  end.

(** Projections of a trace of events. *)
Definition step_starts (evs : list Event) : list nat :=
  omap (λ ev, match ev with build_step_start _ i _ => Some i | _ => None end) evs.

Definition progress_values (evs : list Event) : list Z :=
  omap (λ ev, match ev with build_progress _ p => Some p | _ => None end) evs.

Definition finished_events (evs : list Event) : list (string * option string) :=
  omap (λ ev, match ev with build_finished _ st e => Some (st, e) | _ => None end) evs.

Definition log_events (evs : list Event) : list (nat * string) :=
  omap (λ ev, match ev with build_log _ i t => Some (i, t) | _ => None end) evs.

(** [len(steps) or 1] *)
Definition total_steps_of (steps : list json) : nat :=
  if Nat.eqb (length steps) 0 then 1%nat else length steps.

(** A configuration text that parses to a dict whose ["steps"] is a list. *)
Definition config_steps (w : World) (pipeline_config_json : option string)
    (steps : list json) : Prop :=
  ∃ config, json_loads w (config_text pipeline_config_json) = inr config ∧
            py_get config "steps" (JArr []) = inr (JArr steps).

(** The rows of table [BuildLog] that belong to a step of a build. *)
Definition rows_of (build_id : Z) (step_index : nat) (logs : list BuildLog)
  : list BuildLog :=
  filter (λ r, log_build_id r = build_id ∧ log_step_index r = step_index) logs.

(** The run finds its record, marks it running and reaches the outer
    [try] in state [s3]. *)
Definition enters (w : World) (build_id : Z) (s s3 : State) : Prop :=
  ∃ b s1 s2,
    db_get w build_id s = (Ok (Some b), s1) ∧
    db_commit_build w build_id (set_status "running" b) s1 = (Ok tt, s2) ∧
    publish w (build_status_update build_id "running") s2 = (Ok tt, s3).

(** A world whose database goes down after the executor has marked the
    build as running. *)
Definition db_down_world : World :=
  mkWorld false demo_loads (λ _, "") demo_popen (λ _, None)
          (λ t, if (2 <=? t)%nat
                then Some (Exn "OperationalError" "database is locked") else None)
          (λ _ _, false) (λ t, 1700000000 + Z.of_nat t).

(** A world in which another request deletes build 1 while its second
    step runs. *)
Definition deleting_world : World :=
  mkWorld false demo_loads (λ _, "") demo_popen (λ _, None) (λ _, None)
          (λ t id, (t =? 3)%nat && (id =? 1)) (λ t, 1700000000 + Z.of_nat t).

(** The state invariant of a [Build] row. *)
Definition terminal (st : string) : Prop := st = "success" ∨ st = "failed".

Definition finished_iff_terminal (b : Build) : Prop :=
  is_Some (finished_at b) ↔ terminal (status b).

(** From [s] to [s'] every committed write of a [Build] row is a write of
    row [build_id] that satisfies the invariant, and the row, if it is
    there, is the one of [s] or satisfies the invariant. *)
Definition keeps_invariant (build_id : Z) (s s' : State) : Prop :=
  (∃ new, commits s' = commits s ++ new ∧
          Forall (λ ib, ib.1 = build_id ∧ finished_iff_terminal ib.2) new) ∧
  (∀ b, builds s' !! build_id = Some b →
        builds s !! build_id = Some b ∨ finished_iff_terminal b).

(** A computation all of whose outcomes, also the exceptional ones, are
    related to the state it starts from. *)
Definition preserves {A} (R : State → State → Prop) (m : M A) : Prop :=
  ∀ s, R s (m s).2.

(** [round(x)] on a float: the nearest integer, ties to the even one. *)
Definition py_round (x : spec_float) : exn + Z :=
  match x with
  | S754_zero _ => inr 0
  | S754_infinity _ => inl (Exn "OverflowError" "cannot convert float infinity to integer")
  | S754_nan => inl (Exn "ValueError" "cannot convert float NaN to integer")
  | S754_finite s m e =>
      let a :=
        if 0 <=? e then Z.pos m * 2 ^ e
        else
          let d := 2 ^ (- e) in
          let q := Z.pos m / d in
          let r := Z.pos m mod d in
          if 2 * r <? d then q
          else if d <? 2 * r then q + 1
          else if Z.even q then q else q + 1 in
      inr (if s then - a else a)
  end.

(** The percentage as the specification words it:
    [round((completed_steps / total_steps) * 100)]. *)
Definition progress_round (completed total_steps : nat) : exn + Z :=
  match py_truediv (Z.of_nat completed) (Z.of_nat total_steps) with
  | inl e => inl e
  | inr x => py_round (py_times_100 x)
  end.

(** The world [w] with another transport: the emits fail as [fails] says. *)
Definition with_emit (w : World) (fails : nat → option exn) : World :=
  mkWorld (is_windows w) (json_loads w) (py_format w) (popen w) fails
          (db_fault w) (db_vanish w) (utcnow w).

(** From [s] to [s'] no [Build] row is written and no [build_finished]
    is published. *)
Definition silent (s s' : State) : Prop :=
  commits s' = commits s ∧
  ∃ evs, published s' = published s ++ evs ∧ finished_events evs = [].

(** The statuses a list of writes sets, in order. *)
Definition statuses (writes : list (Z * Build)) : list string :=
  (λ ib, status ib.2) <$> writes.

(** The exception that stops [run_build_thread] before its loop: the text
    does not parse, the configuration has no [get], or its ["steps"] has no
    length. *)
Definition config_error (w : World) (pipeline_config_json : option string)
  : option exn :=
  match json_loads w (config_text pipeline_config_json) with
  | inl e => Some e
  | inr config =>
      match py_get config "steps" (JArr []) with
      | inl e => Some e
      | inr steps =>
          match py_len steps with
          | inl e => Some e
          | inr _ => None
          end
      end
  end.

(** The step index and the text of an entry of [get_build_logs]. *)
Definition entry_line (entry : json) : option (Z * string) :=
  match entry with
  | JObj (("step_index", JInt i) :: ("text", JStr t) :: _) => Some (i, t)
  | _ => None
  end.

Definition row_line (l : BuildLog) : Z * string :=
  (Z.of_nat (log_step_index l), log_text l).

(** A small application state for the routes: one pipeline, the build of
    [demo_state], keys handed out in sequence. *)
Definition demo_app : App :=
  mkApp {[ 7 := mkPipeline (JStr "Test Pipeline") (JStr "") (Some three_echoes) ]}
        demo_state.

Definition demo_new_build_id (m : gmap Z Build) : Z := Z.of_nat (size m) + 1.

Definition demo_new_pipeline_id (m : gmap Z Pipeline) : Z := Z.of_nat (size m) + 1.

(** A reports directory with two reports, the newer one with an
    upper-case suffix, and two other files. *)
Definition demo_fs : FileSystem :=
  mkFileSystem
    (λ d, String.eqb d "reports")
    (λ _, inr ["a.json"; "scan.html"; "B.JSON"; "notes.txt"])
    (λ p, if String.eqb p "reports/a.json" then inr 100
          else if String.eqb p "reports/B.JSON" then inr 250
          else inl (Exn "FileNotFoundError" "[Errno 2] No such file or directory"))
    (λ d f, d +:+ "/" +:+ f).

(** A world in which a command prints a byte that is no UTF-8 text:
    [printf \\377\\n] writes the byte [0xff] and a newline and exits with
    code 0; [readline] cannot decode the line and raises. *)
Definition UnicodeDecodeError : exn :=
  Exn "UnicodeDecodeError"
      "'utf-8' codec can't decode byte 0xff in position 0: invalid start byte".

Definition garbled_cmd : string := "printf \\377\\n".

Definition garbled_config : string := "{'steps': [{'cmd': 'printf \\\\377\\\\n'}]}".

Definition garbled_loads (text : string) : exn + json :=
  if String.eqb text garbled_config then inr (JObj [("steps", JArr [cmd_step garbled_cmd])])
  else demo_loads text.

Definition garbled_popen (step_index : nat) (cmd : json) : exn + Proc :=
  match cmd with
  | JStr "printf \\377\\n" => inr (mkProc [inl UnicodeDecodeError] 0)
  | JStr "seq 4; sleep 1; printf \\377\\n" =>
      inr (mkProc (seq_lines 4 ++ [inl UnicodeDecodeError]) 0)
  | JStr "seq 17; sleep 1; printf \\377\\n" =>
      inr (mkProc (seq_lines 17 ++ [inl UnicodeDecodeError]) 0)
  | _ => demo_popen step_index cmd
  end.

Definition garbled_world : World :=
  mkWorld false garbled_loads (λ _, "") garbled_popen (λ _, None) (λ _, None)
          (λ _ _, false) (λ t, 1700000000 + Z.of_nat t).

(** The exception with which the handler of [run_build_thread] fails in
    state [s], if it does: its lookup fails; or it finds the record and
    its commit fails, by a fault of the storage or because the row is
    gone by then. *)
Definition handler_failure (w : World) (build_id : Z) (s : State) : option exn :=
  match db_fault w (db_clock s) with
  | Some e => Some e
  | None =>
      match builds_at w (db_clock s) build_id (builds s) !! build_id with
      | None => None
      | Some _ =>
          match db_fault w (S (db_clock s)) with
          | Some e => Some e
          | None =>
              if db_vanish w (S (db_clock s)) build_id then Some StaleDataError
              else None
          end
      end
  end.

(** * Properties *)

(** ** The progress percentage on examples *)

Example progress_1_3 : progress_percent 1 3 = inr 33.
Proof. reflexivity. Qed.
Example progress_2_3 : progress_percent 2 3 = inr 66.
Proof. reflexivity. Qed.
Example progress_3_3 : progress_percent 3 3 = inr 100.
Proof. reflexivity. Qed.
(** [0.58 * 100] is [57.99999999999999]: the float product may fall just
    short of the exact percentage. *)
Example progress_29_50 : progress_percent 29 50 = inr 57.
Proof. reflexivity. Qed.


(** ** Stepping through monadic code *)

Lemma bind_ok {A B} (m : M A) (k : A → M B) s a s' :
  m s = (Ok a, s') → bind m k s = k a s'.
Proof. unfold bind. by intros ->. Qed.

Lemma bind_raise {A B} (m : M A) (k : A → M B) s e s' :
  m s = (Raise e, s') → bind m k s = (Raise e, s').
Proof. unfold bind. by intros ->. Qed.

Lemma try_ok {A} (m : M A) h s a s' :
  m s = (Ok a, s') → try_except m h s = (Ok a, s').
Proof. unfold try_except. by intros ->. Qed.

Lemma try_raise {A} (m : M A) h s e s' :
  m s = (Raise e, s') → try_except m h s = h e s'.
Proof. unfold try_except. by intros ->. Qed.

(** Lists of events and rows, associated to the right. *)
Ltac norm_app :=
  repeat first [progress cbn [app] | rewrite <- app_assoc | rewrite app_nil_r].

Lemma appends_refl s : appends s s [] [].
Proof. split; by rewrite ?app_nil_r. Qed.

Lemma appends_trans s1 s2 s3 rows1 evs1 rows2 evs2 :
  appends s1 s2 rows1 evs1 → appends s2 s3 rows2 evs2 →
  appends s1 s3 (rows1 ++ rows2) (evs1 ++ evs2).
Proof.
  intros [Hb1 Hc1 Hl1 Hp1] [Hb2 Hc2 Hl2 Hp2].
  split; [congruence | congruence | |].
  - by rewrite Hl2, Hl1, app_assoc.
  - by rewrite Hp2, Hp1, app_assoc.
Qed.

(** A publish never fails, whatever the transport does. *)
Lemma publish_ok w ev s :
  ∃ s', publish w ev s = (Ok tt, s') ∧ appends s s' [] [ev] ∧
        stdout s' = stdout s ∧ db_clock s' = db_clock s.
Proof.
  unfold publish, try_except, socketio_emit.
  destruct (emit_raises w _); eexists; (split; [reflexivity |]);
    (split; [split; simpl; by rewrite ?app_nil_r | done]).
Qed.

Lemma print_ok line s :
  ∃ s', print line s = (Ok tt, s') ∧ appends s s' [] [] ∧
        stdout s' = stdout s ++ [line] ∧ db_clock s' = db_clock s.
Proof.
  eexists; split; [reflexivity |].
  split; [split; simpl; by rewrite ?app_nil_r | done].
Qed.

(** ** A storage that works *)

Section ReliableStorage.
Context (w : World) (Hrel : Reliable w).

Lemma db_get_reliable id s :
  ∃ s', db_get w id s = (Ok (builds s !! id), s') ∧ appends s s' [] [] ∧
        stdout s' = stdout s.
Proof.
  destruct Hrel as [Hf Hv]. unfold db_get, builds_at. rewrite Hf, Hv.
  eexists; split; [reflexivity |].
  split; [split; simpl; by rewrite ?app_nil_r | done].
Qed.

Lemma db_commit_logs_reliable rows s :
  ∃ s', db_commit_logs w rows s = (Ok tt, s') ∧ appends s s' rows [] ∧
        stdout s' = stdout s ∧ db_clock s' = S (db_clock s).
Proof.
  destruct Hrel as [Hf Hv]. unfold db_commit_logs. rewrite Hf.
  eexists; split; [reflexivity |].
  split; [split; simpl; by rewrite ?app_nil_r | done].
Qed.

Lemma db_commit_build_reliable id b b0 s :
  builds s !! id = Some b0 →
  ∃ s', db_commit_build w id b s = (Ok tt, s') ∧
        builds s' = <[id := b]> (builds s) ∧
        commits s' = commits s ++ [(id, b)] ∧
        build_logs s' = build_logs s ∧ published s' = published s ∧
        stdout s' = stdout s.
Proof.
  intros Hb. destruct Hrel as [Hf Hv]. unfold db_commit_build, builds_at.
  rewrite Hf, Hv, Hb. eexists; split; [reflexivity | done].
Qed.

End ReliableStorage.

(** ** The throttle *)

Lemma throttle_every_fifth_le {A} n (l : list A) :
  (length l ≤ n)%nat → throttle 0 l = every_fifth l.
Proof.
  revert l. induction n as [|n IH]; intros l Hl.
  - destruct l; [done | simpl in Hl; lia].
  - do 5 (destruct l as [|? l]; [done |]).
    simpl. f_equal. apply IH. simpl in Hl. lia.
Qed.

Lemma throttle_every_fifth {A} (l : list A) : throttle 0 l = every_fifth l.
Proof. by apply (throttle_every_fifth_le (length l)). Qed.

Lemma every_fifth_length_le {A} n (l : list A) :
  (length l ≤ n)%nat → length (every_fifth l) = (length l / 5)%nat.
Proof.
  revert l. induction n as [|n IH]; intros l Hl.
  - destruct l; [done | simpl in Hl; lia].
  - do 5 (destruct l as [|? l]; [done |]).
    cbn [every_fifth length]. rewrite IH by (simpl in Hl; lia).
    change (S (S (S (S (S (length l)))))) with (5 + length l)%nat.
    replace (5 + length l)%nat with (length l + 1 * 5)%nat by lia.
    rewrite Nat.div_add by lia. lia.
Qed.

Lemma every_fifth_length {A} (l : list A) :
  length (every_fifth l) = (length l / 5)%nat.
Proof. by apply (every_fifth_length_le (length l)). Qed.

Lemma every_fifth_lookup_le {A} n (l : list A) j :
  (length l ≤ n)%nat → every_fifth l !! j = l !! (5 * j + 4)%nat.
Proof.
  revert l j. induction n as [|n IH]; intros l j Hl.
  - destruct l; [done | simpl in Hl; lia].
  - do 5 (destruct l as [|? l];
      [cbn [every_fifth]; rewrite lookup_nil; symmetry;
       apply lookup_ge_None_2; simpl; lia |]).
    destruct j as [|j]; [done |].
    cbn [every_fifth]. rewrite lookup_cons_ne_0 by lia. simpl Nat.pred.
    rewrite IH by (simpl in Hl; lia).
    replace (5 * S j + 4)%nat with (S (S (S (S (S (5 * j + 4))))))%nat by lia.
    done.
Qed.

(** The element number [j] the throttle lets through is line number
    [5 * (j + 1)] of the stream. *)
Lemma every_fifth_lookup {A} (l : list A) j :
  every_fifth l !! j = l !! (5 * j + 4)%nat.
Proof. by apply (every_fifth_lookup_le (length l)). Qed.

(** ** The loop of [run_command_and_stream] *)

Section StreamLoop.
Context (w : World) (Hrel : Reliable w) (build_id : Z) (step_index : nat).

(** The invariant of the loop: the rows stored so far, followed by the
    buffer, are the lines seen so far; the buffer stays below the
    threshold; one storage access per full batch.  The loop ends with its
    buffer, or with the exception of the read that raised; [buffer'] is the
    buffer it holds at that moment. *)
Lemma stream_loop_reliable reads buffer cd s :
  (length buffer < 15)%nat →
  ∃ buffer' s' rows,
    stream_loop w build_id step_index reads buffer cd s
      = (match read_error reads with
         | Some e => Raise e
         | None => Ok buffer'
         end, s') ∧
    appends s s' rows
      (build_log build_id step_index <$> throttle cd (rstrip_nl <$> lines_read reads)) ∧
    rows ++ log_rows build_id step_index buffer' =
      log_rows build_id step_index (buffer ++ (rstrip_nl <$> lines_read reads)) ∧
    (length buffer' < 15)%nat ∧
    (db_clock s' * 15 + length buffer' =
       db_clock s * 15 + length buffer + length (lines_read reads))%nat.
Proof.
  revert buffer cd s. induction reads as [|[e | line] rest IH]; intros buffer cd s Hlen.
  - exists buffer, s, []. simpl. rewrite app_nil_r.
    split; [done |]. split; [apply appends_refl |]. repeat split; [done | lia].
  - exists buffer, s, []. simpl. rewrite app_nil_r.
    split; [done |]. split; [apply appends_refl |]. repeat split; [done | lia].
  - cbn [stream_loop lines_read read_error]. destruct (String.eqb line "") eqn:Hline.
    { exists buffer, s, []. simpl. rewrite app_nil_r.
      split; [done |]. split; [apply appends_refl |]. repeat split; [done | lia]. }
    destruct (print_ok (step_tag build_id step_index +:+ ": " +:+ rstrip_nl line) s)
      as (s1 & Hp & Ha1 & _ & Hc1).
    rewrite (bind_ok _ _ _ _ _ Hp). clear Hp.
    set (text := rstrip_nl line) in *.
    assert (∃ buf2 s2 rows2,
      (if (15 <=? length (buffer ++ [text]))%nat
       then bind (db_commit_logs w (log_rows build_id step_index (buffer ++ [text])))
                 (λ _, ret [])
       else ret (buffer ++ [text])) s1 = (Ok buf2, s2) ∧
      appends s1 s2 rows2 [] ∧
      rows2 ++ log_rows build_id step_index buf2 =
        log_rows build_id step_index (buffer ++ [text]) ∧
      (length buf2 < 15)%nat ∧
      (db_clock s2 * 15 + length buf2 = db_clock s1 * 15 + length buffer + 1)%nat)
      as (buf2 & s2 & rows2 & Hflush & Ha2 & Hrows2 & Hlen2 & Hc2).
    { pose proof (length_app buffer [text]) as Hl. simpl in Hl.
      destruct (Nat.leb_spec 15 (length (buffer ++ [text]))).
      - destruct (db_commit_logs_reliable w Hrel
                    (log_rows build_id step_index (buffer ++ [text])) s1)
          as (s2 & Hcm & Ha & _ & Hck).
        exists [], s2, (log_rows build_id step_index (buffer ++ [text])).
        cbv iota. rewrite (bind_ok _ _ _ _ _ Hcm).
        split; [done |]. split; [exact Ha |].
        split; [unfold log_rows; simpl; by rewrite app_nil_r |].
        simpl length. split; lia.
      - exists (buffer ++ [text]), s1, []. cbv iota.
        split; [done |]. split; [apply appends_refl |].
        split; [done |]. split; lia. }
    rewrite (bind_ok _ _ _ _ _ Hflush). clear Hflush.
    assert (∃ cd3 s3 evs3,
      (if (5 <=? S cd)%nat
       then bind (publish w (build_log build_id step_index text)) (λ _, ret 0%nat)
       else ret (S cd)) s2 = (Ok cd3, s3) ∧
      appends s2 s3 [] evs3 ∧ db_clock s3 = db_clock s2 ∧
      ∀ tl : list string,
        (build_log build_id step_index <$> throttle cd (text :: tl)) =
        evs3 ++ (build_log build_id step_index <$> throttle cd3 tl))
      as (cd3 & s3 & evs3 & Hemit & Ha3 & Hc3 & Hthr).
    { cbn [throttle]. destruct (5 <=? S cd)%nat.
      - destruct (publish_ok w (build_log build_id step_index text) s2)
          as (s3 & Hpub & Ha & _ & Hck).
        exists 0%nat, s3, [build_log build_id step_index text].
        rewrite (bind_ok _ _ _ _ _ Hpub).
        split; [done |]. split; [exact Ha |]. split; [exact Hck | done].
      - exists (S cd), s2, [].
        split; [done |]. split; [apply appends_refl |]. split; done. }
    rewrite (bind_ok _ _ _ _ _ Hemit). clear Hemit.
    destruct (IH buf2 cd3 s3 Hlen2) as (buffer' & s' & rows & Hrun & Ha & Hrows & Hlen' & Hck).
    exists buffer', s', (rows2 ++ rows). split; [exact Hrun |].
    split.
    { rewrite fmap_cons, Hthr.
      pose proof (appends_trans _ _ _ _ _ _ _ Ha1
                    (appends_trans _ _ _ _ _ _ _ Ha2
                       (appends_trans _ _ _ _ _ _ _ Ha3 Ha))) as Hall.
      by rewrite !app_nil_l in Hall. }
    split.
    { rewrite <- app_assoc, Hrows. unfold log_rows in *.
      rewrite fmap_app, app_assoc, Hrows2, <- fmap_app, <- app_assoc. done. }
    split; [exact Hlen' |]. simpl length. lia.
Qed.

End StreamLoop.

(** ** One step on a storage that works *)

Section StepReliable.
Context (w : World) (Hrel : Reliable w) (build_id : Z) (step_index : nat).

Lemma ceil_div_15 (c c' b L : nat) :
  (b < 15)%nat → (c' * 15 + b = c * 15 + L)%nat →
  ((if Nat.eqb b 0 then c' else S c') = c + (L + 14) / 15)%nat.
Proof.
  intros Hb Heq.
  assert (L + 14 = (c' - c) * 15 + (b + 14))%nat as -> by lia.
  rewrite Nat.div_add_l by lia.
  destruct (Nat.eqb_spec b 0) as [-> | Hne].
  - rewrite (Nat.div_small (0 + 14) 15) by lia. lia.
  - assert ((b + 14) / 15 = 1)%nat as ->; [| lia].
    symmetry. apply (Nat.div_unique (b + 14) 15 1 (b - 1)); lia.
Qed.

(** The rows written by the time the loop ends are the full batches. *)
Lemma full_batches_stored (rows : list BuildLog) (buffer texts : list string) (c c' : nat) :
  rows ++ log_rows build_id step_index buffer = log_rows build_id step_index texts →
  (length buffer < 15)%nat →
  (c' * 15 + length buffer = c * 15 + length texts)%nat →
  rows = log_rows build_id step_index (full_batches texts) ∧
  (c' = c + (length (full_batches texts) + 14) / 15)%nat.
Proof.
  intros Hrows Hlen Hck.
  assert (length rows + length buffer = length texts)%nat as Hl.
  { apply (f_equal length) in Hrows. unfold log_rows in Hrows.
    by rewrite length_app, !length_fmap in Hrows. }
  assert (length texts / 15 = c' - c)%nat as Hq.
  { symmetry. apply (Nat.div_unique _ 15 _ (length buffer)); lia. }
  assert (15 * (length texts / 15) = length rows)%nat as Hn by lia.
  split.
  - unfold full_batches, log_rows. rewrite Hn, fmap_take.
    fold (log_rows build_id step_index texts). rewrite <- Hrows.
    by rewrite take_app_length.
  - unfold full_batches. rewrite length_take, Hn.
    replace (length rows `min` length texts)%nat with ((c' - c) * 15)%nat by lia.
    rewrite Nat.div_add_l by lia. rewrite (Nat.div_small 14 15) by lia. lia.
Qed.

(** A step returns its exit code, or raises when its output cannot be
    read; it stores the lines of its process in order (all of them when it
    returns, the full batches when it raises), publishes every fifth line
    it saw, and makes one storage access per batch. *)
Lemma run_command_and_stream_reliable cmd s :
  ∃ s',
    run_command_and_stream w build_id step_index cmd s
      = (match step_error w step_index cmd with
         | Some e => Raise e
         | None => Ok (step_rc w step_index cmd)
         end, s') ∧
    appends s s'
      (log_rows build_id step_index (step_stored w step_index cmd))
      (build_log build_id step_index <$> every_fifth (step_texts w step_index cmd)) ∧
    (db_clock s' = db_clock s + (length (step_stored w step_index cmd) + 14) / 15)%nat.
Proof.
  unfold run_command_and_stream, step_stored, step_error, step_rc, step_texts, step_proc.
  destruct (truthy cmd); cbn [negb]; cbv iota.
  2:{ exists s. split; [done |]. split; [apply appends_refl | simpl; lia]. }
  destruct (popen w step_index (shell_cmd w cmd)) as [e | proc]; cbv beta iota.
  { destruct (print_ok (step_tag build_id step_index +:+ " Failed to start: "
                        +:+ exn_msg e) s) as (s1 & Hp & Ha & _ & Hc).
    exists s1. rewrite (bind_ok _ _ _ _ _ Hp).
    split; [done |]. split; [exact Ha | simpl; lia]. }
  destruct (stream_loop_reliable w Hrel build_id step_index (proc_stdout proc) [] 0%nat s)
    as (buffer & s1 & rows & Hloop & Ha1 & Hrows & Hlen & Hck); [simpl; lia |].
  rewrite throttle_every_fifth in Ha1. rewrite app_nil_l in Hrows.
  fold (stream_texts proc) in *.
  assert (length (stream_texts proc) = length (lines_read (proc_stdout proc))) as Hlt
    by (unfold stream_texts; by rewrite length_fmap).
  destruct (read_error (proc_stdout proc)) as [e |].
  { rewrite (bind_raise _ _ _ _ _ Hloop). exists s1. split; [done |].
    destruct (full_batches_stored rows buffer (stream_texts proc) (db_clock s) (db_clock s1))
      as [-> Hc]; [done | done | simpl in Hck; lia |].
    split; [exact Ha1 | exact Hc]. }
  rewrite (bind_ok _ _ _ _ _ Hloop). clear Hloop.
  assert (∃ s2,
    (match buffer with
     | [] => ret tt
     | _ => db_commit_logs w (log_rows build_id step_index buffer)
     end) s1 = (Ok tt, s2) ∧
    appends s1 s2 (log_rows build_id step_index buffer) [] ∧
    db_clock s2 = if Nat.eqb (length buffer) 0 then db_clock s1 else S (db_clock s1))
    as (s2 & Hflush & Ha2 & Hc2).
  { destruct buffer as [|b buffer].
    - exists s1. split; [done |]. split; [apply appends_refl | done].
    - destruct (db_commit_logs_reliable w Hrel
                  (log_rows build_id step_index (b :: buffer)) s1)
        as (s2 & Hcm & Ha & _ & Hc).
      exists s2. split; [exact Hcm |]. split; [exact Ha | exact Hc]. }
  rewrite (bind_ok _ _ _ _ _ Hflush). clear Hflush.
  destruct (print_ok (step_tag build_id step_index +:+ " Return code "
                      +:+ pretty (proc_returncode proc)) s2)
    as (s3 & Hp & Ha3 & _ & Hc3).
  rewrite (bind_ok _ _ _ _ _ Hp). clear Hp.
  exists s3. split; [done |]. split.
  - pose proof (appends_trans _ _ _ _ _ _ _ Ha1 (appends_trans _ _ _ _ _ _ _ Ha2 Ha3))
      as Hall.
    rewrite !app_nil_r in Hall. by rewrite Hrows in Hall.
  - rewrite Hc3, Hc2, Hlt. simpl in Hck. apply ceil_div_15; [exact Hlen | lia].
Qed.

End StepReliable.

(** ** The executor on a storage that works *)

Lemma publish_progress_ok w build_id completed total_steps s :
  ∃ s', publish_progress w build_id completed total_steps s = (Ok tt, s') ∧
        appends s s' [] (progress_events build_id completed total_steps) ∧
        stdout s' = stdout s ∧ db_clock s' = db_clock s.
Proof.
  unfold publish_progress, progress_events, try_except, bind, lift, socketio_emit.
  destruct (progress_percent completed total_steps) as [e | p]; simpl.
  - exists s. split; [done |]. split; [apply appends_refl | done].
  - destruct (emit_raises w _); eexists; (split; [reflexivity |]);
      (split; [split; simpl; by rewrite ?app_nil_r | done]).
Qed.

Section ExecutorReliable.
Context (w : World) (Hrel : Reliable w) (build_id : Z) (total_steps : nat).

Lemma finish_build_reliable st b s :
  builds s !! build_id = Some b →
  ∃ s' t, finish_build w build_id st s = (Ok tt, s') ∧
          builds s' = <[build_id := set_finished st t b]> (builds s) ∧
          commits s' = commits s ++ [(build_id, set_finished st t b)] ∧
          build_logs s' = build_logs s ∧ published s' = published s.
Proof.
  intros Hb. unfold finish_build.
  destruct (db_get_reliable w Hrel build_id s) as (s1 & Hget & [Hb1 Hc1 Hl1 Hp1] & _).
  rewrite (bind_ok _ _ _ _ _ Hget), Hb. unfold require_build.
  rewrite (bind_ok _ _ s1 b s1) by done.
  rewrite (bind_ok _ _ s1 (utcnow w (db_clock s1)) s1) by done.
  destruct (db_commit_build_reliable w Hrel build_id
              (set_finished st (utcnow w (db_clock s1)) b) b s1)
    as (s2 & Hcm & Hb2 & Hc2 & Hl2 & Hp2 & _); [by rewrite Hb1 |].
  exists s2, (utcnow w (db_clock s1)). split; [exact Hcm |].
  rewrite app_nil_r in Hl1, Hp1. repeat split; congruence.
Qed.

(** The loop over the steps: it runs the steps of [executed], each leaving
    its rows and events, and ends as [run_end] says: it runs out of
    steps, or it ends the build as failed and returns, or it is left by
    the exception of a read. *)
Lemma for_steps_reliable steps index b s :
  forallb is_dict (executed w index steps) = true →
  builds s !! build_id = Some b →
  ∃ s',
    for_steps w build_id total_steps index steps s
      = (match run_end w index steps with
         | Succeeds => Ok Completed
         | Fails => Ok Returned
         | Breaks e => Raise e
         end, s') ∧
    build_logs s' = build_logs s ++ steps_rows w build_id index (executed w index steps) ∧
    published s' = published s
      ++ steps_events w build_id total_steps index (executed w index steps)
      ++ (match run_end w index steps with
          | Fails => [build_finished build_id "failed" None]
          | _ => []
          end) ∧
    match run_end w index steps with
    | Fails => ∃ t, builds s' = <[build_id := set_finished "failed" t b]> (builds s) ∧
                    commits s' = commits s ++ [(build_id, set_finished "failed" t b)]
    | _ => builds s' = builds s ∧ commits s' = commits s
    end.
Proof.
  revert index s. induction steps as [|step rest IH]; intros index s Hdict Hb.
  - exists s. simpl. by rewrite !app_nil_r.
  - cbn [executed forallb] in Hdict. apply andb_true_iff in Hdict as [Hd Hrest].
    destruct step as [| | | | | |kv]; try discriminate Hd.
    cbn [for_steps executed steps_events steps_rows run_end].
    set (step := JObj kv) in *.
    assert (py_get step "cmd" JNull = inr (step_cmd step)) as Hcmd by done.
    rewrite Hcmd. cbn [lift]. rewrite (bind_ok _ _ s (step_cmd step) s) by done.
    destruct (publish_ok w (build_step_start build_id index (step_cmd step)) s)
      as (s1 & Hpub & Ha1 & _).
    rewrite (bind_ok _ _ _ _ _ Hpub). clear Hpub.
    destruct (run_command_and_stream_reliable w Hrel build_id index (step_cmd step) s1)
      as (s2 & Hrun & Ha2 & _).
    unfold step_events, step_passes in *.
    destruct (step_error w index (step_cmd step)) as [e |] eqn:Herr.
    { rewrite (bind_raise _ _ _ _ _ Hrun). exists s2.
      pose proof (appends_trans _ _ _ _ _ _ _ Ha1 Ha2) as [Hb3 Hc3 Hl3 Hp3].
      split; [done |]. rewrite !app_nil_r. simpl in Hl3.
      split; [exact Hl3 |]. split; [exact Hp3 | done]. }
    rewrite (bind_ok _ _ _ _ _ Hrun). clear Hrun.
    destruct (publish_progress_ok w build_id (S index) total_steps s2)
      as (s3 & Hprog & Ha3 & _).
    rewrite (bind_ok _ _ _ _ _ Hprog). clear Hprog.
    pose proof (appends_trans _ _ _ _ _ _ _ Ha1 (appends_trans _ _ _ _ _ _ _ Ha2 Ha3))
      as [Hb3 Hc3 Hl3 Hp3].
    rewrite app_nil_l, app_nil_r in Hl3.
    destruct (step_rc w index (step_cmd step) =? 0) eqn:Hrc.
    + destruct (IH (S index) s3 Hrest) as (s' & Hloop & Hl & Hp & Hfin);
        [by rewrite Hb3 |].
      exists s'. split; [exact Hloop |].
      split; [by rewrite Hl, Hl3, app_assoc |].
      split; [rewrite Hp, Hp3; by norm_app |].
      destruct (run_end w (S index) rest).
      * destruct Hfin. split; congruence.
      * destruct Hfin as (t & Hb' & Hc'). exists t. split; congruence.
      * destruct Hfin. split; congruence.
    + destruct (finish_build_reliable "failed" b s3) as (s4 & t & Hfin & Hb4 & Hc4 & Hl4 & Hp4);
        [by rewrite Hb3 |].
      rewrite (bind_ok _ _ _ _ _ Hfin). clear Hfin.
      destruct (publish_ok w (build_finished build_id "failed" None) s4)
        as (s5 & Hpub & [Hb5 Hc5 Hl5 Hp5] & _).
      rewrite (bind_ok _ _ _ _ _ Hpub). clear Hpub.
      exists s5. split; [done |]. rewrite app_nil_r in Hl5.
      split; [rewrite app_nil_r; congruence |].
      split; [rewrite Hp5, Hp4, Hp3; cbn [steps_events]; by norm_app |].
      exists t. split; congruence.
Qed.

(** The handler on a storage that works. *)
Lemma on_error_reliable e b s :
  builds s !! build_id = Some b →
  ∃ s' t, on_error w build_id e s = (Ok tt, s') ∧
          builds s' = <[build_id := set_finished "failed" t b]> (builds s) ∧
          commits s' = commits s ++ [(build_id, set_finished "failed" t b)] ∧
          build_logs s' = build_logs s ∧
          published s' = published s
            ++ [build_finished build_id "failed" (Some (exn_msg e))].
Proof.
  intros Hb. unfold on_error.
  destruct (db_get_reliable w Hrel build_id s) as (s1 & Hget & [Hb1 Hc1 Hl1 Hp1] & _).
  rewrite (bind_ok _ _ _ _ _ Hget), Hb.
  rewrite app_nil_r in Hl1, Hp1.
  destruct (db_commit_build_reliable w Hrel build_id
              (set_finished "failed" (utcnow w (db_clock s1)) b) b s1)
    as (s2 & Hcm & Hb2 & Hc2 & Hl2 & Hp2 & _); [by rewrite Hb1 |].
  assert ((t <- now w ;; db_commit_build w build_id (set_finished "failed" t b)) s1
          = (Ok tt, s2)) as Hcm' by (by rewrite (bind_ok _ _ s1 (utcnow w (db_clock s1)) s1)).
  rewrite (bind_ok _ _ _ _ _ Hcm').
  destruct (publish_ok w (build_finished build_id "failed" (Some (exn_msg e))) s2)
    as (s' & Hpub & [Hb' Hc' Hl' Hp'] & _).
  exists s', (utcnow w (db_clock s1)). split; [exact Hpub |].
  rewrite app_nil_r in Hl'. repeat split; congruence.
Qed.

End ExecutorReliable.

Lemma total_steps_of_max steps : total_steps_of steps = Nat.max 1 (length steps).
Proof. unfold total_steps_of. destruct (length steps); simpl; lia. Qed.

(** The whole run of a build whose record exists and whose configuration
    lists steps that are dicts, as far as they run: the record ends as
    [outcome] says, with two writes; the trace is the status update, the
    events of the executed steps and one [build_finished], which carries
    the message of the exception when the output of a step could not be
    read. *)
Lemma run_build_thread_reliable w build_id cfg steps b0 s :
  Reliable w →
  builds s !! build_id = Some b0 →
  config_steps w cfg steps →
  forallb is_dict (executed w 0 steps) = true →
  ∃ s' t,
    run_build_thread w build_id cfg s = (Ok tt, s') ∧
    builds s' = <[build_id := set_finished (outcome w steps) t (set_status "running" b0)]>
                  (builds s) ∧
    commits s' = commits s ++
      [(build_id, set_status "running" b0);
       (build_id, set_finished (outcome w steps) t (set_status "running" b0))] ∧
    build_logs s' = build_logs s ++ steps_rows w build_id 0 (executed w 0 steps) ∧
    published s' = published s
      ++ [build_status_update build_id "running"]
      ++ steps_events w build_id (total_steps_of steps) 0 (executed w 0 steps)
      ++ [build_finished build_id (outcome w steps) (run_message w steps)].
Proof.
  intros Hrel Hb (config & Hload & Hsteps) Hdict. unfold run_build_thread.
  destruct (db_get_reliable w Hrel build_id s) as (s1 & Hget & [Hb1 Hc1 Hl1 Hp1] & _).
  rewrite (bind_ok _ _ _ _ _ Hget), Hb. clear Hget.
  rewrite app_nil_r in Hl1, Hp1.
  destruct (db_commit_build_reliable w Hrel build_id (set_status "running" b0) b0 s1)
    as (s2 & Hcm & Hb2 & Hc2 & Hl2 & Hp2 & _); [by rewrite Hb1 |].
  rewrite (bind_ok _ _ _ _ _ Hcm). clear Hcm.
  destruct (publish_ok w (build_status_update build_id "running") s2)
    as (s3 & Hpub & [Hb3 Hc3 Hl3 Hp3] & _).
  rewrite (bind_ok _ _ _ _ _ Hpub). clear Hpub.
  rewrite app_nil_r in Hl3.
  assert (builds s3 !! build_id = Some (set_status "running" b0)) as Hb3'
    by (by rewrite Hb3, Hb2, lookup_insert_eq).
  destruct (for_steps_reliable w Hrel build_id (total_steps_of steps) steps 0
              (set_status "running" b0) s3 Hdict Hb3')
    as (s4 & Hloop & Hl4 & Hp4 & Hfin).
  assert (run_steps w build_id cfg s3
          = (fl <- for_steps w build_id (total_steps_of steps) 0 steps ;;
             match fl with
             | Returned => ret tt
             | Completed =>
                 finish_build w build_id "success" ;;
                 publish w (build_finished build_id "success" None)
             end) s3) as Hbody.
  { unfold run_steps. rewrite Hload. cbn [lift].
    rewrite (bind_ok _ _ s3 config s3) by done. rewrite Hsteps. cbn [lift].
    rewrite (bind_ok _ _ s3 (JArr steps) s3) by done. cbn [py_len py_iter lift].
    rewrite (bind_ok _ _ s3 (length steps) s3) by done.
    by rewrite (bind_ok _ _ s3 steps s3) by done. }
  unfold outcome, run_message.
  destruct (run_end w 0 steps) as [| |e].
  - destruct Hfin as [Hb4 Hc4].
    destruct (finish_build_reliable w Hrel build_id "success"
                (set_status "running" b0) s4)
      as (s5 & t & Hfb & Hb5 & Hc5 & Hl5 & Hp5); [by rewrite Hb4 |].
    destruct (publish_ok w (build_finished build_id "success" None) s5)
      as (s6 & Hpub & [Hb6 Hc6 Hl6 Hp6] & _).
    assert (run_steps w build_id cfg s3 = (Ok tt, s6)) as Hrun.
    { rewrite Hbody, (bind_ok _ _ _ _ _ Hloop), (bind_ok _ _ _ _ _ Hfb). exact Hpub. }
    exists s6, t. rewrite (try_ok _ _ _ _ _ Hrun). rewrite app_nil_r in Hl6, Hp4.
    split; [done |].
    split; [rewrite Hb6, Hb5, Hb4, Hb3, Hb2, Hb1; by rewrite insert_insert_eq |].
    split; [rewrite Hc6, Hc5, Hc4, Hc3, Hc2, Hc1; by rewrite <- app_assoc |].
    split; [congruence |].
    rewrite Hp6, Hp5, Hp4, Hp3, Hp2, Hp1. by rewrite <- !app_assoc.
  - destruct Hfin as (t & Hb4 & Hc4).
    assert (run_steps w build_id cfg s3 = (Ok tt, s4)) as Hrun
      by (by rewrite Hbody, (bind_ok _ _ _ _ _ Hloop)).
    exists s4, t. rewrite (try_ok _ _ _ _ _ Hrun).
    split; [done |].
    split; [rewrite Hb4, Hb3, Hb2, Hb1; by rewrite insert_insert_eq |].
    split; [rewrite Hc4, Hc3, Hc2, Hc1; by rewrite <- app_assoc |].
    split; [congruence |].
    rewrite Hp4, Hp3, Hp2, Hp1. by rewrite <- !app_assoc.
  - destruct Hfin as [Hb4 Hc4].
    assert (run_steps w build_id cfg s3 = (Raise e, s4)) as Hrun
      by (by rewrite Hbody, (bind_raise _ _ _ _ _ Hloop)).
    rewrite (try_raise _ _ _ _ _ Hrun).
    destruct (on_error_reliable w Hrel build_id e (set_status "running" b0) s4)
      as (s' & t & Hh & Hb' & Hc' & Hl' & Hp'); [by rewrite Hb4 |].
    exists s', t. split; [exact Hh |]. rewrite app_nil_r in Hp4.
    split; [rewrite Hb', Hb4, Hb3, Hb2, Hb1; by rewrite insert_insert_eq |].
    split; [rewrite Hc', Hc4, Hc3, Hc2, Hc1; by rewrite <- app_assoc |].
    split; [congruence |].
    rewrite Hp', Hp4, Hp3, Hp2, Hp1. by rewrite <- !app_assoc.
Qed.

(** ** The last percentage *)

Lemma div_eucl_mul_pow2 (p : positive) :
  Z.div_eucl (Z.shiftl (Z.pos p) 53) (Z.pos p) = (2 ^ 53, 0).
Proof.
  rewrite Z.shiftl_mul_pow2 by lia.
  pose proof (Z.div_mul (2 ^ 53) (Z.pos p) ltac:(lia)) as Hq.
  pose proof (Z.mod_mul (2 ^ 53) (Z.pos p) ltac:(lia)) as Hr.
  rewrite (Z.mul_comm (Z.pos p)).
  unfold Z.div, Z.modulo in Hq, Hr.
  destruct (Z.div_eucl (2 ^ 53 * Z.pos p) (Z.pos p)) as [q r].
  simpl in Hq, Hr. by subst.
Qed.

Lemma div_core_same (p : positive) :
  SFdiv_core_binary prec emax (Z.pos p) 0 (Z.pos p) 0 = (2 ^ 53, -53, loc_Exact).
Proof.
  unfold SFdiv_core_binary. cbv zeta.
  replace (Zdigits2 (Z.pos p) + 0 - (Zdigits2 (Z.pos p) + 0)) with 0 by lia.
  change (Z.min (fexp prec emax 0) (0 - 0)) with (-53).
  change (0 - 0 - -53) with 53.
  cbv iota.
  change (IntDef.Z.div_eucl (IntDef.Z.shiftl (Z.pos p) 53) (Z.pos p))
    with (Z.div_eucl (Z.shiftl (Z.pos p) 53) (Z.pos p)).
  rewrite div_eucl_mul_pow2.
  unfold new_location, new_location_even, new_location_odd.
  by destruct (IntDef.Z.even (Z.pos p)).
Qed.

(** [n / n] is [1.0], and [int(1.0 * 100)] is [100]. *)
Lemma progress_percent_all (n : nat) :
  (1 ≤ n)%nat → progress_percent n n = inr 100.
Proof.
  intros Hn. unfold progress_percent, py_truediv.
  destruct (Z.of_nat n) as [|p|p] eqn:Hz; [lia | | lia].
  change (Z.abs (Z.pos p)) with (Z.pos p). rewrite div_core_same. reflexivity.
Qed.

(** ** Reading a trace *)

Lemma steps_events_app w build_id total index pre post :
  steps_events w build_id total index (pre ++ post) =
  steps_events w build_id total index pre
  ++ steps_events w build_id total (index + length pre) post.
Proof.
  revert index. induction pre as [|step pre IH]; intros index;
    cbn [steps_events app length].
  - by rewrite Nat.add_0_r.
  - rewrite IH, <- app_assoc.
    by replace (index + S (length pre))%nat with (S index + length pre)%nat by lia.
Qed.

Lemma step_starts_app evs1 evs2 :
  step_starts (evs1 ++ evs2) = step_starts evs1 ++ step_starts evs2.
Proof. apply omap_app. Qed.

Lemma progress_values_app evs1 evs2 :
  progress_values (evs1 ++ evs2) = progress_values evs1 ++ progress_values evs2.
Proof. apply omap_app. Qed.

Lemma finished_events_app evs1 evs2 :
  finished_events (evs1 ++ evs2) = finished_events evs1 ++ finished_events evs2.
Proof. apply omap_app. Qed.

Lemma step_starts_logs build_id index (texts : list string) :
  step_starts (build_log build_id index <$> texts) = [].
Proof. by induction texts. Qed.

Lemma progress_values_logs build_id index (texts : list string) :
  progress_values (build_log build_id index <$> texts) = [].
Proof. by induction texts. Qed.

Lemma finished_events_logs build_id index (texts : list string) :
  finished_events (build_log build_id index <$> texts) = [].
Proof. by induction texts. Qed.

Lemma step_starts_progress build_id completed total :
  step_starts (progress_events build_id completed total) = [].
Proof. unfold progress_events. by destruct (progress_percent _ _). Qed.

Lemma finished_events_progress build_id completed total :
  finished_events (progress_events build_id completed total) = [].
Proof. unfold progress_events. by destruct (progress_percent _ _). Qed.

Lemma step_starts_step w build_id total index step :
  step_starts (step_events w build_id total index step) = [index].
Proof.
  unfold step_events. rewrite app_comm_cons, step_starts_app.
  change (step_starts (build_step_start build_id index (step_cmd step) :: ?l))
    with (index :: step_starts l).
  rewrite step_starts_logs.
  destruct (step_error w index (step_cmd step)); [done |].
  by rewrite step_starts_progress.
Qed.

Lemma step_starts_steps w build_id total index steps :
  step_starts (steps_events w build_id total index steps) = seq index (length steps).
Proof.
  revert index. induction steps as [|step steps IH]; intros index; [done |].
  cbn [steps_events length seq]. by rewrite step_starts_app, step_starts_step, IH.
Qed.

Lemma finished_events_steps w build_id total index steps :
  finished_events (steps_events w build_id total index steps) = [].
Proof.
  revert index. induction steps as [|step steps IH]; intros index; [done |].
  cbn [steps_events]. rewrite finished_events_app, IH, app_nil_r.
  unfold step_events. rewrite app_comm_cons, finished_events_app.
  change (finished_events (build_step_start build_id index (step_cmd step) :: ?l))
    with (finished_events l).
  rewrite finished_events_logs.
  destruct (step_error w index (step_cmd step)); [done |].
  by rewrite finished_events_progress.
Qed.

Lemma progress_values_step w build_id total index step :
  progress_values (step_events w build_id total index step) =
  match step_error w index (step_cmd step) with
  | None => progress_values (progress_events build_id (S index) total)
  | Some _ => []
  end.
Proof.
  unfold step_events. rewrite app_comm_cons, progress_values_app.
  change (progress_values (build_step_start build_id index (step_cmd step) :: ?l))
    with (progress_values l).
  rewrite progress_values_logs. by destruct (step_error w index (step_cmd step)).
Qed.

Lemma steps_rows_index w build_id index steps :
  Forall (λ r, log_build_id r = build_id ∧
               (index ≤ log_step_index r < index + length steps)%nat)
         (steps_rows w build_id index steps).
Proof.
  revert index. induction steps as [|step steps IH]; intros index; [constructor |].
  cbn [steps_rows length]. apply Forall_app. split.
  - unfold log_rows. apply Forall_fmap, Forall_forall. intros t _. simpl. lia.
  - eapply Forall_impl; [apply IH |]. simpl. lia.
Qed.

(** ** Which steps run *)

Lemma step_passes_spec w index cmd :
  step_passes w index cmd = true ↔
  step_error w index cmd = None ∧ step_rc w index cmd = 0.
Proof.
  unfold step_passes. destruct (step_error w index cmd); [by split; [| intros []] |].
  rewrite Z.eqb_eq. by split; [| intros []].
Qed.

Lemma executed_all_pass w index steps :
  all_pass w index steps = true → executed w index steps = steps.
Proof.
  revert index. induction steps as [|step steps IH]; intros index; [done |].
  cbn [all_pass executed]. intros [Hrc Hrest]%andb_true_iff.
  rewrite Hrc. f_equal. by apply IH.
Qed.

Lemma run_end_all_pass w index steps :
  all_pass w index steps = true ↔ run_end w index steps = Succeeds.
Proof.
  revert index. induction steps as [|step steps IH]; intros index; [done |].
  cbn [all_pass run_end]. rewrite andb_true_iff, IH. unfold step_passes.
  destruct (step_error w index (step_cmd step)); [by split; [intros [] |] |].
  destruct (step_rc w index (step_cmd step) =? 0); [by split; [intros [] |] |].
  by split; [intros [] |].
Qed.

Lemma all_pass_lookup w index steps :
  (∀ i step, steps !! i = Some step →
             step_passes w (index + i) (step_cmd step) = true) →
  all_pass w index steps = true.
Proof.
  revert index. induction steps as [|step steps IH]; intros index Hall; [done |].
  cbn [all_pass]. apply andb_true_iff. split.
  - specialize (Hall 0%nat step eq_refl). by rewrite Nat.add_0_r in Hall.
  - apply IH. intros i st Hi. specialize (Hall (S i) st Hi).
    by replace (S index + i)%nat with (index + S i)%nat by lia.
Qed.

(** Steps that pass, then a step that returns another exit code: the loop
    runs these steps and ends the build as failed. *)
Lemma executed_first_failure w index pre step post :
  all_pass w index pre = true →
  step_error w (index + length pre) (step_cmd step) = None →
  step_rc w (index + length pre) (step_cmd step) ≠ 0 →
  executed w index (pre ++ step :: post) = pre ++ [step] ∧
  run_end w index (pre ++ step :: post) = Fails.
Proof.
  revert index. induction pre as [|st pre IH]; intros index Hpass Herr Hrc.
  - simpl in *. rewrite Nat.add_0_r in Herr, Hrc. unfold step_passes.
    apply Z.eqb_neq in Hrc. by rewrite Herr, Hrc.
  - cbn [all_pass] in Hpass. apply andb_true_iff in Hpass as [Hst Hpass].
    cbn [app executed run_end]. rewrite Hst.
    apply step_passes_spec in Hst as [-> ->]. cbn [Z.eqb].
    replace (index + length (st :: pre))%nat with (S index + length pre)%nat in *
      by (simpl; lia).
    by destruct (IH (S index) Hpass Herr Hrc) as [-> ->].
Qed.

(** Steps that pass, then a step whose output cannot be read: the loop
    is left by the exception of the read. *)
Lemma executed_first_break w index pre step post e :
  all_pass w index pre = true →
  step_error w (index + length pre) (step_cmd step) = Some e →
  executed w index (pre ++ step :: post) = pre ++ [step] ∧
  run_end w index (pre ++ step :: post) = Breaks e.
Proof.
  revert index. induction pre as [|st pre IH]; intros index Hpass Herr.
  - simpl in *. rewrite Nat.add_0_r in Herr. unfold step_passes. by rewrite Herr.
  - cbn [all_pass] in Hpass. apply andb_true_iff in Hpass as [Hst Hpass].
    cbn [app executed run_end]. rewrite Hst.
    apply step_passes_spec in Hst as [-> ->]. cbn [Z.eqb].
    replace (index + length (st :: pre))%nat with (S index + length pre)%nat in *
      by (simpl; lia).
    by destruct (IH (S index) Hpass Herr) as [-> ->].
Qed.

(** A step whose exit code is not 0 is a step the loop does not get past,
    whatever the steps before it do. *)
Lemma executed_not_past w index steps j step :
  steps !! j = Some step →
  step_rc w (index + j) (step_cmd step) ≠ 0 →
  run_end w index steps ≠ Succeeds ∧
  (length (executed w index steps) ≤ S j)%nat.
Proof.
  revert index j. induction steps as [|st steps IH]; intros index j Hj Hrc; [done |].
  cbn [executed run_end length]. unfold step_passes. destruct j as [|j].
  - injection Hj as ->. rewrite Nat.add_0_r in Hrc. apply Z.eqb_neq in Hrc.
    rewrite Hrc. by destruct (step_error w index (step_cmd step)).
  - simpl in Hj. replace (index + S j)%nat with (S index + j)%nat in Hrc by lia.
    destruct (IH (S index) j Hj Hrc) as [Hend Hlen].
    destruct (step_error w index (step_cmd st)); [simpl; split; [done | lia] |].
    destruct (step_rc w index (step_cmd st) =? 0); simpl; split; [done | lia | done | lia].
Qed.

(** The steps that run are the first steps of the list. *)
Lemma executed_prefix w index steps :
  executed w index steps = take (length (executed w index steps)) steps.
Proof.
  revert index. induction steps as [|st steps IH]; intros index; [done |].
  cbn [executed]. destruct (step_passes w index (step_cmd st)); [| done].
  cbn [length take]. f_equal. apply IH.
Qed.

(** * The claims *)

Lemma forallb_take_le {A} (f : A → bool) (l : list A) m n :
  (m ≤ n)%nat → forallb f (take n l) = true → forallb f (take m l) = true.
Proof.
  revert m n. induction l as [|x l IH]; intros m n Hmn; [by destruct m, n |].
  destruct m as [|m]; [done |]. destruct n as [|n]; [lia |].
  cbn [take forallb]. rewrite !andb_true_iff. intros [Hx Hl].
  split; [done |]. apply (IH m n); [lia | done].
Qed.

(** C1 (fail-fast).  On a storage that works, let the configuration list
    the steps [steps], let the first [k - 1] steps have exit code 0 and
    step [k] (counted from 1) a non-zero exit code.  Then the run returns
    normally; no [build_step_start] is published for an index from [k]
    on; every row it stores belongs to an index below [k]; the build ends
    with status [failed] and [finished_at] set; and exactly one
    [build_finished] is published, with status [failed].  This holds also
    when the output of one of these steps cannot be read, which ends the
    build at that step.  When the output of each of the [k] steps is read
    to its end, [build_step_start] is published for exactly the indices
    [0 .. k - 1] and the [build_finished] carries no error. *)
Theorem fail_fast w build_id cfg steps k step b0 s :
  Reliable w →
  builds s !! build_id = Some b0 →
  config_steps w cfg steps →
  (1 ≤ k)%nat →
  steps !! (k - 1)%nat = Some step →
  forallb is_dict (take k steps) = true →
  (∀ i st, (i < k - 1)%nat → steps !! i = Some st → step_rc w i (step_cmd st) = 0) →
  step_rc w (k - 1) (step_cmd step) ≠ 0 →
  ∃ s' evs rows b' err,
    run_build_thread w build_id cfg s = (Ok tt, s') ∧
    published s' = published s ++ evs ∧
    build_logs s' = build_logs s ++ rows ∧
    (∀ i, (k ≤ i)%nat → i ∉ step_starts evs) ∧
    Forall (λ r, (log_step_index r < k)%nat) rows ∧
    builds s' !! build_id = Some b' ∧
    status b' = "failed" ∧ is_Some (finished_at b') ∧
    finished_events evs = [("failed", err)] ∧
    ((∀ i st, (i < k)%nat → steps !! i = Some st →
              step_error w i (step_cmd st) = None) →
     step_starts evs = seq 0 k ∧ err = None).
Proof.
  intros Hrel Hb Hcfg Hk Hstep Hdict Hzero Hrc.
  pose proof (lookup_lt_Some _ _ _ Hstep) as Hlt.
  destruct (executed_not_past w 0 steps (k - 1) step Hstep Hrc) as [Hend Hlen].
  replace (S (k - 1)) with k in Hlen by lia.
  pose proof (executed_prefix w 0 steps) as Hpre.
  assert (forallb is_dict (executed w 0 steps) = true) as Hdict'
    by (rewrite Hpre; by apply (forallb_take_le _ _ _ k)).
  destruct (run_build_thread_reliable w build_id cfg steps b0 s Hrel Hb Hcfg Hdict')
    as (s' & t & Hrun & Hb' & _ & Hl & Hp).
  assert (outcome w steps = "failed") as Hout
    by (unfold outcome; by destruct (run_end w 0 steps)).
  rewrite Hout in *.
  assert (step_starts
            ([build_status_update build_id "running"] ++
             steps_events w build_id (total_steps_of steps) 0 (executed w 0 steps) ++
             [build_finished build_id "failed" (run_message w steps)])
          = seq 0 (length (executed w 0 steps))) as Hstarts.
  { rewrite !step_starts_app, step_starts_steps. simpl. by rewrite app_nil_r. }
  eexists s', _, _, _, (run_message w steps).
  split; [exact Hrun |]. split; [exact Hp |]. split; [exact Hl |].
  split.
  { intros i Hi. rewrite Hstarts, elem_of_seq. lia. }
  split.
  { eapply Forall_impl; [apply steps_rows_index |]. simpl. intros r. lia. }
  split; [by rewrite Hb', lookup_insert_eq |].
  split; [done |]. split; [by eexists |].
  split; [by rewrite !finished_events_app, finished_events_steps |].
  intros Hread.
  pose proof (take_drop_middle _ _ _ Hstep) as Hsplit.
  assert (length (take (k - 1) steps) = (k - 1)%nat) as Hlenk
    by (rewrite length_take; lia).
  destruct (executed_first_failure w 0 (take (k - 1) steps) step (drop (S (k - 1)) steps))
    as [Hexec Hfails].
  - apply all_pass_lookup. intros i st Hi.
    apply lookup_take_Some in Hi as [Hi Hik].
    apply step_passes_spec. split; [apply Hread; [lia | done] | by apply Hzero].
  - rewrite Hlenk. apply Hread; [lia | done].
  - by rewrite Hlenk.
  - rewrite Hsplit in Hexec, Hfails. rewrite Hstarts, Hexec.
    rewrite length_app, Hlenk. simpl.
    replace (k - 1 + 1)%nat with k by lia. split; [done |].
    unfold run_message. by rewrite Hfails.
Qed.

Lemma demo_reliable : Reliable demo_world.
Proof. split; intros; reflexivity. Qed.

Lemma fail_fast_witness :
  ∃ s' evs rows b',
    run_build_thread demo_world 1 (Some demo_config) demo_state = (Ok tt, s') ∧
    published s' = published demo_state ++ evs ∧
    build_logs s' = build_logs demo_state ++ rows ∧
    step_starts evs = seq 0 2 ∧
    (∀ i, (2 ≤ i)%nat → i ∉ step_starts evs) ∧
    Forall (λ r, (log_step_index r < 2)%nat) rows ∧
    builds s' !! 1 = Some b' ∧
    status b' = "failed" ∧ is_Some (finished_at b') ∧
    finished_events evs = [("failed", None)].
Proof.
  destruct (fail_fast demo_world 1 (Some demo_config)
              [cmd_step "echo A"; cmd_step "false"; cmd_step "echo C"] 2
              (cmd_step "false") (new_build 1 1700000000) demo_state)
    as (s' & evs & rows & b' & err & Hrun & Hp & Hl & Hno & Hrows & Hb & Hst & Hfin
        & Hev & Hexact).
  - exact demo_reliable.
  - reflexivity.
  - eexists. split; reflexivity.
  - lia.
  - reflexivity.
  - reflexivity.
  - intros i st Hi Hlk. destruct i as [|i]; [| lia]. injection Hlk as <-. reflexivity.
  - vm_compute. discriminate.
  - destruct Hexact as [Hstarts ->].
    { intros i st Hi Hlk. destruct i as [|[|i]]; [| | lia]; injection Hlk as <-; reflexivity. }
    exists s', evs, rows, b'.
    exact (conj Hrun (conj Hp (conj Hl (conj Hstarts (conj Hno (conj Hrows
             (conj Hb (conj Hst (conj Hfin Hev))))))))).
Defined.

(** C7 (all-success path), as the code has it.  On a storage that works,
    let the configuration list [N ≥ 1] steps, all of which return exit
    code 0, the output of each being read to its end.  Then the build
    ends with status [success] and [finished_at] set; the trace is the
    status update, then for each step in order its [build_step_start], its
    log events and its progress, then [build_finished]; so exactly [N]
    [build_step_start] events are published, with the indices
    [0, 1, .., N - 1] in this order, and the last [build_progress]
    published carries 100. *)
Theorem all_success w build_id cfg steps b0 s :
  Reliable w →
  builds s !! build_id = Some b0 →
  config_steps w cfg steps →
  (1 ≤ length steps)%nat →
  forallb is_dict steps = true →
  all_pass w 0 steps = true →
  ∃ s' evs b',
    run_build_thread w build_id cfg s = (Ok tt, s') ∧
    published s' = published s ++ evs ∧
    evs = [build_status_update build_id "running"]
          ++ steps_events w build_id (length steps) 0 steps
          ++ [build_finished build_id "success" None] ∧
    builds s' !! build_id = Some b' ∧
    status b' = "success" ∧ is_Some (finished_at b') ∧
    step_starts evs = seq 0 (length steps) ∧
    last (progress_values evs) = Some 100.
Proof.
  intros Hrel Hb Hcfg Hn Hdict Hpass.
  pose proof (executed_all_pass w 0 steps Hpass) as Hexec.
  destruct (run_build_thread_reliable w build_id cfg steps b0 s Hrel Hb Hcfg)
    as (s' & t & Hrun & Hb' & _ & _ & Hp); [by rewrite Hexec |].
  pose proof (proj1 (run_end_all_pass w 0 steps) Hpass) as Hend.
  unfold outcome, run_message in *. rewrite Hend, Hexec in *.
  assert (total_steps_of steps = length steps) as Htot
    by (rewrite total_steps_of_max; lia).
  rewrite Htot in Hp.
  eexists s', _, _. split; [exact Hrun |]. split; [exact Hp |].
  split; [reflexivity |].
  split; [by rewrite Hb', lookup_insert_eq |].
  split; [done |]. split; [by eexists |].
  split.
  { rewrite !step_starts_app, step_starts_steps. simpl. by rewrite app_nil_r. }
  rewrite !progress_values_app. cbn [progress_values omap app].
  rewrite app_nil_r.
  destruct steps as [|lst pre _] using rev_ind; [simpl in Hn; lia |].
  assert (step_error w (0 + length pre) (step_cmd lst) = None) as Herr.
  { clear -Hpass. revert Hpass. generalize 0%nat.
    induction pre as [|st pre IH]; intros index; cbn [app all_pass length].
    - rewrite Nat.add_0_r. intros [H _]%andb_true_iff.
      by apply step_passes_spec in H as [? _].
    - intros [_ H]%andb_true_iff.
      replace (index + S (length pre))%nat with (S index + length pre)%nat by lia.
      by apply IH. }
  rewrite length_app. cbn [length].
  rewrite steps_events_app. cbn [steps_events]. rewrite app_nil_r.
  rewrite progress_values_app, progress_values_step, Herr.
  unfold progress_events.
  replace (S (0 + length pre)) with (length pre + 1)%nat by lia.
  rewrite progress_percent_all by lia.
  cbn [progress_values omap]. apply last_snoc.
Qed.

Lemma all_success_witness :
  ∃ s' evs b',
    run_build_thread demo_world 1 (Some three_echoes) demo_state = (Ok tt, s') ∧
    published s' = published demo_state ++ evs ∧
    evs = [build_status_update 1 "running"]
          ++ steps_events demo_world 1 3 0
               [cmd_step "echo A"; cmd_step "echo B"; cmd_step "echo C"]
          ++ [build_finished 1 "success" None] ∧
    builds s' !! 1 = Some b' ∧
    status b' = "success" ∧ is_Some (finished_at b') ∧
    step_starts evs = seq 0 3 ∧
    last (progress_values evs) = Some 100.
Proof.
  apply (all_success demo_world 1 (Some three_echoes)
           [cmd_step "echo A"; cmd_step "echo B"; cmd_step "echo C"]
           (new_build 1 1700000000) demo_state).
  - exact demo_reliable.
  - reflexivity.
  - eexists. split; reflexivity.
  - simpl. lia.
  - reflexivity.
  - reflexivity.
Defined.

(** C7 as stated fails: the one step of the pipeline runs [printf \\377\\n],
    which exits with code 0, but its output is no text; [readline]
    raises, the handler takes over, and the build ends [failed], without a
    [build_progress]. *)
Lemma all_success_counterexample :
  config_steps garbled_world (Some garbled_config) [cmd_step garbled_cmd] ∧
  popen garbled_world 0 (JStr garbled_cmd) = inr (mkProc [inl UnicodeDecodeError] 0) ∧
  step_rc garbled_world 0 (step_cmd (cmd_step garbled_cmd)) = 0 ∧
  ∃ s' b',
    run_build_thread garbled_world 1 (Some garbled_config) demo_state = (Ok tt, s') ∧
    builds s' !! 1 = Some b' ∧ status b' = "failed" ∧
    published s' = [build_status_update 1 "running";
                    build_step_start 1 0 (JStr garbled_cmd);
                    build_finished 1 "failed" (Some (exn_msg UnicodeDecodeError))].
Proof.
  split; [eexists; split; reflexivity |].
  split; [reflexivity |]. split; [reflexivity |].
  eexists _, _. split; [vm_compute; reflexivity |].
  split; [vm_compute; reflexivity |]. split; reflexivity.
Qed.

Lemma rows_of_log_rows build_id step_index texts :
  rows_of build_id step_index (log_rows build_id step_index texts)
  = log_rows build_id step_index texts.
Proof.
  unfold rows_of, log_rows. induction texts as [|t texts IH]; [done |].
  rewrite fmap_cons, filter_cons_True by done. by rewrite IH.
Qed.

(** What a step does is decided by its process, when it has one. *)
Lemma step_of_proc w step_index cmd proc :
  step_proc w step_index cmd = Some proc →
  step_rc w step_index cmd = proc_returncode proc ∧
  step_texts w step_index cmd = stream_texts proc ∧
  step_error w step_index cmd = read_error (proc_stdout proc).
Proof.
  intros Hproc. unfold step_texts, step_error. rewrite Hproc.
  split; [| done]. unfold step_rc, step_proc in *. destruct (truthy cmd); [| done].
  destruct (popen w step_index (shell_cmd w cmd)); congruence.
Qed.

(** C2 (log completeness), as the code has it.  On a storage that works,
    a step whose process prints [L] lines, all of them read until the
    output ends, stores exactly [L] new rows for its build and index: the
    stripped lines, in order, appended to the table.  The rows are written
    in [ceil(L / 15)] transactions: one per full batch of 15 and one for a
    non-empty rest. *)
Theorem log_completeness w build_id step_index cmd proc s :
  Reliable w →
  step_proc w step_index cmd = Some proc →
  read_error (proc_stdout proc) = None →
  ∃ s',
    run_command_and_stream w build_id step_index cmd s
      = (Ok (proc_returncode proc), s') ∧
    build_logs s' = build_logs s ++ log_rows build_id step_index (stream_texts proc) ∧
    length (rows_of build_id step_index (build_logs s')) =
      (length (rows_of build_id step_index (build_logs s))
       + length (lines_read (proc_stdout proc)))%nat ∧
    db_clock s' = (db_clock s + (length (lines_read (proc_stdout proc)) + 14) / 15)%nat.
Proof.
  intros Hrel Hproc Hread.
  destruct (run_command_and_stream_reliable w Hrel build_id step_index cmd s)
    as (s' & Hrun & [_ _ Hl _] & Hck).
  destruct (step_of_proc w step_index cmd proc Hproc) as (Hrc & Htexts & Herr).
  unfold step_stored in *. rewrite Herr, Hread, Hrc, Htexts in *.
  assert (length (stream_texts proc) = length (lines_read (proc_stdout proc))) as Hlen
    by (unfold stream_texts; by rewrite length_fmap).
  exists s'.
  split; [exact Hrun |]. split; [exact Hl |]. split.
  - rewrite Hl. unfold rows_of at 1. rewrite filter_app, length_app.
    fold (rows_of build_id step_index (build_logs s)).
    fold (rows_of build_id step_index (log_rows build_id step_index (stream_texts proc))).
    rewrite rows_of_log_rows. unfold log_rows. by rewrite length_fmap, Hlen.
  - by rewrite Hck, Hlen.
Qed.

Lemma log_completeness_witness :
  ∃ s',
    run_command_and_stream demo_world 1 0 (JStr "seq 37") demo_state
      = (Ok 0, s') ∧
    build_logs s' = build_logs demo_state
      ++ log_rows 1 0 (stream_texts (mkProc (seq_lines 37) 0)) ∧
    length (rows_of 1 0 (build_logs s')) =
      (length (rows_of 1 0 (build_logs demo_state))
       + length (lines_read (seq_lines 37)))%nat ∧
    db_clock s' = (db_clock demo_state + (length (lines_read (seq_lines 37)) + 14) / 15)%nat.
Proof.
  apply (log_completeness demo_world 1 0 (JStr "seq 37") (mkProc (seq_lines 37) 0)
           demo_state).
  - exact demo_reliable.
  - reflexivity.
  - reflexivity.
Defined.

(** C2 as stated fails: the process prints the 17 lines of [seq 17] and
    then a line that is no text.  The first 15 lines are stored as one
    batch; lines 16 and 17 are in the buffer when [readline] raises, the
    final flush is not reached, and the step is left with 15 rows for the
    17 lines it has read. *)
Lemma log_completeness_counterexample :
  ∃ proc s',
    step_proc garbled_world 0 (JStr "seq 17; sleep 1; printf \\377\\n") = Some proc ∧
    length (lines_read (proc_stdout proc)) = 17%nat ∧
    run_command_and_stream garbled_world 1 0 (JStr "seq 17; sleep 1; printf \\377\\n")
      demo_state = (Raise UnicodeDecodeError, s') ∧
    length (rows_of 1 0 (build_logs s')) = 15%nat.
Proof.
  eexists _, _. split; [reflexivity |]. split; [reflexivity |].
  split; [vm_compute; reflexivity |]. vm_compute. reflexivity.
Qed.

(** C3 (throttle), as the code has it.  On a storage that works, a step
    whose process prints [L] lines, all of them read until the output
    ends, publishes exactly [L / 5] (rounded down) [build_log] events,
    whatever [L] is and whether or not the transport delivers them: event
    number [j] (from 0) carries line number [5 * j + 5] (from 1).  All [L]
    lines are stored, published or not. *)
Theorem throttle_correctness w build_id step_index cmd proc s :
  Reliable w →
  step_proc w step_index cmd = Some proc →
  read_error (proc_stdout proc) = None →
  ∃ s' evs,
    run_command_and_stream w build_id step_index cmd s
      = (Ok (proc_returncode proc), s') ∧
    published s' = published s ++ evs ∧
    length evs = (length (lines_read (proc_stdout proc)) / 5)%nat ∧
    (∀ j, evs !! j = build_log build_id step_index
                       <$> stream_texts proc !! (5 * j + 4)%nat) ∧
    build_logs s' = build_logs s ++ log_rows build_id step_index (stream_texts proc).
Proof.
  intros Hrel Hproc Hread.
  destruct (run_command_and_stream_reliable w Hrel build_id step_index cmd s)
    as (s' & Hrun & [_ _ Hl Hp] & _).
  destruct (step_of_proc w step_index cmd proc Hproc) as (Hrc & Htexts & Herr).
  unfold step_stored in *. rewrite Herr, Hread, Hrc, Htexts in *.
  eexists s', _.
  split; [exact Hrun |]. split; [exact Hp |]. split; [| split; [| exact Hl]].
  - rewrite length_fmap, every_fifth_length. unfold stream_texts.
    by rewrite length_fmap.
  - intros j. by rewrite list_lookup_fmap, every_fifth_lookup.
Qed.

Lemma throttle_correctness_witness :
  ∃ s' evs,
    run_command_and_stream demo_world 1 0 (JStr "seq 37") demo_state
      = (Ok 0, s') ∧
    published s' = published demo_state ++ evs ∧
    length evs = (length (lines_read (seq_lines 37)) / 5)%nat ∧
    (∀ j, evs !! j = build_log 1 0
                       <$> stream_texts (mkProc (seq_lines 37) 0) !! (5 * j + 4)%nat) ∧
    build_logs s' = build_logs demo_state
      ++ log_rows 1 0 (stream_texts (mkProc (seq_lines 37) 0)).
Proof.
  apply (throttle_correctness demo_world 1 0 (JStr "seq 37") (mkProc (seq_lines 37) 0)
           demo_state).
  - exact demo_reliable.
  - reflexivity.
  - reflexivity.
Defined.

(** C3 as stated fails: the process prints five lines, the four of [seq 4]
    and one that is no text.  The fifth read raises instead of returning
    the fifth line: no [build_log] is published where the claim counts
    one, and none of the four lines read is stored. *)
Lemma throttle_correctness_counterexample :
  ∃ proc s',
    step_proc garbled_world 0 (JStr "seq 4; sleep 1; printf \\377\\n") = Some proc ∧
    length (proc_stdout proc) = 5%nat ∧
    length (lines_read (proc_stdout proc)) = 4%nat ∧
    run_command_and_stream garbled_world 1 0 (JStr "seq 4; sleep 1; printf \\377\\n")
      demo_state = (Raise UnicodeDecodeError, s') ∧
    log_events (published s') = [] ∧
    build_logs s' = [].
Proof.
  eexists _, _. split; [reflexivity |]. split; [reflexivity |]. split; [reflexivity |].
  split; [vm_compute; reflexivity |]. split; vm_compute; reflexivity.
Qed.

Lemma run_build_thread_entered w build_id cfg s s3 :
  enters w build_id s s3 →
  run_build_thread w build_id cfg s
  = try_except (run_steps w build_id cfg) (on_error w build_id) s3.
Proof.
  intros (b & s1 & s2 & Hget & Hcm & Hpub). unfold run_build_thread.
  rewrite (bind_ok _ _ _ _ _ Hget), (bind_ok _ _ _ _ _ Hcm).
  by rewrite (bind_ok _ _ _ _ _ Hpub).
Qed.

(** C6 (no-op guard).  When the lookup at the start finds no record for
    the build id, the executor prints one line and returns normally: it
    writes no [Build] row, publishes no event and stores no log row. *)
Theorem no_op_guard w build_id cfg s :
  db_fault w (db_clock s) = None →
  builds_at w (db_clock s) build_id (builds s) !! build_id = None →
  ∃ s',
    run_build_thread w build_id cfg s = (Ok tt, s') ∧
    commits s' = commits s ∧
    builds s' !! build_id = None ∧
    (∀ id, id ≠ build_id → builds s' !! id = builds s !! id) ∧
    published s' = published s ∧
    build_logs s' = build_logs s ∧
    stdout s' = stdout s ++ ["[Build " +:+ pretty build_id +:+ "] Not found in DB"].
Proof.
  intros Hfault Hnone. unfold run_build_thread, bind, db_get.
  rewrite Hfault, Hnone. eexists. split; [reflexivity |]. simpl.
  repeat split; try done.
  intros id Hid. unfold builds_at. destruct (db_vanish w _ _); [| done].
  by rewrite lookup_delete_ne.
Qed.

Lemma no_op_guard_witness :
  ∃ s',
    run_build_thread demo_world 2 (Some demo_config) demo_state = (Ok tt, s') ∧
    commits s' = commits demo_state ∧
    builds s' !! 2 = None ∧
    (∀ id, id ≠ 2 → builds s' !! id = builds demo_state !! id) ∧
    published s' = published demo_state ∧
    build_logs s' = build_logs demo_state ∧
    stdout s' = stdout demo_state ++ ["[Build " +:+ pretty 2 +:+ "] Not found in DB"].
Proof.
  apply (no_op_guard demo_world 2 (Some demo_config) demo_state); reflexivity.
Defined.

(** C8 (process spawn failure).  When [Popen] raises for a command,
    [run_command_and_stream] does not raise: it prints a diagnostic,
    touches neither the storage nor the transport, and returns 1.  The
    loop of the executor then handles the step as any failed step: on a
    storage that works it publishes the progress, writes status [failed]
    with [finished_at], publishes [build_finished] with status [failed]
    and returns, whatever steps follow; no row is stored. *)
Theorem spawn_failure w build_id total_steps step_index step rest e s :
  is_dict step = true →
  truthy (step_cmd step) = true →
  popen w step_index (shell_cmd w (step_cmd step)) = inl e →
  (∃ s',
     run_command_and_stream w build_id step_index (step_cmd step) s = (Ok 1, s') ∧
     appends s s' [] [] ∧ db_clock s' = db_clock s ∧
     stdout s' = stdout s ++
       [step_tag build_id step_index +:+ " Failed to start: " +:+ exn_msg e]) ∧
  (Reliable w → ∀ b, builds s !! build_id = Some b →
   ∃ s' t,
     for_steps w build_id total_steps step_index (step :: rest) s = (Ok Returned, s') ∧
     builds s' = <[build_id := set_finished "failed" t b]> (builds s) ∧
     commits s' = commits s ++ [(build_id, set_finished "failed" t b)] ∧
     build_logs s' = build_logs s ∧
     published s' = published s
       ++ [build_step_start build_id step_index (step_cmd step)]
       ++ progress_events build_id (S step_index) total_steps
       ++ [build_finished build_id "failed" None]).
Proof.
  intros Hdict Htruthy Hpopen. split.
  - unfold run_command_and_stream. rewrite Htruthy, Hpopen. cbn [negb].
    destruct (print_ok (step_tag build_id step_index +:+ " Failed to start: "
                        +:+ exn_msg e) s) as (s' & Hp & Ha & Hout & Hck).
    exists s'. by rewrite (bind_ok _ _ _ _ _ Hp).
  - intros Hrel b Hb.
    assert (step_proc w step_index (step_cmd step) = None) as Hproc
      by (unfold step_proc; by rewrite Htruthy, Hpopen).
    assert (step_rc w step_index (step_cmd step) = 1) as Hrc
      by (unfold step_rc; by rewrite Htruthy, Hpopen).
    assert (step_error w step_index (step_cmd step) = None) as Herr
      by (unfold step_error; by rewrite Hproc).
    assert (step_texts w step_index (step_cmd step) = []) as Htexts
      by (unfold step_texts; by rewrite Hproc).
    destruct (for_steps_reliable w Hrel build_id total_steps (step :: rest) step_index b s)
      as (s' & Hrun & Hl & Hp & Hfin); [| exact Hb |].
    { cbn [executed]. unfold step_passes. rewrite Herr, Hrc. cbn [forallb Z.eqb].
      by rewrite Hdict. }
    revert Hrun Hl Hp Hfin. cbn [run_end executed steps_rows steps_events].
    unfold step_passes, step_events, step_stored. rewrite Herr, Hrc, Htexts.
    cbn [Z.eqb steps_rows steps_events log_rows fmap list_fmap every_fifth].
    intros Hrun Hl Hp (t & Hb' & Hc'). exists s', t.
    split; [exact Hrun |]. split; [exact Hb' |]. split; [exact Hc' |].
    split; [by rewrite Hl, !app_nil_r |]. rewrite Hp. by norm_app.
Qed.

Lemma spawn_failure_witness :
  (∃ s',
     run_command_and_stream demo_world 1 0 (JInt 7) demo_state = (Ok 1, s') ∧
     appends demo_state s' [] [] ∧ db_clock s' = db_clock demo_state ∧
     stdout s' = stdout demo_state ++
       [step_tag 1 0 +:+ " Failed to start: " +:+ "'int' object is not iterable"]) ∧
  ∃ s' t,
    for_steps demo_world 1 2 0 [JObj [("cmd", JInt 7)]; cmd_step "echo A"] demo_state
      = (Ok Returned, s') ∧
    builds s' = <[1 := set_finished "failed" t (new_build 1 1700000000)]>
                  (builds demo_state) ∧
    commits s' = commits demo_state
      ++ [(1, set_finished "failed" t (new_build 1 1700000000))] ∧
    build_logs s' = build_logs demo_state ∧
    published s' = published demo_state
      ++ [build_step_start 1 0 (JInt 7)]
      ++ progress_events 1 1 2
      ++ [build_finished 1 "failed" None].
Proof.
  destruct (spawn_failure demo_world 1 2 0 (JObj [("cmd", JInt 7)]) [cmd_step "echo A"]
              (TypeError "'int' object is not iterable") demo_state)
    as [Hstep Hloop]; [reflexivity | reflexivity | reflexivity |].
  split; [exact Hstep |].
  exact (Hloop demo_reliable (new_build 1 1700000000) eq_refl).
Defined.

(** What the handler does once its lookup has been answered. *)
Lemma on_error_found w build_id e b s :
  db_fault w (db_clock s) = None →
  builds_at w (db_clock s) build_id (builds s) !! build_id = Some b →
  db_fault w (S (db_clock s)) = None →
  db_vanish w (S (db_clock s)) build_id = false →
  ∃ s',
    on_error w build_id e s = (Ok tt, s') ∧
    builds s' !! build_id = Some (set_finished "failed" (utcnow w (S (db_clock s))) b) ∧
    commits s' = commits s
      ++ [(build_id, set_finished "failed" (utcnow w (S (db_clock s))) b)] ∧
    published s' = published s ++ [build_finished build_id "failed" (Some (exn_msg e))] ∧
    build_logs s' = build_logs s.
Proof.
  intros Hf Hb Hf' Hv'. unfold on_error.
  set (s1 := mkState (builds_at w (db_clock s) build_id (builds s)) (build_logs s)
                     (published s) (stdout s) (S (db_clock s)) (commits s)).
  assert (db_get w build_id s = (Ok (Some b), s1)) as Hget
    by (unfold db_get; by rewrite Hf, Hb).
  rewrite (bind_ok _ _ _ _ _ Hget).
  set (b' := set_finished "failed" (utcnow w (S (db_clock s))) b).
  set (s2 := mkState (<[build_id := b']> (builds s1)) (build_logs s) (published s)
                     (stdout s) (S (S (db_clock s))) (commits s ++ [(build_id, b')])).
  assert ((t <- now w ;; db_commit_build w build_id (set_finished "failed" t b)) s1
          = (Ok tt, s2)) as Hcm.
  { unfold bind, now, db_commit_build, builds_at. cbn [db_clock builds s1].
    rewrite Hf', Hv'. fold (builds_at w (db_clock s) build_id (builds s)).
    by rewrite Hb. }
  rewrite (bind_ok _ _ _ _ _ Hcm).
  destruct (publish_ok w (build_finished build_id "failed" (Some (exn_msg e))) s2)
    as (s' & Hpub & [Hb' Hc' Hl' Hp'] & _).
  exists s'. split; [exact Hpub |]. simpl in *.
  rewrite Hb', Hc', Hl', Hp', app_nil_r, lookup_insert_eq. done.
Qed.

Lemma on_error_absent w build_id e s :
  db_fault w (db_clock s) = None →
  builds_at w (db_clock s) build_id (builds s) !! build_id = None →
  ∃ s',
    on_error w build_id e s = (Ok tt, s') ∧
    builds s' = builds_at w (db_clock s) build_id (builds s) ∧
    commits s' = commits s ∧
    published s' = published s ++ [build_finished build_id "failed" (Some (exn_msg e))] ∧
    build_logs s' = build_logs s.
Proof.
  intros Hf Hb. unfold on_error.
  set (s1 := mkState (builds_at w (db_clock s) build_id (builds s)) (build_logs s)
                     (published s) (stdout s) (S (db_clock s)) (commits s)).
  assert (db_get w build_id s = (Ok None, s1)) as Hget
    by (unfold db_get; by rewrite Hf, Hb).
  rewrite (bind_ok _ _ _ _ _ Hget), (bind_ok _ _ s1 tt s1) by done.
  destruct (publish_ok w (build_finished build_id "failed" (Some (exn_msg e))) s1)
    as (s' & Hpub & [Hb' Hc' Hl' Hp'] & _).
  exists s'. split; [exact Hpub |]. simpl in *.
  by rewrite Hb', Hc', Hl', Hp', app_nil_r.
Qed.

(** C10 (handler without a record).  When an error of the [try] block
    reaches the handler and the handler's lookup finds no record (it was
    deleted during the run), the handler writes nothing, but still
    publishes [build_finished] with status [failed] and the message of the
    error, for a build id that storage does not hold; the task returns
    normally. *)
Theorem handler_without_record w build_id cfg s s3 e s4 :
  enters w build_id s s3 →
  run_steps w build_id cfg s3 = (Raise e, s4) →
  db_fault w (db_clock s4) = None →
  builds_at w (db_clock s4) build_id (builds s4) !! build_id = None →
  ∃ s',
    run_build_thread w build_id cfg s = (Ok tt, s') ∧
    commits s' = commits s4 ∧
    builds s' !! build_id = None ∧
    published s' = published s4
      ++ [build_finished build_id "failed" (Some (exn_msg e))].
Proof.
  intros Henter Hraise Hf Hnone.
  rewrite (run_build_thread_entered _ _ _ _ _ Henter), (try_raise _ _ _ _ _ Hraise).
  destruct (on_error_absent w build_id e s4 Hf Hnone) as (s' & Hrun & Hb & Hc & Hp & _).
  exists s'. split; [exact Hrun |]. split; [exact Hc |]. split; [by rewrite Hb | exact Hp].
Qed.

Lemma handler_without_record_witness :
  ∃ s',
    run_build_thread deleting_world 1 (Some demo_config) demo_state = (Ok tt, s') ∧
    commits s' = [(1, set_status "running" (new_build 1 1700000000))] ∧
    builds s' !! 1 = None ∧
    published s' =
      [build_status_update 1 "running";
       build_step_start 1 0 (JStr "echo A"); build_progress 1 33;
       build_step_start 1 1 (JStr "false"); build_progress 1 66]
      ++ [build_finished 1 "failed" (Some "'NoneType' object has no attribute 'status'")].
Proof.
  apply (handler_without_record deleting_world 1 (Some demo_config) demo_state
           (publish deleting_world (build_status_update 1 "running")
              (db_commit_build deleting_world 1
                 (set_status "running" (new_build 1 1700000000))
                 (db_get deleting_world 1 demo_state).2).2).2
           (AttributeError "NoneType" "status")
           (run_steps deleting_world 1 (Some demo_config)
              (publish deleting_world (build_status_update 1 "running")
                 (db_commit_build deleting_world 1
                    (set_status "running" (new_build 1 1700000000))
                    (db_get deleting_world 1 demo_state).2).2).2).2).
  - eexists _, _, _. repeat split; reflexivity.
  - vm_compute. reflexivity.
  - reflexivity.
  - vm_compute. reflexivity.
Defined.

(** C5 (safety net), as the code has it.  Every exception raised inside the
    outer [try] (parsing, the loop over the steps, the final write) reaches
    the handler.  If the handler's own storage accesses work, the task
    returns normally, [build_finished] with status [failed] and the message
    of the error is published, and the record, if the handler still finds
    it, ends with status [failed] and [finished_at] set; if it finds none,
    nothing is written. *)
Theorem safety_net w build_id cfg s s3 e s4 :
  enters w build_id s s3 →
  run_steps w build_id cfg s3 = (Raise e, s4) →
  db_fault w (db_clock s4) = None →
  db_fault w (S (db_clock s4)) = None →
  db_vanish w (S (db_clock s4)) build_id = false →
  ∃ s',
    run_build_thread w build_id cfg s = (Ok tt, s') ∧
    published s' = published s4
      ++ [build_finished build_id "failed" (Some (exn_msg e))] ∧
    match builds_at w (db_clock s4) build_id (builds s4) !! build_id with
    | Some b =>
        ∃ t, builds s' !! build_id = Some (set_finished "failed" t b) ∧
             commits s' = commits s4 ++ [(build_id, set_finished "failed" t b)]
    | None => builds s' !! build_id = None ∧ commits s' = commits s4
    end.
Proof.
  intros Henter Hraise Hf Hf' Hv'.
  rewrite (run_build_thread_entered _ _ _ _ _ Henter), (try_raise _ _ _ _ _ Hraise).
  destruct (builds_at w (db_clock s4) build_id (builds s4) !! build_id) as [b |] eqn:Hb.
  - destruct (on_error_found w build_id e b s4 Hf Hb Hf' Hv')
      as (s' & Hrun & Hb' & Hc & Hp & _).
    exists s'. split; [exact Hrun |]. split; [exact Hp |]. by eexists.
  - destruct (on_error_absent w build_id e s4 Hf Hb) as (s' & Hrun & Hb' & Hc & Hp & _).
    exists s'. split; [exact Hrun |]. split; [exact Hp |]. by rewrite Hb'.
Qed.

Lemma safety_net_witness :
  ∃ s',
    run_build_thread demo_world 1 (Some "{'steps': [7]}") demo_state = (Ok tt, s') ∧
    published s' = [build_status_update 1 "running"]
      ++ [build_finished 1 "failed" (Some "'int' object has no attribute 'get'")] ∧
    ∃ t, builds s' !! 1
           = Some (set_finished "failed" t (set_status "running" (new_build 1 1700000000))) ∧
         commits s' = [(1, set_status "running" (new_build 1 1700000000))]
           ++ [(1, set_finished "failed" t
                     (set_status "running" (new_build 1 1700000000)))].
Proof.
  apply (safety_net demo_world 1 (Some "{'steps': [7]}") demo_state
           (publish demo_world (build_status_update 1 "running")
              (db_commit_build demo_world 1
                 (set_status "running" (new_build 1 1700000000))
                 (db_get demo_world 1 demo_state).2).2).2
           (AttributeError "int" "get")
           (publish demo_world (build_status_update 1 "running")
              (db_commit_build demo_world 1
                 (set_status "running" (new_build 1 1700000000))
                 (db_get demo_world 1 demo_state).2).2).2).
  - eexists _, _, _. repeat split; reflexivity.
  - vm_compute. reflexivity.
  - reflexivity.
  - reflexivity.
  - reflexivity.
Defined.

(** C5 as stated fails: with the database down from the third access on,
    the batch of the first step cannot be written (a storage exception
    during step iteration), the handler takes over, its own lookup raises,
    and the exception leaves the task; the record stays [running] without
    [finished_at] and no [build_finished] is published. *)
Lemma safety_net_counterexample :
  ∃ s3 e s4 s',
    enters db_down_world 1 demo_state s3 ∧
    run_steps db_down_world 1 (Some demo_config) s3 = (Raise e, s4) ∧
    run_build_thread db_down_world 1 (Some demo_config) demo_state
      = (Raise (Exn "OperationalError" "database is locked"), s') ∧
    builds s' !! 1 = Some (set_status "running" (new_build 1 1700000000)) ∧
    finished_events (published s') = [].
Proof.
  eexists _, _, _, _. split; [eexists _, _, _; repeat split; reflexivity |].
  split; [vm_compute; reflexivity |].
  split; [vm_compute; reflexivity |].
  split; vm_compute; reflexivity.
Qed.

(** ** The state invariant, in every world *)

Section Invariant.
Context (w : World) (build_id : Z).

Abbreviation R := (keeps_invariant build_id).

Lemma keeps_refl s : R s s.
Proof.
  split; [exists []; by rewrite app_nil_r | by left].
Qed.

Lemma keeps_trans s1 s2 s3 : R s1 s2 → R s2 s3 → R s1 s3.
Proof.
  intros [(n1 & Hc1 & Hn1) Hb1] [(n2 & Hc2 & Hn2) Hb2]. split.
  - exists (n1 ++ n2). split; [by rewrite Hc2, Hc1, app_assoc | by apply Forall_app].
  - intros b Hb. destruct (Hb2 b Hb) as [Hb' | ?]; [by apply Hb1 | by right].
Qed.

(** A step that leaves the table [Build] and its history alone. *)
Lemma keeps_same s s' :
  commits s' = commits s →
  (∀ b, builds s' !! build_id = Some b → builds s !! build_id = Some b) →
  R s s'.
Proof.
  intros Hc Hb. split; [exists []; by rewrite app_nil_r | intros b ?; left; by apply Hb].
Qed.

Lemma builds_at_lookup t m b :
  builds_at w t build_id m !! build_id = Some b → m !! build_id = Some b.
Proof.
  unfold builds_at. destruct (db_vanish w t build_id); [| done].
  by rewrite lookup_delete_eq.
Qed.

Create HintDb pres.

Lemma pres_ret {A} (a : A) : preserves R (ret a).
Proof. intros s. apply keeps_refl. Qed.

Lemma pres_raise {A} e : preserves R (raise (A := A) e).
Proof. intros s. apply keeps_refl. Qed.

Lemma pres_lift {A} (r : exn + A) : preserves R (lift r).
Proof. destruct r; [apply pres_raise | apply pres_ret]. Qed.

Lemma pres_bind {A B} (m : M A) (k : A → M B) :
  preserves R m → (∀ a, preserves R (k a)) → preserves R (bind m k).
Proof.
  intros Hm Hk s. unfold bind. specialize (Hm s).
  destruct (m s) as [[a | e] s1]; [| exact Hm].
  eapply keeps_trans; [exact Hm | apply Hk].
Qed.

Lemma pres_try {A} (m : M A) h :
  preserves R m → (∀ e, preserves R (h e)) → preserves R (try_except m h).
Proof.
  intros Hm Hh s. unfold try_except. specialize (Hm s).
  destruct (m s) as [[a | e] s1]; [exact Hm |].
  eapply keeps_trans; [exact Hm | apply Hh].
Qed.

Lemma pres_print line : preserves R (print line).
Proof. intros s. by apply keeps_same. Qed.

Lemma pres_emit ev : preserves R (socketio_emit w ev).
Proof.
  intros s. unfold socketio_emit. destruct (emit_raises w _); by apply keeps_same.
Qed.

Lemma pres_now : preserves R (now w).
Proof. intros s. apply keeps_refl. Qed.

Lemma pres_db_get : preserves R (db_get w build_id).
Proof.
  intros s. unfold db_get.
  destruct (db_fault w _); (apply keeps_same; [done | apply builds_at_lookup]).
Qed.

Lemma pres_db_commit_logs rows : preserves R (db_commit_logs w rows).
Proof.
  intros s. unfold db_commit_logs. destruct (db_fault w _); by apply keeps_same.
Qed.

Lemma pres_db_commit_build b :
  finished_iff_terminal b → preserves R (db_commit_build w build_id b).
Proof.
  intros Hinv s. unfold db_commit_build.
  destruct (db_fault w _); [apply keeps_same; [done | apply builds_at_lookup] |].
  destruct (builds_at w _ _ _ !! build_id) eqn:Hb;
    [| apply keeps_same; [done | apply builds_at_lookup]].
  split; simpl.
  - exists [(build_id, b)]. split; [done |]. constructor; [done | constructor].
  - intros b'. rewrite lookup_insert_eq. intros [= <-]. by right.
Qed.

Hint Resolve pres_ret pres_raise pres_lift pres_print pres_emit pres_now
  pres_db_get pres_db_commit_logs : pres.

Ltac pres_step :=
  first [ apply pres_bind; [| intros ?]
        | apply pres_try; [| intros ?]
        | solve [auto with pres] ].

Lemma pres_publish ev : preserves R (publish w ev).
Proof. unfold publish. repeat pres_step. Qed.

Lemma pres_publish_progress completed total :
  preserves R (publish_progress w build_id completed total).
Proof. unfold publish_progress. repeat pres_step. Qed.

Hint Resolve pres_publish pres_publish_progress : pres.

Lemma pres_stream_loop step_index lines buffer cd :
  preserves R (stream_loop w build_id step_index lines buffer cd).
Proof.
  revert buffer cd. induction lines as [|[e | line] rest IH]; intros buffer cd;
    cbn [stream_loop]; [auto with pres | auto with pres |].
  destruct (String.eqb line ""); [auto with pres |].
  pres_step; [auto with pres |].
  pres_step; [destruct (15 <=? _)%nat; repeat pres_step |].
  pres_step; [destruct (5 <=? _)%nat; repeat pres_step |].
  apply IH.
Qed.

Lemma pres_run_command_and_stream step_index cmd :
  preserves R (run_command_and_stream w build_id step_index cmd).
Proof.
  unfold run_command_and_stream. destruct (negb (truthy cmd)); [auto with pres |].
  destruct (popen w step_index (shell_cmd w cmd)); [repeat pres_step |].
  apply pres_bind; [apply pres_stream_loop | intros buffer].
  pres_step; [destruct buffer; auto with pres |]. repeat pres_step.
Qed.

Lemma set_finished_invariant st t b :
  terminal st → finished_iff_terminal (set_finished st t b).
Proof. intros Hst. split; [done | by eexists]. Qed.

Lemma pres_finish_build st :
  terminal st → preserves R (finish_build w build_id st).
Proof.
  intros Hst. unfold finish_build, require_build.
  apply pres_bind; [auto with pres | intros build].
  pres_step; [destruct build; auto with pres |].
  pres_step; [auto with pres |].
  by apply pres_db_commit_build, set_finished_invariant.
Qed.

Lemma pres_for_steps total index steps :
  preserves R (for_steps w build_id total index steps).
Proof.
  revert index. induction steps as [|step rest IH]; intros index;
    cbn [for_steps]; [auto with pres |].
  pres_step; [auto with pres |].
  pres_step; [auto with pres |].
  pres_step; [apply pres_run_command_and_stream |].
  pres_step; [auto with pres |].
  destruct (_ =? 0); [apply IH |].
  pres_step; [apply pres_finish_build; by right |]. repeat pres_step.
Qed.

Lemma pres_run_steps cfg : preserves R (run_steps w build_id cfg).
Proof.
  unfold run_steps. do 4 (pres_step; [auto with pres |]).
  apply pres_bind; [apply pres_for_steps | intros fl].
  destruct fl; [| auto with pres].
  pres_step; [apply pres_finish_build; by left | auto with pres].
Qed.

Lemma pres_on_error e : preserves R (on_error w build_id e).
Proof.
  unfold on_error. apply pres_bind; [auto with pres | intros build].
  pres_step; [| auto with pres].
  destruct build; [| auto with pres].
  pres_step; [auto with pres |].
  apply pres_db_commit_build, set_finished_invariant. by right.
Qed.

End Invariant.

(** C9 (state invariant).  Let the record of the build, if storage holds
    one, be as [run_pipeline] creates it: [queued], without [finished_at].
    Then in every world, whatever fails, every write of the run is a
    write of this build's row in which [finished_at] is set if and only
    if the status is [success] or [failed], and the row the run leaves
    behind satisfies the same. *)
Theorem finished_at_iff_terminal w build_id cfg s :
  (∀ b0, builds s !! build_id = Some b0 →
         status b0 = "queued" ∧ finished_at b0 = None) →
  ∃ new,
    commits (run_build_thread w build_id cfg s).2 = commits s ++ new ∧
    Forall (λ ib, ib.1 = build_id ∧ finished_iff_terminal ib.2) new ∧
    ∀ b, builds (run_build_thread w build_id cfg s).2 !! build_id = Some b →
         finished_iff_terminal b.
Proof.
  intros Hnew.
  assert (∀ b0, builds s !! build_id = Some b0 → finished_iff_terminal b0) as Hqueued.
  { intros b0 Hb0. destruct (Hnew b0 Hb0) as [Hst Hfin].
    unfold finished_iff_terminal, terminal. rewrite Hst, Hfin.
    split; [by intros [? ?] | by intros [? | ?]]. }
  assert (keeps_invariant build_id s (run_build_thread w build_id cfg s).2)
    as [(new & Hc & Hall) Hb].
  { unfold run_build_thread.
    pose proof (pres_db_get w build_id s) as Hget. unfold bind at 1.
    destruct (db_get w build_id s) as [[[b |] | e] s1] eqn:Hg; simpl in Hget;
      [| eapply keeps_trans; [exact Hget | apply pres_print] | exact Hget].
    eapply keeps_trans; [exact Hget |].
    assert (builds s !! build_id = Some b) as Hbs.
    { unfold db_get in Hg. destruct (db_fault w _); [done |].
      injection Hg as Hg _. by apply builds_at_lookup in Hg. }
    destruct (Hnew b Hbs) as [Hst Hfin].
    apply pres_bind.
    - apply pres_db_commit_build. unfold finished_iff_terminal, terminal, set_status.
      simpl. rewrite Hfin. split; [by intros [? ?] | by intros [? | ?]].
    - intros _. apply pres_bind; [apply pres_publish |]. intros _.
      apply pres_try; [apply pres_run_steps | apply pres_on_error]. }
  exists new. split; [exact Hc |]. split; [exact Hall |].
  intros b Hb'. destruct (Hb b Hb') as [Hold | ?]; [by apply Hqueued | done].
Qed.

Lemma finished_at_iff_terminal_witness :
  ∃ new,
    commits (run_build_thread demo_world 1 (Some demo_config) demo_state).2
      = commits demo_state ++ new ∧
    Forall (λ ib, ib.1 = 1 ∧ finished_iff_terminal ib.2) new ∧
    ∀ b, builds (run_build_thread demo_world 1 (Some demo_config) demo_state).2 !! 1
           = Some b →
         finished_iff_terminal b.
Proof.
  apply (finished_at_iff_terminal demo_world 1 (Some demo_config) demo_state).
  intros b0 Hb0. vm_compute in Hb0. injection Hb0 as <-. split; reflexivity.
Defined.

(** ** The percentage is always defined

    Neither the division nor the product by 100 can overflow when
    [1 ≤ completed ≤ total_steps], so [int] always gets a finite float. *)

Section FloatBounds.

Lemma digits2_pos_size p : digits2_pos p = Pos.size p.
Proof. induction p; simpl; by rewrite ?IHp. Qed.

Lemma Zdigits2_nonneg m : 0 ≤ Zdigits2 m.
Proof. destruct m; simpl; lia. Qed.

Lemma Zdigits2_bounds m :
  0 < m → 2 ^ Zdigits2 m ≤ 2 * m ∧ m < 2 ^ Zdigits2 m.
Proof.
  destruct m as [|p|p]; [lia | | lia]. intros _. simpl Zdigits2.
  rewrite digits2_pos_size. split.
  - pose proof (Pos.size_le p) as H.
    apply Pos2Z.pos_le_pos in H. by rewrite Pos2Z.inj_pow in H.
  - pose proof (Pos.size_gt p) as H.
    apply Pos2Z.pos_lt_pos in H. by rewrite Pos2Z.inj_pow in H.
Qed.

(** A number below [2 ^ j] has at most [j] digits. *)
Lemma Zdigits2_le_of_lt m j : 0 ≤ m → 0 ≤ j → m < 2 ^ j → Zdigits2 m ≤ j.
Proof.
  intros Hm Hj Hlt. destruct (Z.eq_dec m 0) as [-> | Hne]; [simpl; lia |].
  destruct (Zdigits2_bounds m ltac:(lia)) as [Hlo _].
  destruct (Z.le_gt_cases (Zdigits2 m) j) as [? | Hgt]; [done | exfalso].
  assert (2 ^ (j + 1) ≤ 2 ^ Zdigits2 m) by (apply Z.pow_le_mono_r; lia).
  rewrite Z.pow_add_r, Z.pow_1_r in * by lia. lia.
Qed.

Lemma Zdigits2_succ m : 0 ≤ m → Zdigits2 (m + 1) ≤ Zdigits2 m + 1.
Proof.
  intros Hm. pose proof (Zdigits2_nonneg m).
  apply Zdigits2_le_of_lt; [lia | lia |].
  destruct (Z.eq_dec m 0) as [-> | Hne]; [simpl; lia |].
  destruct (Zdigits2_bounds m ltac:(lia)) as [_ Hhi].
  rewrite Z.pow_add_r, Z.pow_1_r by lia. lia.
Qed.

Lemma Zdigits2_div_pow2 m n :
  0 ≤ m → 0 < n → Zdigits2 (m / 2 ^ n) + n ≤ Z.max (Zdigits2 m) n.
Proof.
  intros Hm Hn. pose proof (Zdigits2_nonneg m).
  assert (0 < 2 ^ n) as Hpow by (apply Z.pow_pos_nonneg; lia).
  assert (0 ≤ m / 2 ^ n) as Hq by (apply Z.div_pos; lia).
  destruct (Z.eq_dec (m / 2 ^ n) 0) as [-> | Hne]; [simpl; lia |].
  assert (0 < m) by (destruct (Z.eq_dec m 0) as [-> |]; [by rewrite Z.div_0_l in Hne by lia | lia]).
  destruct (Zdigits2_bounds m ltac:(lia)) as [_ Hhi].
  assert (2 ^ n * (m / 2 ^ n) ≤ m) as Hmul by (apply Z.mul_div_le; lia).
  destruct (Z.le_gt_cases (Zdigits2 m) n) as [Hle | Hgt].
  { exfalso. assert (2 ^ Zdigits2 m ≤ 2 ^ n) by (apply Z.pow_le_mono_r; lia). nia. }
  enough (Zdigits2 (m / 2 ^ n) ≤ Zdigits2 m - n) by lia.
  apply Zdigits2_le_of_lt; [lia | lia |].
  apply (Z.mul_lt_mono_pos_l (2 ^ n)); [done |].
  rewrite <- Z.pow_add_r by lia. replace (n + (Zdigits2 m - n)) with (Zdigits2 m) by lia.
  lia.
Qed.

Lemma shr_1_m r : 0 ≤ shr_m r → shr_m (shr_1 r) = shr_m r / 2.
Proof.
  destruct r as [m b s]. cbn [shr_m]. intros Hm.
  destruct m as [|[p | p |]|p]; cbn [shr_1 shr_m]; [done | | | done | lia].
  - apply (Z.div_unique_pos (Z.pos p~1) 2 (Z.pos p) 1); lia.
  - apply (Z.div_unique_pos (Z.pos p~0) 2 (Z.pos p) 0); lia.
Qed.

Lemma iter_shr_1_m p r :
  0 ≤ shr_m r → shr_m (SpecFloat.iter_pos shr_1 p r) = shr_m r / 2 ^ Z.pos p.
Proof.
  assert (∀ a b c, 0 < b → 0 < c → a / b / c = a / (b * c)) as Hdd
    by (intros; by rewrite Z.div_div by lia).
  assert (∀ x, 0 < 2 ^ Z.pos x) as Hpos by (intros; apply Z.pow_pos_nonneg; lia).
  revert r. induction p as [p IH | p IH |]; intros r Hr; cbn [SpecFloat.iter_pos].
  - assert (0 ≤ shr_m (shr_1 r)) as H1 by (rewrite shr_1_m by done; apply Z.div_pos; lia).
    assert (0 ≤ shr_m (SpecFloat.iter_pos shr_1 p (shr_1 r))) as H2
      by (rewrite IH by done; apply Z.div_pos; [lia | apply Hpos]).
    assert (2 ^ Z.pos p~1 = 2 * 2 ^ Z.pos p * 2 ^ Z.pos p) as ->.
    { rewrite Pos2Z.inj_xI, <- Z.mul_assoc, <- Z.pow_add_r, <- Z.pow_succ_r by lia.
      f_equal. lia. }
    rewrite IH, IH, shr_1_m by done.
    pose proof (Hpos p). rewrite !Hdd by nia. f_equal. lia.
  - assert (0 ≤ shr_m (SpecFloat.iter_pos shr_1 p r)) as H2
      by (rewrite IH by done; apply Z.div_pos; [lia | apply Hpos]).
    assert (2 ^ Z.pos p~0 = 2 ^ Z.pos p * 2 ^ Z.pos p) as ->.
    { rewrite Pos2Z.inj_xO, <- Z.pow_add_r by lia. f_equal. lia. }
    rewrite IH, IH by done.
    pose proof (Hpos p). by rewrite Hdd by nia.
  - by rewrite shr_1_m, Z.pow_1_r.
Qed.

End FloatBounds.

Section RoundingBounds.

Lemma shr_record_of_loc_m m l : shr_m (shr_record_of_loc m l) = m.
Proof. by destruct l as [|[| |]]. Qed.

Lemma fexp_eq e : fexp prec emax e = Z.max (e - 53) (-1074).
Proof. reflexivity. Qed.

(** The shift of [binary_round_aux]: the mantissa stays non-negative, the
    exponent becomes the canonical one unless it is already above it, and
    the magnitude does not grow. *)
Lemma shr_fexp_spec m e l r e' :
  0 ≤ m → shr_fexp prec emax m e l = (r, e') →
  0 ≤ shr_m r ∧
  e' = Z.max e (fexp prec emax (Zdigits2 m + e)) ∧
  Zdigits2 (shr_m r) + e' ≤ Z.max (Zdigits2 m + e) e'.
Proof.
  intros Hm. unfold shr_fexp, shr.
  destruct (fexp prec emax (Zdigits2 m + e) - e) as [|p|p] eqn:Hn.
  - intros [= <- <-]. rewrite shr_record_of_loc_m. lia.
  - intros [= <- <-]. rewrite iter_shr_1_m by (by rewrite shr_record_of_loc_m).
    rewrite shr_record_of_loc_m.
    assert (0 < 2 ^ Z.pos p) by (apply Z.pow_pos_nonneg; lia).
    split; [apply Z.div_pos; lia |]. split; [lia |].
    pose proof (Zdigits2_div_pow2 m (Z.pos p) Hm ltac:(lia)). lia.
  - intros [= <- <-]. rewrite shr_record_of_loc_m. lia.
Qed.

Lemma round_nearest_even_bound m l :
  0 ≤ m →
  0 ≤ round_nearest_even m l ∧ Zdigits2 (round_nearest_even m l) ≤ Zdigits2 m + 1.
Proof.
  intros Hm. pose proof (Zdigits2_succ m Hm).
  unfold round_nearest_even.
  destruct l as [|[| |]]; try destruct (Z.even m); split; lia.
Qed.

(** Rounding a non-negative mantissa of magnitude below [2 ^ B], with
    [B ≤ 1023], gives a zero or a finite float, never an infinity or a
    NaN; the magnitude grows by at most one binade. *)
Lemma binary_round_aux_bound sx mx ex lx B :
  0 ≤ mx → Zdigits2 mx + ex ≤ B → B ≤ 1023 → ex ≤ 971 →
  match binary_round_aux prec emax sx mx ex lx with
  | S754_zero _ => True
  | S754_finite _ m e => Zdigits2 (Z.pos m) + e ≤ Z.max B (-1074) + 1
  | _ => False
  end.
Proof.
  intros Hm HB HB' Hex. unfold binary_round_aux.
  pose proof (Zdigits2_nonneg mx).
  destruct (shr_fexp prec emax mx ex lx) as [r1 e1] eqn:H1.
  destruct (shr_fexp_spec _ _ _ _ _ Hm H1) as (Hr1 & He1 & Hd1).
  destruct (round_nearest_even_bound (shr_m r1) (loc_of_shr_record r1) Hr1)
    as [Hm1 Hdm1].
  set (m1 := round_nearest_even (shr_m r1) (loc_of_shr_record r1)) in *.
  destruct (shr_fexp prec emax m1 e1 loc_Exact) as [r2 e2] eqn:H2.
  destruct (shr_fexp_spec _ _ _ _ _ Hm1 H2) as (Hr2 & He2 & Hd2).
  rewrite !fexp_eq in *.
  destruct (shr_m r2) as [|m2|m2] eqn:Hm2; [done | | lia].
  assert (e2 ≤ 971) as Hle by lia.
  apply Z.leb_le in Hle. change (emax - prec) with 971. rewrite Hle. lia.
Qed.

End RoundingBounds.

Section PercentDefined.

(** The quotient of the division core stays below 2 when the numerator
    does not exceed the denominator. *)
Lemma div_core_bound (k n : Z) q e l :
  0 < k ≤ n →
  SFdiv_core_binary prec emax k 0 n 0 = (q, e, l) →
  0 ≤ q ∧ Zdigits2 q + e ≤ 1 ∧ e ≤ 0.
Proof.
  intros Hkn. unfold SFdiv_core_binary. cbv zeta.
  generalize (fexp prec emax (Zdigits2 k + 0 - (Zdigits2 n + 0))). intros F.
  replace (0 - 0 - Z.min F (0 - 0)) with (- Z.min F 0) by lia.
  replace (Z.min F (0 - 0)) with (Z.min F 0) by lia.
  set (M := match - Z.min F 0 with
            | 0 => k
            | Z.pos _ => Z.shiftl k (- Z.min F 0)
            | Z.neg _ => 0
            end).
  destruct (IntDef.Z.div_eucl M n) as [q' r'] eqn:Hdiv.
  change (IntDef.Z.div_eucl M n) with (Z.div_eucl M n) in Hdiv.
  intros [= <- <- <-].
  assert (q' = M / n) as -> by (unfold Z.div; by rewrite Hdiv).
  assert (0 ≤ M ∧ M ≤ n * 2 ^ (- Z.min F 0)) as [HM0 HM].
  { subst M. destruct (- Z.min F 0) as [|p|p] eqn:Hs; [simpl; lia | | lia].
    rewrite Z.shiftl_mul_pow2 by lia.
    assert (0 < 2 ^ Z.pos p) by (apply Z.pow_pos_nonneg; lia). nia. }
  assert (0 < 2 ^ (- Z.min F 0)) as Hpow by (apply Z.pow_pos_nonneg; lia).
  assert (0 ≤ M / n) as Hq by (apply Z.div_pos; lia).
  assert (M / n ≤ 2 ^ (- Z.min F 0)) as Hqle.
  { apply Z.div_le_upper_bound; lia. }
  split; [exact Hq |]. split; [| lia].
  enough (Zdigits2 (M / n) ≤ - Z.min F 0 + 1) by lia.
  apply Zdigits2_le_of_lt; [lia | lia |].
  rewrite Z.pow_add_r, Z.pow_1_r by lia. lia.
Qed.

Lemma float_100 : float_of_int 100 = S754_finite false 7036874417766400 (-46).
Proof. reflexivity. Qed.

Lemma py_int_times_100 m e :
  Zdigits2 (Z.pos m) + e ≤ 2 →
  ∃ p, py_int (py_times_100 (S754_finite false m e)) = inr p.
Proof.
  intros Hd. unfold py_times_100. rewrite float_100. cbn [SFmul xorb].
  assert (0 < Zdigits2 (Z.pos m)) as Hdm by (simpl; lia).
  destruct (Zdigits2_bounds (Z.pos m) ltac:(lia)) as [_ Hhi].
  assert (Zdigits2 (Z.pos (m * 7036874417766400)) ≤ Zdigits2 (Z.pos m) + 53) as Hprod.
  { apply Zdigits2_le_of_lt; [lia | lia |].
    rewrite Pos2Z.inj_mul, Z.pow_add_r by lia.
    assert (7036874417766400 < 2 ^ 53) by reflexivity. nia. }
  pose proof (binary_round_aux_bound false (Z.pos (m * 7036874417766400)) (e + -46)
                loc_Exact 9 ltac:(lia) ltac:(lia) ltac:(lia) ltac:(lia)) as Hb.
  destruct (binary_round_aux prec emax false _ _ _); try done; simpl; eauto.
Qed.

(** [int(((index + 1) / total_steps) * 100)] never raises while the index
    is within the list. *)
Lemma progress_percent_defined (completed total_steps : nat) :
  (1 ≤ completed ≤ total_steps)%nat →
  ∃ p, progress_percent completed total_steps = inr p.
Proof.
  intros Hk. unfold progress_percent, py_truediv.
  destruct (Z.of_nat total_steps) as [|n|n] eqn:Hn; [lia | | lia].
  destruct (Z.of_nat completed) as [|k|k] eqn:Hc; [lia | | lia].
  change (Z.abs (Z.pos k)) with (Z.pos k). change (Z.abs (Z.pos n)) with (Z.pos n).
  change (xorb (Z.pos k <? 0) (Z.pos n <? 0)) with false.
  destruct (SFdiv_core_binary prec emax (Z.pos k) 0 (Z.pos n) 0) as [[q e] l] eqn:Hdiv.
  destruct (div_core_bound (Z.pos k) (Z.pos n) q e l ltac:(lia) Hdiv) as (Hq & Hd & He).
  pose proof (binary_round_aux_bound false q e l 1 Hq Hd ltac:(lia) ltac:(lia)) as Hb.
  destruct (binary_round_aux prec emax false q e l) as [sz | | | sx m ex] eqn:Hr;
    try done.
  - exists 0. by destruct sz.
  - assert (sx = false) as ->.
    { unfold binary_round_aux in Hr.
      destruct (shr_fexp prec emax q e l) as [r1 e1].
      destruct (shr_fexp prec emax _ e1 loc_Exact) as [r2 e2].
      destruct (shr_m r2); [done | | done].
      destruct (e2 <=? emax - prec); congruence. }
    apply py_int_times_100. lia.
Qed.

End PercentDefined.

(** ** The progress events of a run *)

Lemma executed_length w index steps :
  (length (executed w index steps) ≤ length steps)%nat.
Proof.
  revert index. induction steps as [|step steps IH]; intros index; [done |].
  cbn [executed length].
  destruct (step_passes w index (step_cmd step)); [specialize (IH (S index)) |];
    simpl; lia.
Qed.

(** One percentage for each step that returned, in the order of the
    steps. *)
Lemma progress_values_executed w build_id total index steps :
  (index + length steps ≤ total)%nat →
  inr <$> progress_values (steps_events w build_id total index (executed w index steps))
  = (λ i, progress_percent (S i) total) <$> seq index (returned w index steps).
Proof.
  revert index. induction steps as [|step steps IH]; intros index Hle; [done |].
  cbn [executed steps_events returned length] in *.
  rewrite progress_values_app, fmap_app, progress_values_step. unfold step_passes.
  destruct (step_error w index (step_cmd step)); [done |].
  destruct (progress_percent_defined (S index) total ltac:(lia)) as [p Hp].
  unfold progress_events. rewrite Hp. cbn [seq fmap list_fmap progress_values omap app].
  rewrite Hp. f_equal.
  destruct (step_rc w index (step_cmd step) =? 0); [| done].
  apply IH. lia.
Qed.

(** C4 (progress), as the code has it.  On a storage that works, each
    step that returns is followed by exactly one [build_progress] event:
    the events of step [i] are its [build_step_start], its log events and
    one [build_progress] whose value is [int(((i + 1) / total_steps) * 100)],
    the float product truncated towards zero, with
    [total_steps = max(1, number of steps)]; a step that does not return,
    because its output cannot be read, has no [build_progress].  So the
    run publishes as many [build_progress] events as steps returned, in
    the order of the steps. *)
Theorem progress_after_each_step w build_id cfg steps b0 s :
  Reliable w →
  builds s !! build_id = Some b0 →
  config_steps w cfg steps →
  forallb is_dict (executed w 0 steps) = true →
  ∃ s' evs,
    run_build_thread w build_id cfg s = (Ok tt, s') ∧
    published s' = published s ++ evs ∧
    evs = [build_status_update build_id "running"]
          ++ steps_events w build_id (total_steps_of steps) 0 (executed w 0 steps)
          ++ [build_finished build_id (outcome w steps) (run_message w steps)] ∧
    total_steps_of steps = Nat.max 1 (length steps) ∧
    (∀ i step, executed w 0 steps !! i = Some step →
       match step_error w i (step_cmd step) with
       | None =>
           ∃ p, progress_percent (S i) (total_steps_of steps) = inr p ∧
                step_events w build_id (total_steps_of steps) i step
                = build_step_start build_id i (step_cmd step)
                  :: (build_log build_id i
                        <$> every_fifth (step_texts w i (step_cmd step)))
                  ++ [build_progress build_id p]
       | Some _ =>
           step_events w build_id (total_steps_of steps) i step
           = build_step_start build_id i (step_cmd step)
             :: (build_log build_id i <$> every_fifth (step_texts w i (step_cmd step)))
       end) ∧
    inr <$> progress_values evs
    = (λ i, progress_percent (S i) (total_steps_of steps))
        <$> seq 0 (returned w 0 steps).
Proof.
  intros Hrel Hb Hcfg Hdict.
  destruct (run_build_thread_reliable w build_id cfg steps b0 s Hrel Hb Hcfg Hdict)
    as (s' & t & Hrun & _ & _ & _ & Hp).
  pose proof (executed_length w 0 steps) as Hlen.
  pose proof (total_steps_of_max steps) as Htot.
  eexists s', _. split; [exact Hrun |]. split; [exact Hp |].
  split; [reflexivity |]. split; [exact Htot |]. split.
  - intros i step Hi. apply lookup_lt_Some in Hi. unfold step_events.
    destruct (step_error w i (step_cmd step)); [by rewrite app_nil_r |].
    destruct (progress_percent_defined (S i) (total_steps_of steps) ltac:(lia))
      as [p Hpp].
    exists p. split; [exact Hpp |]. unfold progress_events. by rewrite Hpp.
  - rewrite !progress_values_app. cbn [progress_values omap app].
    rewrite app_nil_r. apply progress_values_executed. lia.
Qed.

Lemma progress_after_each_step_witness :
  ∃ s' evs,
    run_build_thread demo_world 1 (Some three_echoes) demo_state = (Ok tt, s') ∧
    published s' = published demo_state ++ evs ∧
    evs = [build_status_update 1 "running"]
          ++ steps_events demo_world 1 3 0
               [cmd_step "echo A"; cmd_step "echo B"; cmd_step "echo C"]
          ++ [build_finished 1 "success" None] ∧
    3%nat = Nat.max 1 3 ∧
    (∀ i step,
       [cmd_step "echo A"; cmd_step "echo B"; cmd_step "echo C"] !! i = Some step →
       match step_error demo_world i (step_cmd step) with
       | None =>
           ∃ p, progress_percent (S i) 3 = inr p ∧
                step_events demo_world 1 3 i step
                = build_step_start 1 i (step_cmd step)
                  :: (build_log 1 i
                        <$> every_fifth (step_texts demo_world i (step_cmd step)))
                  ++ [build_progress 1 p]
       | Some _ =>
           step_events demo_world 1 3 i step
           = build_step_start 1 i (step_cmd step)
             :: (build_log 1 i <$> every_fifth (step_texts demo_world i (step_cmd step)))
       end) ∧
    inr <$> progress_values evs = (λ i, progress_percent (S i) 3) <$> seq 0 3.
Proof.
  apply (progress_after_each_step demo_world 1 (Some three_echoes)
           [cmd_step "echo A"; cmd_step "echo B"; cmd_step "echo C"]
           (new_build 1 1700000000) demo_state).
  - exact demo_reliable.
  - reflexivity.
  - eexists. split; reflexivity.
  - reflexivity.
Defined.

(** C4 as stated fails: after the second of three steps the executor
    publishes 66, the truncation of [66.66..], where rounding gives 67. *)
Lemma progress_round_counterexample :
  progress_values
    (published (run_build_thread demo_world 1 (Some three_echoes) demo_state).2)
    = [33; 66; 100] ∧
  progress_percent 2 3 = inr 66 ∧
  progress_round 2 3 = inr 67.
Proof. repeat split; vm_compute; reflexivity. Qed.

(** * Further properties of the executor *)

(** ** The transport cannot change a run *)

Lemma bind_ext {A B} (m m' : M A) (k k' : A → M B) s :
  (∀ s0, m s0 = m' s0) → (∀ a s0, k a s0 = k' a s0) → bind m k s = bind m' k' s.
Proof. intros Hm Hk. unfold bind. rewrite Hm. destruct (m' s) as [[a | e] s1]; auto. Qed.

Section Transport.
Context (w : World) (fails : nat → option exn).

Lemma publish_with_emit ev s : publish (with_emit w fails) ev s = publish w ev s.
Proof.
  unfold publish, try_except, socketio_emit. simpl.
  by destruct (fails _), (emit_raises w _).
Qed.

Lemma publish_progress_with_emit build_id completed total s :
  publish_progress (with_emit w fails) build_id completed total s
  = publish_progress w build_id completed total s.
Proof.
  unfold publish_progress, try_except, bind, lift, socketio_emit.
  destruct (progress_percent completed total); simpl; [done |].
  by destruct (fails _), (emit_raises w _).
Qed.

Lemma stream_loop_with_emit build_id step_index lines buffer cd s :
  stream_loop (with_emit w fails) build_id step_index lines buffer cd s
  = stream_loop w build_id step_index lines buffer cd s.
Proof.
  revert buffer cd s.
  induction lines as [|[e | line] rest IH]; intros buffer cd s; [done | done |].
  cbn [stream_loop]. destruct (String.eqb line ""); [done |].
  apply bind_ext; [done | intros _ s1].
  apply bind_ext; [done | intros buffer' s2].
  apply bind_ext; [| intros cd' s3; apply IH].
  intros s3. destruct (5 <=? S cd)%nat; [| done].
  apply bind_ext; [apply publish_with_emit | done].
Qed.

Lemma run_command_and_stream_with_emit build_id step_index cmd s :
  run_command_and_stream (with_emit w fails) build_id step_index cmd s
  = run_command_and_stream w build_id step_index cmd s.
Proof.
  unfold run_command_and_stream. destruct (negb (truthy cmd)); [done |].
  change (popen (with_emit w fails)) with (popen w).
  change (shell_cmd (with_emit w fails)) with (shell_cmd w).
  destruct (popen w step_index (shell_cmd w cmd)); [done |].
  apply bind_ext; [apply stream_loop_with_emit | done].
Qed.

Lemma for_steps_with_emit build_id total index steps s :
  for_steps (with_emit w fails) build_id total index steps s
  = for_steps w build_id total index steps s.
Proof.
  revert index s. induction steps as [|step rest IH]; intros index s; [done |].
  cbn [for_steps]. apply bind_ext; [done | intros cmd s1].
  apply bind_ext; [apply publish_with_emit | intros _ s2].
  apply bind_ext; [apply run_command_and_stream_with_emit | intros rc s3].
  apply bind_ext; [apply publish_progress_with_emit | intros _ s4].
  destruct (rc =? 0); [apply IH |].
  apply bind_ext; [done | intros _ s5].
  apply bind_ext; [apply publish_with_emit | done].
Qed.

(** X7.  Every emit of the runner sits in its own [try]: whether the transport
    delivers or fails, and on which emits, the run returns the same
    result, makes the same emit calls and leaves the same storage. *)
Theorem transport_failures_do_not_matter build_id cfg s :
  run_build_thread (with_emit w fails) build_id cfg s = run_build_thread w build_id cfg s.
Proof.
  unfold run_build_thread. apply bind_ext; [done | intros build s1].
  destruct build as [b |]; [| done].
  apply bind_ext; [done | intros _ s2].
  apply bind_ext; [apply publish_with_emit | intros _ s3].
  unfold try_except.
  assert (∀ s0, run_steps (with_emit w fails) build_id cfg s0 = run_steps w build_id cfg s0)
    as ->.
  { intros s0. unfold run_steps. apply bind_ext; [done | intros config s4].
    apply bind_ext; [done | intros steps s5]. apply bind_ext; [done | intros n s6].
    apply bind_ext; [done | intros items s7].
    apply bind_ext; [apply for_steps_with_emit | intros fl s8].
    destruct fl; [| done].
    apply bind_ext; [done | intros _ s9]. apply publish_with_emit. }
  destruct (run_steps w build_id cfg s3) as [[[] | e] s4]; [done |].
  unfold on_error. apply bind_ext; [done | intros build s5].
  apply bind_ext; [done | intros _ s6]. apply publish_with_emit.
Qed.

End Transport.

(** ** The shape of a run, in every world *)

Section Shape.
Context (w : World) (build_id : Z).

Lemma silent_refl s : silent s s.
Proof. split; [done |]. exists []. by rewrite app_nil_r. Qed.

Lemma silent_trans s1 s2 s3 : silent s1 s2 → silent s2 s3 → silent s1 s3.
Proof.
  intros [Hc1 (e1 & Hp1 & Hf1)] [Hc2 (e2 & Hp2 & Hf2)]. split; [congruence |].
  exists (e1 ++ e2). split; [by rewrite Hp2, Hp1, app_assoc |].
  by rewrite finished_events_app, Hf1, Hf2.
Qed.

Lemma silent_same s s' :
  commits s' = commits s → published s' = published s → silent s s'.
Proof. intros Hc Hp. split; [done |]. exists []. by rewrite app_nil_r. Qed.

Lemma quiet_ret {A} (a : A) : preserves silent (ret a).
Proof. intros s. apply silent_refl. Qed.

Lemma quiet_raise {A} e : preserves silent (raise (A := A) e).
Proof. intros s. apply silent_refl. Qed.

Lemma quiet_lift {A} (r : exn + A) : preserves silent (lift r).
Proof. destruct r; intros s; apply silent_refl. Qed.

Lemma quiet_bind {A B} (m : M A) (k : A → M B) :
  preserves silent m → (∀ a, preserves silent (k a)) → preserves silent (bind m k).
Proof.
  intros Hm Hk s. unfold bind. specialize (Hm s).
  destruct (m s) as [[a | e] s1]; [| exact Hm].
  eapply silent_trans; [exact Hm | apply Hk].
Qed.

Lemma quiet_print line : preserves silent (print line).
Proof. intros s. by apply silent_same. Qed.

Lemma quiet_db_get : preserves silent (db_get w build_id).
Proof. intros s. unfold db_get. destruct (db_fault w _); by apply silent_same. Qed.

Lemma quiet_db_commit_logs rows : preserves silent (db_commit_logs w rows).
Proof. intros s. unfold db_commit_logs. destruct (db_fault w _); by apply silent_same. Qed.

Lemma quiet_publish ev :
  finished_events [ev] = [] → preserves silent (publish w ev).
Proof.
  intros Hev s. destruct (publish_ok w ev s) as (s' & -> & [_ Hc _ Hp] & _).
  split; [done |]. by exists [ev].
Qed.

Lemma quiet_publish_progress completed total :
  preserves silent (publish_progress w build_id completed total).
Proof.
  intros s. destruct (publish_progress_ok w build_id completed total s)
    as (s' & -> & [_ Hc _ Hp] & _).
  split; [done |]. eexists. split; [exact Hp |]. apply finished_events_progress.
Qed.

Lemma quiet_stream_loop step_index lines buffer cd :
  preserves silent (stream_loop w build_id step_index lines buffer cd).
Proof.
  revert buffer cd. induction lines as [|[e | line] rest IH]; intros buffer cd;
    cbn [stream_loop]; [apply quiet_ret | apply quiet_raise |].
  destruct (String.eqb line ""); [apply quiet_ret |].
  apply quiet_bind; [apply quiet_print | intros _].
  apply quiet_bind; [| intros buffer'].
  { destruct (15 <=? _)%nat; [| apply quiet_ret].
    apply quiet_bind; [apply quiet_db_commit_logs | intros _; apply quiet_ret]. }
  apply quiet_bind; [| intros cd'; apply IH].
  destruct (5 <=? _)%nat; [| apply quiet_ret].
  apply quiet_bind; [by apply quiet_publish | intros _; apply quiet_ret].
Qed.

Lemma quiet_run_command_and_stream step_index cmd :
  preserves silent (run_command_and_stream w build_id step_index cmd).
Proof.
  unfold run_command_and_stream. destruct (negb (truthy cmd)); [apply quiet_ret |].
  destruct (popen w step_index (shell_cmd w cmd)).
  { apply quiet_bind; [apply quiet_print | intros _; apply quiet_ret]. }
  apply quiet_bind; [apply quiet_stream_loop | intros buffer].
  apply quiet_bind; [destruct buffer; [apply quiet_ret | apply quiet_db_commit_logs] |].
  intros _. apply quiet_bind; [apply quiet_print | intros _; apply quiet_ret].
Qed.

(** The block that ends a build writes one terminal row or, when it
    raises, nothing; it publishes nothing. *)
Lemma finish_build_shape st s :
  match finish_build w build_id st s with
  | (Ok _, s') =>
      (∃ b t, commits s' = commits s ++ [(build_id, set_finished st t b)]) ∧
      published s' = published s
  | (Raise _, s') => commits s' = commits s ∧ published s' = published s
  end.
Proof.
  unfold finish_build, bind, db_get, require_build, now, db_commit_build, ret, raise.
  destruct (db_fault w (db_clock s)); [done |].
  destruct (builds_at w (db_clock s) build_id (builds s) !! build_id) as [b |]; [| done].
  cbn [db_clock builds commits published].
  destruct (db_fault w (S (db_clock s))); [done |].
  destruct (builds_at w (S (db_clock s)) build_id _ !! build_id); [| done].
  split; [by eexists _, _ | done].
Qed.

Lemma for_steps_shape total index steps s :
  match for_steps w build_id total index steps s with
  | (Ok Completed, s') => silent s s'
  | (Ok Returned, s') =>
      ∃ s1 b t, silent s s1 ∧
        commits s' = commits s1 ++ [(build_id, set_finished "failed" t b)] ∧
        published s' = published s1 ++ [build_finished build_id "failed" None]
  | (Raise _, s') => silent s s'
  end.
Proof.
  revert index s. induction steps as [|step rest IH]; intros index s;
    cbn [for_steps]; [apply silent_refl |].
  unfold bind at 1. destruct (lift (py_get step "cmd" JNull) s) as [[cmd | e] s0] eqn:H0.
  2:{ pose proof (quiet_lift (py_get step "cmd" JNull) s) as H. by rewrite H0 in H. }
  assert (silent s s0) as Hs0
    by (pose proof (quiet_lift (py_get step "cmd" JNull) s) as H; by rewrite H0 in H).
  unfold bind at 1.
  pose proof (quiet_publish (build_step_start build_id index cmd) eq_refl s0) as H1.
  destruct (publish w (build_step_start build_id index cmd) s0) as [[[] | e] s1];
    simpl in H1; [| by eapply silent_trans].
  unfold bind at 1.
  pose proof (quiet_run_command_and_stream index cmd s1) as H2.
  destruct (run_command_and_stream w build_id index cmd s1) as [[rc | e] s2];
    simpl in H2; [| eapply silent_trans; [| exact H2]; by eapply silent_trans].
  unfold bind at 1.
  pose proof (quiet_publish_progress (S index) total s2) as H3.
  destruct (publish_progress w build_id (S index) total s2) as [[[] | e] s3];
    simpl in H3;
    [| eapply silent_trans; [| exact H3]; eapply silent_trans; [| exact H2];
       by eapply silent_trans].
  assert (silent s s3) as Hs3.
  { eapply silent_trans; [| exact H3]. eapply silent_trans; [| exact H2].
    by eapply silent_trans. }
  destruct (rc =? 0).
  - specialize (IH (S index) s3).
    destruct (for_steps w build_id total (S index) rest s3) as [[[|] | e] s'].
    + by eapply silent_trans.
    + destruct IH as (s4 & b & t & Hs4 & Hc & Hp). exists s4, b, t.
      split; [by eapply silent_trans | done].
    + by eapply silent_trans.
  - unfold bind at 1. pose proof (finish_build_shape "failed" s3) as H4.
    destruct (finish_build w build_id "failed" s3) as [[[] | e] s4].
    + destruct H4 as [(b & t & Hc4) Hp4]. unfold bind.
      destruct (publish_ok w (build_finished build_id "failed" None) s4)
        as (s5 & -> & [_ Hc5 _ Hp5] & _).
      cbn [ret]. exists s3, b, t. split; [exact Hs3 |]. split; congruence.
    + destruct H4 as [Hc4 Hp4]. eapply silent_trans; [exact Hs3 |].
      by apply silent_same.
Qed.

(** The body of the outer [try]: when it returns, it has written one
    terminal row and published the [build_finished] of the same status as
    its last event; when it raises, it has written and announced nothing. *)
Lemma run_steps_shape cfg s :
  match run_steps w build_id cfg s with
  | (Ok _, s') =>
      ∃ s1 st b t, silent s s1 ∧ terminal st ∧
        commits s' = commits s1 ++ [(build_id, set_finished st t b)] ∧
        published s' = published s1 ++ [build_finished build_id st None]
  | (Raise _, s') => silent s s'
  end.
Proof.
  unfold run_steps.
  unfold bind at 1. destruct (lift (json_loads w (config_text cfg)) s)
    as [[config | e] s1] eqn:H1;
    pose proof (quiet_lift (json_loads w (config_text cfg)) s) as Q1;
    rewrite H1 in Q1; simpl in Q1; [| done].
  unfold bind at 1. destruct (lift (py_get config "steps" (JArr [])) s1)
    as [[steps | e] s2] eqn:H2;
    pose proof (quiet_lift (py_get config "steps" (JArr [])) s1) as Q2;
    rewrite H2 in Q2; simpl in Q2; [| by eapply silent_trans].
  unfold bind at 1. destruct (lift (py_len steps) s2) as [[n | e] s3] eqn:H3;
    pose proof (quiet_lift (py_len steps) s2) as Q3;
    rewrite H3 in Q3; simpl in Q3;
    [| eapply silent_trans; [| exact Q3]; by eapply silent_trans].
  unfold bind at 1. destruct (lift (py_iter steps) s3) as [[items | e] s4] eqn:H4;
    pose proof (quiet_lift (py_iter steps) s3) as Q4;
    rewrite H4 in Q4; simpl in Q4;
    [| eapply silent_trans; [| exact Q4]; eapply silent_trans; [| exact Q3];
       by eapply silent_trans].
  assert (silent s s4) as Hs4.
  { eapply silent_trans; [| exact Q4]. eapply silent_trans; [| exact Q3].
    by eapply silent_trans. }
  unfold bind at 1.
  pose proof (for_steps_shape (if Nat.eqb n 0 then 1%nat else n) 0 items s4) as H5.
  destruct (for_steps w build_id _ 0 items s4) as [[[|] | e] s5].
  - unfold bind at 1. pose proof (finish_build_shape "success" s5) as H6.
    destruct (finish_build w build_id "success" s5) as [[[] | e] s6].
    + destruct H6 as [(b & t & Hc6) Hp6].
      destruct (publish_ok w (build_finished build_id "success" None) s6)
        as (s7 & -> & [_ Hc7 _ Hp7] & _).
      exists s5, "success", b, t. split; [by eapply silent_trans |].
      split; [by left |]. split; congruence.
    + destruct H6 as [Hc6 Hp6]. eapply silent_trans; [exact Hs4 |].
      eapply silent_trans; [exact H5 | by apply silent_same].
  - destruct H5 as (s1' & b & t & Hs & Hc & Hp). exists s1', "failed", b, t.
    split; [by eapply silent_trans |]. split; [by right | done].
  - by eapply silent_trans.
Qed.

(** The handler: it publishes its [build_finished] after at most one
    write of status [failed]; when it raises, it has done neither. *)
Lemma on_error_shape e s :
  match on_error w build_id e s with
  | (Ok _, s') =>
      (commits s' = commits s ∨
       ∃ b t, commits s' = commits s ++ [(build_id, set_finished "failed" t b)]) ∧
      published s' = published s
        ++ [build_finished build_id "failed" (Some (exn_msg e))]
  | (Raise _, s') => commits s' = commits s ∧ published s' = published s
  end.
Proof.
  unfold on_error. unfold bind at 1. unfold db_get.
  destruct (db_fault w (db_clock s)); [done |].
  destruct (builds_at w (db_clock s) build_id (builds s) !! build_id) as [b |].
  - unfold bind at 1. unfold bind at 1. unfold now at 1. unfold db_commit_build.
    cbn [db_clock builds commits published build_logs stdout].
    destruct (db_fault w (S (db_clock s))); [done |].
    destruct (builds_at w (S (db_clock s)) build_id _ !! build_id); [| done].
    match goal with |- context [publish w ?ev ?s0] =>
      destruct (publish_ok w ev s0) as (s' & -> & [_ Hc _ Hp] & _) end.
    simpl in *. split; [right; by eexists _, _ | done].
  - unfold bind at 1. unfold ret at 1.
    match goal with |- context [publish w ?ev ?s0] =>
      destruct (publish_ok w ev s0) as (s' & -> & [_ Hc _ Hp] & _) end.
    simpl in *. split; [by left | done].
Qed.

End Shape.

(** The four ways a run can end, in every world: nothing written and
    nothing published; the row marked running and then an exception out of
    the handler; the row marked running and the handler's announcement
    without a write; the row marked running, one terminal write and the
    announcement of the same status. *)
Lemma run_build_thread_shape w build_id cfg s :
  ∃ nc ne,
    commits (run_build_thread w build_id cfg s).2 = commits s ++ nc ∧
    published (run_build_thread w build_id cfg s).2 = published s ++ ne ∧
    ((nc = [] ∧ ne = []) ∨
     (∃ b e, nc = [(build_id, set_status "running" b)] ∧ finished_events ne = [] ∧
             (run_build_thread w build_id cfg s).1 = Raise e) ∨
     (∃ b ne0 err, nc = [(build_id, set_status "running" b)] ∧
             ne = ne0 ++ [build_finished build_id "failed" err] ∧
             finished_events ne0 = [] ∧
             (run_build_thread w build_id cfg s).1 = Ok tt) ∨
     (∃ b b' st t ne0 err,
             nc = [(build_id, set_status "running" b);
                   (build_id, set_finished st t b')] ∧ terminal st ∧
             ne = ne0 ++ [build_finished build_id st err] ∧
             finished_events ne0 = [] ∧
             (run_build_thread w build_id cfg s).1 = Ok tt)).
Proof.
  destruct (db_get w build_id s) as [[[b |] | e] s1] eqn:Hget.
  3:{ assert (run_build_thread w build_id cfg s = (Raise e, s1)) as ->
        by (unfold run_build_thread; by rewrite (bind_raise _ _ _ _ _ Hget)).
      exists [], []. rewrite !app_nil_r. unfold db_get in Hget.
      destruct (db_fault w _); [| done]. injection Hget as _ <-. split; [done |].
      split; [done |]. by left. }
  2:{ assert (run_build_thread w build_id cfg s
              = print ("[Build " +:+ pretty build_id +:+ "] Not found in DB") s1) as ->
        by (unfold run_build_thread; by rewrite (bind_ok _ _ _ _ _ Hget)).
      exists [], []. rewrite !app_nil_r. unfold db_get in Hget.
      destruct (db_fault w _); [done |]. injection Hget as _ <-. split; [done |].
      split; [done |]. by left. }
  assert (commits s1 = commits s ∧ published s1 = published s) as [Hc1 Hp1].
  { unfold db_get in Hget. destruct (db_fault w _); [done |]. by injection Hget as _ <-. }
  destruct (db_commit_build w build_id (set_status "running" b) s1)
    as [[[] | e] s2] eqn:Hcm.
  2:{ assert (run_build_thread w build_id cfg s = (Raise e, s2)) as ->
        by (unfold run_build_thread;
            by rewrite (bind_ok _ _ _ _ _ Hget), (bind_raise _ _ _ _ _ Hcm)).
      exists [], []. rewrite !app_nil_r. unfold db_commit_build in Hcm.
      destruct (db_fault w _); [injection Hcm as _ <-; eauto |].
      destruct (_ !! build_id); [done |]. injection Hcm as _ <-. eauto. }
  assert (commits s2 = commits s ++ [(build_id, set_status "running" b)] ∧
          published s2 = published s) as [Hc2 Hp2].
  { unfold db_commit_build in Hcm. destruct (db_fault w _); [done |].
    destruct (_ !! build_id); [| done]. injection Hcm as <-. simpl. split; congruence. }
  destruct (publish_ok w (build_status_update build_id "running") s2)
    as (s3 & Hpub & [_ Hc3 _ Hp3] & _).
  assert (run_build_thread w build_id cfg s
          = try_except (run_steps w build_id cfg) (on_error w build_id) s3) as ->
    by (unfold run_build_thread;
        by rewrite (bind_ok _ _ _ _ _ Hget), (bind_ok _ _ _ _ _ Hcm),
                   (bind_ok _ _ _ _ _ Hpub)).
  unfold try_except. pose proof (run_steps_shape w build_id cfg s3) as Hbody.
  destruct (run_steps w build_id cfg s3) as [[[] | e] s4].
  - destruct Hbody as (s5 & st & b' & t & [Hc5 (e5 & Hp5 & Hq5)] & Hst & Hc4 & Hp4).
    exists [(build_id, set_status "running" b); (build_id, set_finished st t b')],
      (([build_status_update build_id "running"] ++ e5)
         ++ [build_finished build_id st None]).
    split; [simpl; rewrite Hc4, Hc5, Hc3, Hc2, <- app_assoc; done |].
    split; [simpl; rewrite Hp4, Hp5, Hp3, Hp2, <- !app_assoc; done |].
    do 3 right. eexists _, _, _, _, _, _. split; [done |]. split; [done |].
    split; [done |]. split; [by rewrite finished_events_app, Hq5 | done].
  - destruct Hbody as [Hc4 (e4 & Hp4 & Hq4)].
    pose proof (on_error_shape w build_id e s4) as Hh.
    destruct (on_error w build_id e s4) as [[[] | e'] s5].
    + destruct Hh as [[Hc5 | (b' & t & Hc5)] Hp5].
      * exists [(build_id, set_status "running" b)],
          (([build_status_update build_id "running"] ++ e4)
             ++ [build_finished build_id "failed" (Some (exn_msg e))]).
        split; [simpl; congruence |].
        split; [simpl; rewrite Hp5, Hp4, Hp3, Hp2, <- !app_assoc; done |].
        right. right. left. eexists _, _, _. split; [done |]. split; [done |].
        split; [by rewrite finished_events_app, Hq4 | done].
      * exists [(build_id, set_status "running" b);
                (build_id, set_finished "failed" t b')],
          (([build_status_update build_id "running"] ++ e4)
             ++ [build_finished build_id "failed" (Some (exn_msg e))]).
        split; [simpl; rewrite Hc5, Hc4, Hc3, Hc2, <- app_assoc; done |].
        split; [simpl; rewrite Hp5, Hp4, Hp3, Hp2, <- !app_assoc; done |].
        do 3 right. eexists _, _, _, _, _, _. split; [done |]. split; [by right |].
        split; [done |]. split; [by rewrite finished_events_app, Hq4 | done].
    + destruct Hh as [Hc5 Hp5].
      exists [(build_id, set_status "running" b)],
        ([build_status_update build_id "running"] ++ e4).
      split; [simpl; congruence |].
      split; [simpl; rewrite Hp5, Hp4, Hp3, Hp2, <- !app_assoc; done |].
      right. left. eexists _, _. split; [done |].
      split; [by rewrite finished_events_app, Hq4 | done].
Qed.

(** X1.  In every world, whatever fails, the rows a run writes to table
    [Build] are rows of its own build and set, in this order, at most
    [running] and then at most one of [success] and [failed]: the status
    never goes back, and nothing is written after a terminal status. *)
Theorem status_writes_form_a_chain w build_id cfg s :
  ∃ nc,
    commits (run_build_thread w build_id cfg s).2 = commits s ++ nc ∧
    Forall (λ ib, ib.1 = build_id) nc ∧
    (statuses nc = [] ∨ statuses nc = ["running"] ∨
     statuses nc = ["running"; "success"] ∨ statuses nc = ["running"; "failed"]).
Proof.
  destruct (run_build_thread_shape w build_id cfg s) as (nc & ne & Hc & _ & Hcases).
  exists nc. split; [exact Hc |].
  destruct Hcases as [[-> _] | [(b & e & -> & _) | [(b & ne0 & err & -> & _)
    | (b & b' & st & t & ne0 & err & -> & Hst & _)]]].
  - split; [constructor | by left].
  - split; [by repeat constructor | right; by left].
  - split; [by repeat constructor | right; by left].
  - split; [by repeat constructor |].
    destruct Hst as [-> | ->]; [right; right; by left | by do 3 right].
Qed.

(** X2.  In every world a run publishes at most one [build_finished];
    if it publishes one, that is its last emit and the run returns
    normally; and when the run has written a terminal status, the
    [build_finished] carries that status. *)
Theorem build_finished_once_and_last w build_id cfg s :
  ∃ nc ne,
    commits (run_build_thread w build_id cfg s).2 = commits s ++ nc ∧
    published (run_build_thread w build_id cfg s).2 = published s ++ ne ∧
    (finished_events ne = [] ∨
     ∃ ne0 st err,
       ne = ne0 ++ [build_finished build_id st err] ∧ finished_events ne0 = [] ∧
       (run_build_thread w build_id cfg s).1 = Ok tt) ∧
    (∀ b, last nc = Some (build_id, b) → terminal (status b) →
          ∃ ne0 err, ne = ne0 ++ [build_finished build_id (status b) err]).
Proof.
  destruct (run_build_thread_shape w build_id cfg s) as (nc & ne & Hc & Hp & Hcases).
  exists nc, ne. split; [exact Hc |]. split; [exact Hp |].
  destruct Hcases as [[-> ->] | [(b & e & -> & Hq & _) | [(b & ne0 & err & -> & -> & Hq & Hr)
    | (b & b' & st & t & ne0 & err & -> & Hst & -> & Hq & Hr)]]].
  - split; [by left | intros b [=]].
  - split; [by left |]. intros b' [= <-] [H | H]; discriminate H.
  - split; [right; by eexists _, _, _ |]. intros b' [= <-] [H | H]; discriminate H.
  - split; [right; by eexists _, _, _ |]. intros b'' [= <-] _. simpl. by eexists _, _.
Qed.

(** ** Configurations without steps, and configurations that are wrong *)

(** X3.  On a storage that works, a configuration without a ["steps"] key
    or with an empty list of steps (as is the missing or empty text, read
    as [{}]) makes the build succeed at once: the only events are the
    status update and [build_finished] with status [success]; no
    [build_progress] is published and no log row is stored. *)
Theorem no_steps_is_success w build_id cfg fields b0 s :
  Reliable w →
  builds s !! build_id = Some b0 →
  json_loads w (config_text cfg) = inr (JObj fields) →
  assoc "steps" fields = None ∨ assoc "steps" fields = Some (JArr []) →
  ∃ s' t,
    run_build_thread w build_id cfg s = (Ok tt, s') ∧
    builds s' !! build_id
      = Some (set_finished "success" t (set_status "running" b0)) ∧
    build_logs s' = build_logs s ∧
    published s' = published s
      ++ [build_status_update build_id "running";
          build_finished build_id "success" None].
Proof.
  intros Hrel Hb Hload Hsteps.
  assert (config_steps w cfg []) as Hcfg.
  { exists (JObj fields). split; [exact Hload |]. simpl. by destruct Hsteps as [-> | ->]. }
  destruct (run_build_thread_reliable w build_id cfg [] b0 s Hrel Hb Hcfg eq_refl)
    as (s' & t & Hrun & Hb' & _ & Hl & Hp).
  exists s', t. split; [exact Hrun |].
  split; [by rewrite Hb', lookup_insert_eq |].
  split; [by rewrite Hl, app_nil_r | exact Hp].
Qed.

Lemma no_steps_is_success_witness :
  ∃ s' t,
    run_build_thread demo_world 1 None demo_state = (Ok tt, s') ∧
    builds s' !! 1
      = Some (set_finished "success" t (set_status "running" (new_build 1 1700000000))) ∧
    build_logs s' = build_logs demo_state ∧
    published s' = published demo_state
      ++ [build_status_update 1 "running"; build_finished 1 "success" None].
Proof.
  apply (no_steps_is_success demo_world 1 None [] (new_build 1 1700000000) demo_state).
  - exact demo_reliable.
  - reflexivity.
  - reflexivity.
  - left. reflexivity.
Defined.

(** What the handler makes of an exception of the [try] block when the
    storage works. *)
Lemma run_build_thread_fault w build_id cfg b0 s e rows evs :
  Reliable w →
  builds s !! build_id = Some b0 →
  (∀ s3, ∃ s4, run_steps w build_id cfg s3 = (Raise e, s4) ∧ appends s3 s4 rows evs) →
  ∃ s' t,
    run_build_thread w build_id cfg s = (Ok tt, s') ∧
    builds s' !! build_id
      = Some (set_finished "failed" t (set_status "running" b0)) ∧
    build_logs s' = build_logs s ++ rows ∧
    published s' = published s
      ++ [build_status_update build_id "running"]
      ++ evs
      ++ [build_finished build_id "failed" (Some (exn_msg e))].
Proof.
  intros Hrel Hb Hbody. unfold run_build_thread.
  destruct (db_get_reliable w Hrel build_id s) as (s1 & Hget & [Hb1 Hc1 Hl1 Hp1] & _).
  rewrite (bind_ok _ _ _ _ _ Hget), Hb. clear Hget.
  rewrite app_nil_r in Hl1, Hp1.
  destruct (db_commit_build_reliable w Hrel build_id (set_status "running" b0) b0 s1)
    as (s2 & Hcm & Hb2 & Hc2 & Hl2 & Hp2 & _); [by rewrite Hb1 |].
  rewrite (bind_ok _ _ _ _ _ Hcm). clear Hcm.
  destruct (publish_ok w (build_status_update build_id "running") s2)
    as (s3 & Hpub & [Hb3 Hc3 Hl3 Hp3] & _).
  rewrite (bind_ok _ _ _ _ _ Hpub). clear Hpub. rewrite app_nil_r in Hl3.
  destruct (Hbody s3) as (s4 & Hrun & [Hb4 Hc4 Hl4 Hp4]).
  rewrite (try_raise _ _ _ _ _ Hrun).
  destruct Hrel as [Hf Hv].
  destruct (on_error_found w build_id e (set_status "running" b0) s4)
    as (s' & Hh & Hb' & _ & Hp' & Hl'); [apply Hf | | apply Hf | apply Hv |].
  { unfold builds_at. by rewrite Hv, Hb4, Hb3, Hb2, lookup_insert_eq. }
  exists s', (utcnow w (S (db_clock s4))). split; [exact Hh |].
  split; [exact Hb' |]. split; [congruence |].
  rewrite Hp', Hp4, Hp3, Hp2, Hp1. by rewrite <- !app_assoc.
Qed.

(** X4.  On a storage that works, a configuration that cannot be used (a
    text [json.loads] rejects, a value that is no dict, a ["steps"] that
    has no length, like a number or [null]) fails the build before any
    step starts: the only events are the status update and
    [build_finished] with status [failed] and the message of the
    exception; the row ends [failed] with [finished_at] set. *)
Theorem unusable_configuration_fails_the_build w build_id cfg b0 s e :
  Reliable w →
  builds s !! build_id = Some b0 →
  config_error w cfg = Some e →
  ∃ s' t,
    run_build_thread w build_id cfg s = (Ok tt, s') ∧
    builds s' !! build_id
      = Some (set_finished "failed" t (set_status "running" b0)) ∧
    build_logs s' = build_logs s ∧
    published s' = published s
      ++ [build_status_update build_id "running";
          build_finished build_id "failed" (Some (exn_msg e))].
Proof.
  intros Hrel Hb Herr.
  destruct (run_build_thread_fault w build_id cfg b0 s e [] [] Hrel Hb)
    as (s' & t & Hrun & Hb' & Hl & Hp).
  { intros s3. exists s3. split; [| apply appends_refl].
    unfold config_error in Herr. unfold run_steps.
    destruct (json_loads w (config_text cfg)) as [e1 | config]; [by injection Herr as -> |].
    cbn [lift]. rewrite (bind_ok _ _ s3 config s3) by done.
    destruct (py_get config "steps" (JArr [])) as [e2 | steps]; [by injection Herr as -> |].
    cbn [lift]. rewrite (bind_ok _ _ s3 steps s3) by done.
    destruct (py_len steps) as [e3 | n]; [by injection Herr as -> | done]. }
  exists s', t. split; [exact Hrun |]. split; [exact Hb' |].
  split; [by rewrite Hl, app_nil_r | exact Hp].
Qed.

Lemma unusable_configuration_fails_the_build_witness :
  ∃ s' t,
    run_build_thread demo_world 1 (Some "steps: []") demo_state = (Ok tt, s') ∧
    builds s' !! 1
      = Some (set_finished "failed" t (set_status "running" (new_build 1 1700000000))) ∧
    build_logs s' = build_logs demo_state ∧
    published s' = published demo_state
      ++ [build_status_update 1 "running";
          build_finished 1 "failed" (Some (exn_msg JSONDecodeError))].
Proof.
  apply (unusable_configuration_fails_the_build demo_world 1 (Some "steps: []")
           (new_build 1 1700000000) demo_state JSONDecodeError).
  - exact demo_reliable.
  - reflexivity.
  - reflexivity.
Defined.

(** The three kinds of unusable configuration, with the messages they
    leave in [build_finished]. *)
Lemma config_error_kinds w cfg :
  (∀ e, json_loads w (config_text cfg) = inl e → config_error w cfg = Some e) ∧
  (∀ config, json_loads w (config_text cfg) = inr config → is_dict config = false →
     config_error w cfg = Some (AttributeError (type_name config) "get")) ∧
  (∀ fields steps, json_loads w (config_text cfg) = inr (JObj fields) →
     assoc "steps" fields = Some steps →
     match steps with JNull | JBool _ | JInt _ | JFloat _ => True | _ => False end →
     config_error w cfg
     = Some (TypeError ("object of type '" +:+ type_name steps +:+ "' has no len()"))).
Proof.
  unfold config_error. repeat split.
  - by intros e ->.
  - intros config -> Hd. by destruct config.
  - intros fields steps -> Hs Hk. simpl. rewrite Hs. simpl. by destruct steps.
Qed.

(** ** A step that is no dict, a step without a command *)

(** Steps that return 0 leave their rows and events; the loop goes on
    behind them. *)
Lemma for_steps_pass_prefix w build_id total pre rest index s :
  Reliable w →
  forallb is_dict pre = true →
  all_pass w index pre = true →
  ∃ s',
    for_steps w build_id total index (pre ++ rest) s
      = for_steps w build_id total (index + length pre) rest s' ∧
    appends s s' (steps_rows w build_id index pre)
                 (steps_events w build_id total index pre).
Proof.
  intros Hrel. revert index s. induction pre as [|step pre IH]; intros index s Hdict Hpass.
  - exists s. simpl. rewrite Nat.add_0_r. split; [done | apply appends_refl].
  - cbn [forallb] in Hdict. apply andb_true_iff in Hdict as [Hd Hdict].
    cbn [all_pass] in Hpass. apply andb_true_iff in Hpass as [Hrc Hpass].
    destruct step as [| | | | | |kv]; try discriminate Hd.
    cbn [app for_steps steps_events steps_rows length].
    set (step := JObj kv) in *.
    assert (py_get step "cmd" JNull = inr (step_cmd step)) as -> by done.
    cbn [lift]. rewrite (bind_ok _ _ s (step_cmd step) s) by done.
    destruct (publish_ok w (build_step_start build_id index (step_cmd step)) s)
      as (s1 & Hpub & Ha1 & _).
    rewrite (bind_ok _ _ _ _ _ Hpub). clear Hpub.
    destruct (run_command_and_stream_reliable w Hrel build_id index (step_cmd step) s1)
      as (s2 & Hrun & Ha2 & _).
    apply step_passes_spec in Hrc as [Herr Hrc]. unfold step_events, step_stored in *.
    rewrite Herr, Hrc in *.
    rewrite (bind_ok _ _ _ _ _ Hrun). clear Hrun.
    destruct (publish_progress_ok w build_id (S index) total s2)
      as (s3 & Hprog & Ha3 & _).
    rewrite (bind_ok _ _ _ _ _ Hprog). clear Hprog. cbn [Z.eqb].
    destruct (IH (S index) s3 Hdict Hpass) as (s' & Hloop & Ha).
    exists s'. split.
    { rewrite Hloop. by replace (index + S (length pre))%nat
                        with (S index + length pre)%nat by lia. }
    pose proof (appends_trans _ _ _ _ _ _ _
                  (appends_trans _ _ _ _ _ _ _ Ha1 (appends_trans _ _ _ _ _ _ _ Ha2 Ha3))
                  Ha) as Hall.
    by rewrite !app_nil_l, !app_nil_r in Hall.
Qed.

(** X5.  On a storage that works, let step number [i] of the list (from
    0) be no dict, after steps that all returned 0 (each with its output
    read to the end).  Then the steps before
    it run as usual, but [step.get] raises at step [i]: no
    [build_step_start] is published for [i] or a later index, and the
    build ends [failed], the [build_finished] event carrying the message
    of the [AttributeError]. *)
Theorem step_that_is_no_dict w build_id cfg pre bad rest b0 s :
  Reliable w →
  builds s !! build_id = Some b0 →
  config_steps w cfg (pre ++ bad :: rest) →
  forallb is_dict pre = true →
  all_pass w 0 pre = true →
  is_dict bad = false →
  ∃ s' t evs,
    run_build_thread w build_id cfg s = (Ok tt, s') ∧
    builds s' !! build_id
      = Some (set_finished "failed" t (set_status "running" b0)) ∧
    build_logs s' = build_logs s ++ steps_rows w build_id 0 pre ∧
    published s' = published s ++ evs ∧
    evs = [build_status_update build_id "running"]
          ++ steps_events w build_id (length (pre ++ bad :: rest)) 0 pre
          ++ [build_finished build_id "failed"
                (Some ("'" +:+ type_name bad +:+ "' object has no attribute 'get'"))] ∧
    step_starts evs = seq 0 (length pre).
Proof.
  intros Hrel Hb (config & Hload & Hsteps) Hdict Hpass Hbad.
  set (steps := pre ++ bad :: rest) in *.
  assert (total_steps_of steps = length steps) as Htot.
  { rewrite total_steps_of_max. unfold steps. rewrite length_app. simpl. lia. }
  destruct (run_build_thread_fault w build_id cfg b0 s
              (AttributeError (type_name bad) "get")
              (steps_rows w build_id 0 pre)
              (steps_events w build_id (length steps) 0 pre) Hrel Hb)
    as (s' & t & Hrun & Hb' & Hl & Hp).
  { intros s3. unfold run_steps. rewrite Hload. cbn [lift].
    rewrite (bind_ok _ _ s3 config s3) by done. rewrite Hsteps. cbn [lift].
    rewrite (bind_ok _ _ s3 (JArr steps) s3) by done. cbn [py_len py_iter lift].
    rewrite (bind_ok _ _ s3 (length steps) s3) by done.
    rewrite (bind_ok _ _ s3 steps s3) by done.
    fold (total_steps_of steps). rewrite Htot.
    destruct (for_steps_pass_prefix w build_id (length steps) pre (bad :: rest) 0 s3
                Hrel Hdict Hpass) as (s4 & Hloop & Ha).
    exists s4. split; [| exact Ha].
    change (pre ++ bad :: rest) with steps in Hloop.
    assert (for_steps w build_id (length steps) 0 steps s3
            = (Raise (AttributeError (type_name bad) "get"), s4)) as Hraise.
    { rewrite Hloop. cbn [for_steps].
      assert (py_get bad "cmd" JNull = inl (AttributeError (type_name bad) "get")) as ->
        by (by destruct bad).
      done. }
    by rewrite (bind_raise _ _ _ _ _ Hraise). }
  eexists s', t, _. split; [exact Hrun |]. split; [exact Hb' |].
  split; [exact Hl |]. split; [exact Hp |]. split; [reflexivity |].
  rewrite !step_starts_app, step_starts_steps. simpl. by rewrite app_nil_r.
Qed.

Lemma step_that_is_no_dict_witness :
  ∃ s' t evs,
    run_build_thread demo_world 1 (Some "{'steps': [7]}") demo_state = (Ok tt, s') ∧
    builds s' !! 1
      = Some (set_finished "failed" t (set_status "running" (new_build 1 1700000000))) ∧
    build_logs s' = build_logs demo_state ++ steps_rows demo_world 1 0 [] ∧
    published s' = published demo_state ++ evs ∧
    evs = [build_status_update 1 "running"]
          ++ steps_events demo_world 1 (length ([] ++ JInt 7 :: [])) 0 []
          ++ [build_finished 1 "failed"
                (Some ("'" +:+ type_name (JInt 7) +:+ "' object has no attribute 'get'"))] ∧
    step_starts evs = seq 0 (length (@nil json)).
Proof.
  apply (step_that_is_no_dict demo_world 1 (Some "{'steps': [7]}") [] (JInt 7) []
           (new_build 1 1700000000) demo_state).
  - exact demo_reliable.
  - reflexivity.
  - eexists. split; reflexivity.
  - reflexivity.
  - reflexivity.
  - reflexivity.
Defined.



(** ** The rows of each step *)

Lemma rows_of_app build_id step_index logs1 logs2 :
  rows_of build_id step_index (logs1 ++ logs2)
  = rows_of build_id step_index logs1 ++ rows_of build_id step_index logs2.
Proof. apply filter_app. Qed.

Lemma rows_of_log_rows_other build_id' step_index' build_id step_index texts :
  build_id' ≠ build_id ∨ step_index' ≠ step_index →
  rows_of build_id' step_index' (log_rows build_id step_index texts) = [].
Proof.
  intros Hne. unfold rows_of, log_rows. induction texts as [|t texts IH]; [done |].
  rewrite fmap_cons, filter_cons_False; [done |]. simpl. intros [? ?]. destruct Hne; auto.
Qed.

Lemma rows_of_steps_rows_other w build_id' build_id step_index index steps :
  build_id' ≠ build_id ∨ (step_index < index)%nat →
  rows_of build_id' step_index (steps_rows w build_id index steps) = [].
Proof.
  revert index. induction steps as [|step steps IH]; intros index Hne; [done |].
  cbn [steps_rows]. rewrite rows_of_app, rows_of_log_rows_other, IH; [done | |].
  - destruct Hne; [by left | right; lia].
  - destruct Hne; [by left | right; lia].
Qed.

Lemma rows_of_steps_rows w build_id index steps j :
  rows_of build_id (index + j) (steps_rows w build_id index steps)
  = match steps !! j with
    | Some step =>
        log_rows build_id (index + j) (step_stored w (index + j) (step_cmd step))
    | None => []
    end.
Proof.
  revert index j. induction steps as [|step steps IH]; intros index j; [done |].
  cbn [steps_rows]. rewrite rows_of_app. destruct j as [|j].
  - rewrite Nat.add_0_r, rows_of_log_rows.
    rewrite rows_of_steps_rows_other by (right; lia). by rewrite app_nil_r.
  - rewrite rows_of_log_rows_other by (right; lia).
    replace (index + S j)%nat with (S index + j)%nat by lia. apply IH.
Qed.

(** X8.  On a storage that works, when the run of a build is over, the
    rows stored for each of its steps are the rows that were there,
    followed by lines of that step in the order the process printed them:
    all the lines read when the step returned, the full batches of 15
    among them when a read raised; a step that did not run has no new
    row, and the rows of other builds are as before. *)
Theorem rows_of_each_step w build_id cfg steps b0 s :
  Reliable w →
  builds s !! build_id = Some b0 →
  config_steps w cfg steps →
  forallb is_dict (executed w 0 steps) = true →
  ∃ s',
    run_build_thread w build_id cfg s = (Ok tt, s') ∧
    (∀ i, rows_of build_id i (build_logs s')
          = rows_of build_id i (build_logs s)
            ++ match executed w 0 steps !! i with
               | Some step =>
                   log_rows build_id i
                     (match step_error w i (step_cmd step) with
                      | None => step_texts w i (step_cmd step)
                      | Some _ => full_batches (step_texts w i (step_cmd step))
                      end)
               | None => []
               end) ∧
    (∀ id i, id ≠ build_id →
             rows_of id i (build_logs s') = rows_of id i (build_logs s)).
Proof.
  intros Hrel Hb Hcfg Hdict.
  destruct (run_build_thread_reliable w build_id cfg steps b0 s Hrel Hb Hcfg Hdict)
    as (s' & t & Hrun & _ & _ & Hl & _).
  exists s'. split; [exact Hrun |]. rewrite Hl. split.
  - intros i. rewrite rows_of_app. f_equal.
    apply (rows_of_steps_rows w build_id 0 (executed w 0 steps) i).
  - intros id i Hid. rewrite rows_of_app, rows_of_steps_rows_other by (by left).
    by rewrite app_nil_r.
Qed.

Lemma rows_of_each_step_witness :
  ∃ s',
    run_build_thread demo_world 1 (Some demo_config) demo_state = (Ok tt, s') ∧
    (∀ i, rows_of 1 i (build_logs s')
          = rows_of 1 i (build_logs demo_state)
            ++ match executed demo_world 0
                       [cmd_step "echo A"; cmd_step "false"; cmd_step "echo C"] !! i with
               | Some step =>
                   log_rows 1 i
                     (match step_error demo_world i (step_cmd step) with
                      | None => step_texts demo_world i (step_cmd step)
                      | Some _ => full_batches (step_texts demo_world i (step_cmd step))
                      end)
               | None => []
               end) ∧
    (∀ id i, id ≠ 1 →
             rows_of id i (build_logs s') = rows_of id i (build_logs demo_state)).
Proof.
  apply (rows_of_each_step demo_world 1 (Some demo_config)
           [cmd_step "echo A"; cmd_step "false"; cmd_step "echo C"]
           (new_build 1 1700000000) demo_state).
  - exact demo_reliable.
  - reflexivity.
  - eexists. split; reflexivity.
  - reflexivity.
Defined.

(** ** A step whose output cannot be read *)

Lemma steps_rows_app w build_id index pre post :
  steps_rows w build_id index (pre ++ post) =
  steps_rows w build_id index pre
  ++ steps_rows w build_id (index + length pre) post.
Proof.
  revert index. induction pre as [|step pre IH]; intros index;
    cbn [steps_rows app length].
  - by rewrite Nat.add_0_r.
  - rewrite IH, <- app_assoc.
    by replace (index + S (length pre))%nat with (S index + length pre)%nat by lia.
Qed.

Lemma garbled_reliable : Reliable garbled_world.
Proof. split; intros; reflexivity. Qed.

(** X18.  On a storage that works, let a step, after steps that all
    returned 0, print output that [readline] cannot read to its end.  The
    exception leaves [run_command_and_stream] and the loop and reaches the
    handler: the build ends [failed], and [build_finished] carries the
    message of the exception.  Of the lines read before, every fifth was
    published and the full batches of 15 were stored; the lines still in
    the buffer are lost, no [build_progress] is published for the step,
    its exit code is never looked at, and no later step starts. *)
Theorem unreadable_output_fails_the_build w build_id cfg pre step rest e b0 s :
  Reliable w →
  builds s !! build_id = Some b0 →
  config_steps w cfg (pre ++ step :: rest) →
  forallb is_dict (pre ++ [step]) = true →
  all_pass w 0 pre = true →
  step_error w (length pre) (step_cmd step) = Some e →
  ∃ s' t,
    run_build_thread w build_id cfg s = (Ok tt, s') ∧
    builds s' !! build_id
      = Some (set_finished "failed" t (set_status "running" b0)) ∧
    build_logs s' = build_logs s
      ++ steps_rows w build_id 0 pre
      ++ log_rows build_id (length pre)
           (full_batches (step_texts w (length pre) (step_cmd step))) ∧
    published s' = published s
      ++ [build_status_update build_id "running"]
      ++ steps_events w build_id (length (pre ++ step :: rest)) 0 pre
      ++ [build_step_start build_id (length pre) (step_cmd step)]
      ++ (build_log build_id (length pre)
            <$> every_fifth (step_texts w (length pre) (step_cmd step)))
      ++ [build_finished build_id "failed" (Some (exn_msg e))].
Proof.
  intros Hrel Hb Hcfg Hdict Hpass Herr.
  destruct (executed_first_break w 0 pre step rest e Hpass Herr) as [Hexec Hend].
  destruct (run_build_thread_reliable w build_id cfg (pre ++ step :: rest) b0 s Hrel Hb Hcfg)
    as (s' & t & Hrun & Hb' & _ & Hl & Hp); [by rewrite Hexec |].
  assert (total_steps_of (pre ++ step :: rest) = length (pre ++ step :: rest)) as Htot.
  { rewrite total_steps_of_max, length_app. simpl. lia. }
  unfold outcome, run_message in *. rewrite Hend, Hexec, Htot in *.
  exists s', t. split; [exact Hrun |].
  split; [by rewrite Hb', lookup_insert_eq |].
  rewrite steps_rows_app in Hl. rewrite steps_events_app in Hp.
  cbn [steps_rows steps_events] in Hl, Hp.
  unfold step_events, step_stored in Hl, Hp. cbn [Nat.add] in Hl, Hp.
  rewrite Herr in Hl, Hp. split.
  - rewrite Hl. by norm_app.
  - rewrite Hp. by norm_app.
Qed.

Lemma unreadable_output_fails_the_build_witness :
  ∃ s' t,
    run_build_thread garbled_world 1 (Some garbled_config) demo_state = (Ok tt, s') ∧
    builds s' !! 1
      = Some (set_finished "failed" t (set_status "running" (new_build 1 1700000000))) ∧
    build_logs s' = build_logs demo_state
      ++ steps_rows garbled_world 1 0 []
      ++ log_rows 1 (length (@nil json))
           (full_batches (step_texts garbled_world (length (@nil json))
                            (step_cmd (cmd_step garbled_cmd)))) ∧
    published s' = published demo_state
      ++ [build_status_update 1 "running"]
      ++ steps_events garbled_world 1 (length ([] ++ cmd_step garbled_cmd :: [])) 0 []
      ++ [build_step_start 1 (length (@nil json)) (step_cmd (cmd_step garbled_cmd))]
      ++ (build_log 1 (length (@nil json))
            <$> every_fifth (step_texts garbled_world (length (@nil json))
                               (step_cmd (cmd_step garbled_cmd))))
      ++ [build_finished 1 "failed" (Some (exn_msg UnicodeDecodeError))].
Proof.
  apply (unreadable_output_fails_the_build garbled_world 1 (Some garbled_config) []
           (cmd_step garbled_cmd) [] UnicodeDecodeError (new_build 1 1700000000)
           demo_state).
  - exact garbled_reliable.
  - reflexivity.
  - eexists. split; reflexivity.
  - reflexivity.
  - reflexivity.
  - reflexivity.
Defined.

(** ** When the handler itself fails *)

(** X19.  In every world, when an exception of the [try] block reaches the
    handler and a storage access of the handler fails (its lookup, or,
    for a record it found, its commit, by a fault or because the row is
    gone by then), that exception leaves [run_build_thread]: the handler
    has written nothing and published nothing, so the record keeps the
    status it had and no [build_finished] follows. *)
Theorem handler_failure_escapes w build_id cfg s s3 e s4 e' :
  enters w build_id s s3 →
  run_steps w build_id cfg s3 = (Raise e, s4) →
  handler_failure w build_id s4 = Some e' →
  ∃ s',
    run_build_thread w build_id cfg s = (Raise e', s') ∧
    commits s' = commits s4 ∧
    published s' = published s4 ∧
    (∀ b, builds s' !! build_id = Some b → builds s4 !! build_id = Some b).
Proof.
  intros Henter Hraise Hfail.
  rewrite (run_build_thread_entered _ _ _ _ _ Henter), (try_raise _ _ _ _ _ Hraise).
  unfold handler_failure in Hfail. unfold on_error, bind at 1 2, db_get.
  destruct (db_fault w (db_clock s4)) as [e1 |] eqn:Hf.
  { injection Hfail as ->. eexists. split; [reflexivity |]. simpl.
    split; [done |]. split; [done |]. apply builds_at_lookup. }
  destruct (builds_at w (db_clock s4) build_id (builds s4) !! build_id) as [b |] eqn:Hb;
    [| discriminate Hfail].
  unfold bind at 1, now, db_commit_build. cbn [db_clock builds].
  destruct (db_fault w (S (db_clock s4))) as [e2 |] eqn:Hf'.
  { injection Hfail as ->. eexists. split; [reflexivity |]. simpl.
    split; [done |]. split; [done |]. intros b' Hb'.
    by do 2 apply builds_at_lookup in Hb'. }
  destruct (db_vanish w (S (db_clock s4)) build_id) eqn:Hv; [| discriminate Hfail].
  injection Hfail as <-. unfold builds_at at 1 3. rewrite Hv, lookup_delete_eq.
  eexists. split; [reflexivity |]. simpl.
  split; [done |]. split; [done |]. intros b' Hb'.
  by do 2 apply builds_at_lookup in Hb'.
Qed.

Lemma handler_failure_escapes_witness :
  ∃ s',
    run_build_thread db_down_world 1 (Some demo_config) demo_state
      = (Raise (Exn "OperationalError" "database is locked"), s') ∧
    commits s' = [(1, set_status "running" (new_build 1 1700000000))] ∧
    published s' = [build_status_update 1 "running"; build_step_start 1 0 (JStr "echo A")] ∧
    (∀ b, builds s' !! 1 = Some b →
          builds
            (run_steps db_down_world 1 (Some demo_config)
               (publish db_down_world (build_status_update 1 "running")
                  (db_commit_build db_down_world 1
                     (set_status "running" (new_build 1 1700000000))
                     (db_get db_down_world 1 demo_state).2).2).2).2 !! 1 = Some b).
Proof.
  apply (handler_failure_escapes db_down_world 1 (Some demo_config) demo_state
           (publish db_down_world (build_status_update 1 "running")
              (db_commit_build db_down_world 1
                 (set_status "running" (new_build 1 1700000000))
                 (db_get db_down_world 1 demo_state).2).2).2
           (Exn "OperationalError" "database is locked")
           (run_steps db_down_world 1 (Some demo_config)
              (publish db_down_world (build_status_update 1 "running")
                 (db_commit_build db_down_world 1
                    (set_status "running" (new_build 1 1700000000))
                    (db_get db_down_world 1 demo_state).2).2).2).2
           (Exn "OperationalError" "database is locked")).
  - eexists _, _, _. repeat split; reflexivity.
  - vm_compute. reflexivity.
  - vm_compute. reflexivity.
Defined.

(** * The routes of [app.py] around the runner *)

Section RouteProperties.
Context (w : World).
Context (new_build_id : gmap Z Build → Z) (new_pipeline_id : gmap Z Pipeline → Z).
Context (start_background_task : Task → option exn).
Context (json_dumps : json → string) (to_dict : App → Z → Pipeline → json).
Context (timestamp : nat → json).

Lemma db_access_tables a :
  pipelines (db_access w a).2 = pipelines a ∧
  builds (store (db_access w a).2) = builds (store a) ∧
  build_logs (store (db_access w a).2) = build_logs (store a) ∧
  published (store (db_access w a).2) = published (store a) ∧
  commits (store (db_access w a).2) = commits (store a) ∧
  db_clock (store (db_access w a).2) = S (db_clock (store a)).
Proof. unfold db_access. by destruct (db_fault w _). Qed.

(** Loading the row again writes nothing; when it succeeds the table is
    as it was. *)
Lemma reload_build_tables id a :
  commits (store (reload_build w id a).2) = commits (store a) ∧
  ((reload_build w id a).1 = Ok tt →
   builds (store (reload_build w id a).2) = builds (store a)).
Proof.
  unfold reload_build, db_get, builds_at.
  destruct (db_fault w (db_clock (store a))); [done |]. cbn [fst snd].
  destruct (db_vanish w (db_clock (store a)) id) eqn:Hv.
  - rewrite lookup_delete_eq. by split.
  - by destruct (builds (store a) !! id).
Qed.

(** X9.  In every world, [run_pipeline] starts a task only for a build it
    has just stored: with a task come the answer 202 carrying the id of
    the task, a pipeline that exists and whose configuration the task
    gets, and a new row for that id that is [queued], belongs to the
    pipeline and has no [finished_at].  With the answer 404 nothing was
    written.  With an exception no task was started, and either nothing
    was written or, when the exception came after the commit, the new
    [queued] row was written all the same. *)
Theorem run_pipeline_task_has_its_row pipeline_id a :
  match run_pipeline w new_build_id start_background_task pipeline_id a with
  | (Ok (resp, Some (id, cfg)), a') =>
      resp = mkResponse 202 (JObj [("build_id", JInt id)]) ∧
      (∃ p, pipelines a !! pipeline_id = Some p ∧ cfg = config_json p) ∧
      start_background_task (id, cfg) = None ∧
      ∃ t, builds (store a') = <[id := new_build pipeline_id t]> (builds (store a)) ∧
           commits (store a') = commits (store a) ++ [(id, new_build pipeline_id t)]
  | (Ok (resp, None), a') =>
      resp = mkResponse 404 (JObj [("error", JStr "Pipeline not found")]) ∧
      pipelines a !! pipeline_id = None ∧
      builds (store a') = builds (store a) ∧ commits (store a') = commits (store a)
  | (Raise _, a') =>
      (builds (store a') = builds (store a) ∧ commits (store a') = commits (store a)) ∨
      ∃ id t, commits (store a') = commits (store a) ++ [(id, new_build pipeline_id t)]
  end.
Proof.
  unfold run_pipeline.
  destruct (db_access_tables a) as (Hp1 & Hb1 & _ & _ & Hc1 & _).
  destruct (db_access w a) as [[[] | e] a1]; simpl in *; [| by left].
  rewrite Hp1. destruct (pipelines a !! pipeline_id) as [p |] eqn:Hp; [| done].
  destruct (db_access_tables a1) as (Hp2 & Hb2 & _ & _ & Hc2 & _).
  destruct (db_access w a1) as [[[] | e] a2]; simpl in *; [| left; split; congruence].
  set (id := new_build_id (builds (store a2))).
  set (build := new_build pipeline_id (utcnow w (db_clock (store a1)))).
  set (a3 := mkApp _ _).
  assert (commits (store a3) = commits (store a) ++ [(id, build)]) as Hc3
    by (simpl; congruence).
  assert (builds (store a3) = <[id := build]> (builds (store a))) as Hb3
    by (simpl; congruence).
  destruct (reload_build_tables id a3) as [Hc4 Hb4].
  destruct (reload_build w id a3) as [[[] | e] a4]; simpl in *;
    [| right; exists id, (utcnow w (db_clock (store a1))); by rewrite Hc4, Hc3].
  specialize (Hb4 eq_refl).
  destruct (db_access_tables a4) as (_ & Hb5 & _ & _ & Hc5 & _).
  destruct (db_access w a4) as [[[] | e] a5]; simpl in *;
    [| right; exists id, (utcnow w (db_clock (store a1))); by rewrite Hc5, Hc4, Hc3].
  destruct (start_background_task (id, config_json p)) as [e |] eqn:Hstart;
    [right; exists id, (utcnow w (db_clock (store a1))); by rewrite Hc5, Hc4, Hc3 |].
  split; [done |]. split; [by exists p |]. split; [done |].
  exists (utcnow w (db_clock (store a1))).
  split; [by rewrite Hb5, Hb4, Hb3 | by rewrite Hc5, Hc4, Hc3].
Qed.

Lemma db_access_reliable a :
  Reliable w →
  ∃ a', db_access w a = (Ok tt, a') ∧
        pipelines a' = pipelines a ∧
        builds (store a') = builds (store a) ∧
        build_logs (store a') = build_logs (store a) ∧
        published (store a') = published (store a) ∧
        commits (store a') = commits (store a) ∧
        db_clock (store a') = S (db_clock (store a)).
Proof.
  intros [Hf _]. unfold db_access. rewrite Hf. eexists. split; [reflexivity | done].
Qed.

Lemma reload_build_reliable id b a :
  Reliable w →
  builds (store a) !! id = Some b →
  ∃ a', reload_build w id a = (Ok tt, a') ∧
        pipelines a' = pipelines a ∧
        builds (store a') = builds (store a) ∧
        commits (store a') = commits (store a).
Proof.
  intros Hrel Hb. unfold reload_build.
  destruct (db_get_reliable w Hrel id (store a)) as (s1 & -> & [Hb1 Hc1 _ _] & _).
  rewrite Hb. eexists. split; [reflexivity | done].
Qed.

(** [run_pipeline] and then its task, on a storage that works. *)
Lemma run_pipeline_executes pid p steps a :
  Reliable w →
  (∀ task, start_background_task task = None) →
  pipelines a !! pid = Some p →
  config_steps w (config_json p) steps →
  forallb is_dict (executed w 0 steps) = true →
  ∃ id a1 s' b',
    run_pipeline w new_build_id start_background_task pid a
      = (Ok (mkResponse 202 (JObj [("build_id", JInt id)]), Some (id, config_json p)), a1) ∧
    run_build_thread w id (config_json p) (store a1) = (Ok tt, s') ∧
    builds s' !! id = Some b' ∧
    pipeline_id b' = pid ∧
    status b' = outcome w steps ∧
    is_Some (started_at b') ∧ is_Some (finished_at b') ∧
    (∃ nc, commits s' = commits (store a) ++ nc ∧
           statuses nc = ["queued"; "running"; outcome w steps]) ∧
    (∀ id', id' ≠ id → builds s' !! id' = builds (store a) !! id').
Proof.
  intros Hrel Hstart Hp Hcfg Hdict. unfold run_pipeline.
  destruct (db_access_reliable a Hrel) as (a1 & -> & Hp1 & Hb1 & _ & _ & Hc1 & _).
  rewrite Hp1, Hp.
  destruct (db_access_reliable a1 Hrel) as (a2 & -> & Hp2 & Hb2 & _ & _ & Hc2 & _).
  set (id := new_build_id (builds (store a2))).
  set (b := new_build pid (utcnow w (db_clock (store a1)))).
  set (a3 := mkApp _ _).
  destruct (reload_build_reliable id b a3 Hrel) as (a4 & -> & _ & Hb4 & Hc4);
    [apply lookup_insert_eq |].
  destruct (db_access_reliable a4 Hrel) as (a5 & -> & _ & Hb5 & _ & _ & Hc5 & _).
  rewrite Hstart.
  destruct (run_build_thread_reliable w id (config_json p) steps b (store a5) Hrel)
    as (s' & t & Hrun & Hb' & Hc' & _ & _);
    [rewrite Hb5, Hb4; apply lookup_insert_eq | done | done |].
  exists id, a5, s', (set_finished (outcome w steps) t (set_status "running" b)).
  split; [done |]. split; [exact Hrun |].
  split; [by rewrite Hb', lookup_insert_eq |].
  split; [done |]. split; [done |]. split; [by eexists |]. split; [by eexists |].
  split.
  - eexists. split; [rewrite Hc', Hc5, Hc4; simpl; rewrite Hc2, Hc1, <- app_assoc;
                     reflexivity |].
    done.
  - intros id' Hid. rewrite Hb', Hb5, Hb4. simpl.
    rewrite !lookup_insert_ne by done. by rewrite Hb2, Hb1.
Qed.

(** X10.  On a storage that works and a server that starts its tasks,
    [run_pipeline] on an existing pipeline followed by the task it
    started ends with the new build in the status the steps of the
    pipeline decide ([success] when every step returned 0, else
    [failed]): the row belongs to the pipeline, has [started_at] and
    [finished_at], went through [queued], [running] and the final status,
    and no other build was touched. *)
Theorem run_pipeline_then_executor pid p steps a :
  Reliable w →
  (∀ task, start_background_task task = None) →
  pipelines a !! pid = Some p →
  config_steps w (config_json p) steps →
  forallb is_dict (executed w 0 steps) = true →
  ∃ id a1 s' b',
    run_pipeline w new_build_id start_background_task pid a
      = (Ok (mkResponse 202 (JObj [("build_id", JInt id)]), Some (id, config_json p)), a1) ∧
    run_build_thread w id (config_json p) (store a1) = (Ok tt, s') ∧
    builds s' !! id = Some b' ∧
    pipeline_id b' = pid ∧
    status b' = outcome w steps ∧
    is_Some (started_at b') ∧ is_Some (finished_at b') ∧
    (∃ nc, commits s' = commits (store a) ++ nc ∧
           statuses nc = ["queued"; "running"; outcome w steps]) ∧
    (∀ id', id' ≠ id → builds s' !! id' = builds (store a) !! id').
Proof. apply run_pipeline_executes. Qed.

(** X11.  In every world, [create_pipeline] answers 400 and leaves the
    storage alone exactly when the name or the configuration of the body
    is missing or falsy: an empty object as [config_json] is refused like
    a missing one.  A body that is itself falsy ([null], an empty object
    or list) is read as an empty object and refused as well. *)
Theorem create_pipeline_refuses_the_falsy body a :
  let refused :=
    (Ok (mkResponse 400 (JObj [("error", JStr "Missing name or config_json")])), a) in
  (truthy body = false →
   create_pipeline w new_pipeline_id json_dumps to_dict body a = refused) ∧
  (∀ fields, body = JObj fields →
     (create_pipeline w new_pipeline_id json_dumps to_dict body a = refused ↔
      truthy (default JNull (assoc "name" fields)) = false ∨
      truthy (default JNull (assoc "config_json" fields)) = false)).
Proof.
  intros refused. split.
  - intros Hbody. unfold create_pipeline. by rewrite Hbody.
  - intros fields ->. unfold create_pipeline.
    assert ((if truthy (JObj fields) then JObj fields else JObj []) = JObj fields) as ->.
    { destruct fields; [done |]. done. }
    cbn [py_get].
    destruct (truthy (default JNull (assoc "name" fields))) eqn:Hname;
      [| split; [by left | done]].
    destruct (truthy (default JNull (assoc "config_json" fields))) eqn:Hcfg;
      [| split; [by right | done]].
    cbn [negb orb]. split; [| by intros [? | ?]].
    destruct (db_access w a) as [[[] | e] a1]; intros [=].
Qed.

(** X12.  On a storage that works and a server that starts its tasks, let
    a body name a pipeline and carry a configuration that [json.loads]
    reads back from what [json.dumps] wrote, with a list of steps.  Then
    [create_pipeline], [run_pipeline] on the new pipeline and the task it
    starts execute these steps: the build ends in the status they decide,
    [success] when every step returned 0 and [failed] otherwise. *)
Theorem created_pipeline_runs_its_steps fields name config steps a :
  Reliable w →
  (∀ task, start_background_task task = None) →
  assoc "name" fields = Some name → truthy name = true →
  assoc "config_json" fields = Some config → truthy config = true →
  json_loads w (config_text (Some (json_dumps config))) = inr config →
  py_get config "steps" (JArr []) = inr (JArr steps) →
  forallb is_dict (executed w 0 steps) = true →
  ∃ pid pl a1 id a2 s' b',
    create_pipeline w new_pipeline_id json_dumps to_dict (JObj fields) a
      = (Ok (mkResponse 201 (to_dict a1 pid pl)), a1) ∧
    pipelines a1 !! pid = Some pl ∧
    config_json pl = Some (json_dumps config) ∧
    run_pipeline w new_build_id start_background_task pid a1
      = (Ok (mkResponse 202 (JObj [("build_id", JInt id)]),
             Some (id, Some (json_dumps config))), a2) ∧
    run_build_thread w id (Some (json_dumps config)) (store a2) = (Ok tt, s') ∧
    builds s' !! id = Some b' ∧
    pipeline_id b' = pid ∧
    status b' = outcome w steps.
Proof.
  intros Hrel Hstart Hname Hnt Hconfig Hct Hload Hsteps Hdict.
  unfold create_pipeline.
  assert (truthy (JObj fields) = true) as -> by (destruct fields; done).
  cbn [py_get]. rewrite Hname. cbn [from_option id]. rewrite Hnt, Hconfig.
  cbn [from_option id]. rewrite Hct. cbn [negb orb].
  destruct (db_access_reliable a Hrel) as (a1 & -> & Hp1 & _).
  set (pl := mkPipeline name (default (JStr "") (assoc "description" fields))
               (Some (json_dumps config))).
  set (pid := new_pipeline_id (pipelines a1)).
  set (a2 := mkApp (<[pid := pl]> (pipelines a1)) (store a1)).
  destruct (run_pipeline_executes pid pl steps a2 Hrel Hstart)
    as (id & a3 & s' & b' & Hrun & Hexec & Hb' & Hpid & Hst & _);
    [apply lookup_insert_eq | by exists config | done |].
  exists pid, pl, a2, id, a3, s', b'. split; [done |].
  split; [apply lookup_insert_eq |]. split; [done |]. split; [exact Hrun |].
  split; [exact Hexec |]. done.
Qed.

End RouteProperties.

Lemma run_pipeline_then_executor_witness :
  ∃ id a1 s' b',
    run_pipeline demo_world demo_new_build_id (λ _, None) 7 demo_app
      = (Ok (mkResponse 202 (JObj [("build_id", JInt id)]), Some (id, Some three_echoes)),
         a1) ∧
    run_build_thread demo_world id (Some three_echoes) (store a1) = (Ok tt, s') ∧
    builds s' !! id = Some b' ∧
    pipeline_id b' = 7 ∧
    status b' = "success" ∧
    is_Some (started_at b') ∧ is_Some (finished_at b') ∧
    (∃ nc, commits s' = commits (store demo_app) ++ nc ∧
           statuses nc = ["queued"; "running"; "success"]) ∧
    (∀ id', id' ≠ id → builds s' !! id' = builds (store demo_app) !! id').
Proof.
  apply (run_pipeline_then_executor demo_world demo_new_build_id (λ _, None) 7
           (mkPipeline (JStr "Test Pipeline") (JStr "") (Some three_echoes))
           [cmd_step "echo A"; cmd_step "echo B"; cmd_step "echo C"] demo_app).
  - exact demo_reliable.
  - reflexivity.
  - reflexivity.
  - eexists. split; reflexivity.
  - reflexivity.
Defined.

Lemma created_pipeline_runs_its_steps_witness :
  ∃ pid pl a1 id a2 s' b',
    create_pipeline demo_world demo_new_pipeline_id (λ _, three_echoes) (λ _ _ _, JNull)
      (JObj [("name", JStr "Test Pipeline");
             ("config_json",
              JObj [("steps", JArr [cmd_step "echo A"; cmd_step "echo B";
                                    cmd_step "echo C"])])])
      (mkApp ∅ demo_state)
      = (Ok (mkResponse 201 ((λ _ _ _, JNull) a1 pid pl)), a1) ∧
    pipelines a1 !! pid = Some pl ∧
    config_json pl = Some three_echoes ∧
    run_pipeline demo_world demo_new_build_id (λ _, None) pid a1
      = (Ok (mkResponse 202 (JObj [("build_id", JInt id)]), Some (id, Some three_echoes)),
         a2) ∧
    run_build_thread demo_world id (Some three_echoes) (store a2) = (Ok tt, s') ∧
    builds s' !! id = Some b' ∧
    pipeline_id b' = pid ∧
    status b' = "success".
Proof.
  apply (created_pipeline_runs_its_steps demo_world demo_new_build_id
           demo_new_pipeline_id (λ _, None) (λ _, three_echoes) (λ _ _ _, JNull)
           [("name", JStr "Test Pipeline");
            ("config_json",
             JObj [("steps", JArr [cmd_step "echo A"; cmd_step "echo B";
                                   cmd_step "echo C"])])]
           (JStr "Test Pipeline")
           (JObj [("steps", JArr [cmd_step "echo A"; cmd_step "echo B";
                                  cmd_step "echo C"])])
           [cmd_step "echo A"; cmd_step "echo B"; cmd_step "echo C"]
           (mkApp ∅ demo_state)).
  - exact demo_reliable.
  - reflexivity.
  - reflexivity.
  - reflexivity.
  - reflexivity.
  - reflexivity.
  - reflexivity.
  - reflexivity.
  - reflexivity.
Defined.

(** ** Reading the logs back *)

Section ReadingLogs.
Context (w : World) (timestamp : nat → json).

Lemma logs_of_build_rows build_id (g : nat → nat) logs :
  snd <$> filter (λ nl : nat * BuildLog, log_build_id nl.2 = build_id)
                 (imap (λ n l, (g n, l)) logs)
  = filter (λ l, log_build_id l = build_id) logs.
Proof.
  revert g. induction logs as [|l logs IH]; intros g; [done |].
  cbn [imap]. destruct (decide (log_build_id l = build_id)) as [Hl | Hl].
  - rewrite !filter_cons_True by done. rewrite fmap_cons. simpl. f_equal.
    apply (IH (g ∘ S)).
  - rewrite !filter_cons_False by done. apply (IH (g ∘ S)).
Qed.

Lemma entry_line_log_entry n l : entry_line (log_entry timestamp n l) = Some (row_line l).
Proof. done. Qed.

Lemma filter_steps_rows build_id index steps :
  filter (λ l, log_build_id l = build_id) (steps_rows w build_id index steps)
  = steps_rows w build_id index steps.
Proof.
  revert index. induction steps as [|step steps IH]; intros index; [done |].
  cbn [steps_rows]. rewrite filter_app, IH. f_equal.
  unfold log_rows. induction (step_stored w index (step_cmd step)) as [|t ts IHt]; [done |].
  rewrite fmap_cons, filter_cons_True by done. by rewrite IHt.
Qed.

(** X13.  On a storage that works, [get_build_logs] after the run of a
    build answers 200 with one entry per stored row of that build, in the
    order of storage: the entries that were there, then, step by step in
    the order of the steps, the lines each step that ran has stored, in
    the order its process printed them (every line it read when it
    returned, the full batches of 15 when a read raised). *)
Theorem logs_read_back_in_order build_id cfg steps b0 s :
  Reliable w →
  builds s !! build_id = Some b0 →
  config_steps w cfg steps →
  forallb is_dict (executed w 0 steps) = true →
  ∃ s' entries s'',
    run_build_thread w build_id cfg s = (Ok tt, s') ∧
    get_build_logs w timestamp build_id s' = (Ok (mkResponse 200 (JArr entries)), s'') ∧
    omap entry_line entries
    = (row_line <$> filter (λ l, log_build_id l = build_id) (build_logs s))
      ++ (row_line <$> steps_rows w build_id 0 (executed w 0 steps)) ∧
    length entries
    = length (filter (λ l, log_build_id l = build_id) (build_logs s)
              ++ steps_rows w build_id 0 (executed w 0 steps)).
Proof.
  intros Hrel Hb Hcfg Hdict.
  destruct (run_build_thread_reliable w build_id cfg steps b0 s Hrel Hb Hcfg Hdict)
    as (s' & t & Hrun & Hb' & _ & Hl & _).
  exists s'. unfold get_build_logs.
  destruct (db_get_reliable w Hrel build_id s') as (s1 & -> & [Hb1 _ Hl1 _] & _).
  rewrite Hb', lookup_insert_eq. destruct Hrel as [Hf _]. rewrite Hf.
  rewrite app_nil_r in Hl1. rewrite Hl1, Hl.
  eexists _, _. split; [exact Hrun |]. split; [reflexivity |].
  set (rows := logs_of_build build_id _).
  assert (snd <$> rows
          = filter (λ l, log_build_id l = build_id) (build_logs s)
            ++ steps_rows w build_id 0 (executed w 0 steps)) as Hrows.
  { unfold rows, logs_of_build. rewrite (logs_of_build_rows build_id id).
    by rewrite filter_app, filter_steps_rows. }
  split.
  - rewrite <- fmap_app, <- Hrows. clear Hrows.
    induction rows as [|[n l] rows IH]; [done |].
    rewrite !fmap_cons. cbn [omap list_omap fst snd]. cbv beta.
    rewrite entry_line_log_entry. cbn [fst snd]. f_equal. apply IH.
  - rewrite <- Hrows. by rewrite !length_fmap.
Qed.

End ReadingLogs.

Lemma logs_read_back_in_order_witness :
  ∃ s' entries s'',
    run_build_thread demo_world 1 (Some three_echoes) demo_state = (Ok tt, s') ∧
    get_build_logs demo_world (λ _, JNull) 1 s'
      = (Ok (mkResponse 200 (JArr entries)), s'') ∧
    omap entry_line entries
    = (row_line <$> filter (λ l, log_build_id l = 1) (build_logs demo_state))
      ++ (row_line <$> steps_rows demo_world 1 0
            (executed demo_world 0
               [cmd_step "echo A"; cmd_step "echo B"; cmd_step "echo C"])) ∧
    length entries
    = length (filter (λ l, log_build_id l = 1) (build_logs demo_state)
              ++ steps_rows demo_world 1 0
                   (executed demo_world 0
                      [cmd_step "echo A"; cmd_step "echo B"; cmd_step "echo C"])).
Proof.
  apply (logs_read_back_in_order demo_world (λ _, JNull) 1 (Some three_echoes)
           [cmd_step "echo A"; cmd_step "echo B"; cmd_step "echo C"]
           (new_build 1 1700000000) demo_state).
  - exact demo_reliable.
  - reflexivity.
  - eexists. split; reflexivity.
  - reflexivity.
Defined.

(** * [find_latest_json_report] *)

Section LatestReport.

Lemma head_insert_desc {A} (x : Z * A) l :
  head (insert_desc x l)
  = match head l with
    | Some y => if y.1 <=? x.1 then Some x else Some y
    | None => Some x
    end.
Proof. destruct l as [|y l]; [done |]. simpl. by destruct (y.1 <=? x.1). Qed.

(** The head of the sorted list is an item of the list with the greatest
    key. *)
Lemma head_sort_desc_max {A} (l : list (Z * A)) :
  l ≠ [] →
  ∃ x, head (sort_desc l) = Some x ∧ x ∈ l ∧ ∀ y, y ∈ l → y.1 ≤ x.1.
Proof.
  induction l as [|x l IH]; [done |]. intros _.
  change (sort_desc (x :: l)) with (insert_desc x (sort_desc l)).
  rewrite head_insert_desc. destruct l as [|x' l'].
  - exists x. split; [done |]. split; [by left |].
    intros y Hy. apply list_elem_of_singleton in Hy as ->. lia.
  - destruct IH as (m & -> & Hm & Hmax); [done |].
    destruct (Z.leb_spec m.1 x.1).
    + exists x. split; [done |]. split; [by left |].
      intros y [-> | Hy]%elem_of_cons; [lia |]. specialize (Hmax y Hy). lia.
    + exists m. split; [done |]. split; [by right |].
      intros y [-> | Hy]%elem_of_cons; [lia |]. by apply Hmax.
Qed.

Lemma keyed_ok {A} (key : A → exn + Z) (l : list A) :
  (∀ x, x ∈ l → ∃ t, key x = inr t) →
  ∃ kl, keyed key l = inr kl ∧ snd <$> kl = l ∧
        ∀ kx, kx ∈ kl → key kx.2 = inr kx.1.
Proof.
  induction l as [|x l IH]; intros Hkey.
  - exists []. split; [done |]. split; [done |]. intros kx Hkx. by apply elem_of_nil in Hkx.
  - destruct (Hkey x) as [t Ht]; [by left |].
    destruct IH as (kl & Hkl & Hsnd & Hall); [intros y Hy; apply Hkey; by right |].
    exists ((t, x) :: kl). cbn [keyed]. rewrite Ht, Hkl.
    split; [done |]. split; [by rewrite fmap_cons, Hsnd |].
    intros kx [-> | Hkx]%elem_of_cons; [done | by apply Hall].
Qed.

(** X14.  For a directory that exists, can be listed and whose [.json]
    files (the suffix in any case) all have a modification time,
    [find_latest_json_report] returns [None] exactly when no name ends in
    [.json]; otherwise it returns the path of one of these files, and no
    other of them was modified later. *)
Theorem latest_report_is_newest fs reports_dir names :
  isdir fs reports_dir = true →
  listdir fs reports_dir = inr names →
  (∀ p, p ∈ json_files_of fs reports_dir names → ∃ t, getmtime fs p = inr t) →
  match json_files_of fs reports_dir names with
  | [] => find_latest_json_report fs reports_dir = inr None
  | _ =>
      ∃ p t, find_latest_json_report fs reports_dir = inr (Some p) ∧
             p ∈ json_files_of fs reports_dir names ∧
             getmtime fs p = inr t ∧
             ∀ q tq, q ∈ json_files_of fs reports_dir names →
                     getmtime fs q = inr tq → tq ≤ t
  end.
Proof.
  intros Hdir Hlist Hmtime. unfold find_latest_json_report.
  rewrite Hdir, Hlist. cbn [negb].
  destruct (json_files_of fs reports_dir names) as [|f files] eqn:Hfiles; [done |].
  destruct (keyed_ok (getmtime fs) (f :: files) Hmtime) as (kl & -> & Hsnd & Hall).
  destruct (head_sort_desc_max kl) as (m & -> & Hm & Hmax);
    [intros ->; discriminate Hsnd |].
  exists m.2, m.1. split; [done |].
  split; [rewrite <- Hsnd; apply list_elem_of_fmap; by exists m |].
  split; [by apply Hall |].
  intros q tq Hq Htq. rewrite <- Hsnd in Hq.
  apply list_elem_of_fmap in Hq as (kq & -> & Hkq).
  specialize (Hall kq Hkq). rewrite Htq in Hall. injection Hall as ->. by apply Hmax.
Qed.

End LatestReport.

Lemma latest_report_is_newest_witness :
  ∃ p t, find_latest_json_report demo_fs "reports" = inr (Some p) ∧
         p ∈ json_files_of demo_fs "reports" ["a.json"; "scan.html"; "B.JSON"; "notes.txt"] ∧
         getmtime demo_fs p = inr t ∧
         ∀ q tq,
           q ∈ json_files_of demo_fs "reports" ["a.json"; "scan.html"; "B.JSON"; "notes.txt"] →
           getmtime demo_fs q = inr tq → tq ≤ t.
Proof.
  apply (latest_report_is_newest demo_fs "reports"
           ["a.json"; "scan.html"; "B.JSON"; "notes.txt"]).
  - reflexivity.
  - reflexivity.
  - intros p Hp. vm_compute in Hp.
    apply elem_of_cons in Hp as [-> | Hp]; [by eexists |].
    apply list_elem_of_singleton in Hp as ->. by eexists.
Defined.

Example latest_report_demo :
  find_latest_json_report demo_fs "reports" = inr (Some "reports/B.JSON").
Proof. reflexivity. Qed.

(** * [chunk_text] *)

Section ChunkText.
Context {A : Type}.
Implicit Types (text : list A) (chunks : list (list A)).

Lemma py_slice_window text a size :
  0 ≤ a → 0 ≤ size →
  py_slice text a (a + size) = take (Z.to_nat size) (drop (Z.to_nat a) text).
Proof.
  intros Ha Hsize. unfold py_slice, slice_index.
  destruct (Z.ltb_spec a 0); [lia |]. destruct (Z.ltb_spec (a + size) 0); [lia |].
  set (len := Z.of_nat (length text)).
  destruct (Z.le_gt_cases a len) as [Hle | Hgt].
  - rewrite (Z.min_l a len) by lia.
    destruct (Z.le_gt_cases (a + size) len) as [Hle' | Hgt'].
    + rewrite (Z.min_l (a + size)) by lia. f_equal. lia.
    + rewrite (Z.min_r (a + size)) by lia.
      rewrite !take_ge; [done | |]; rewrite length_drop; unfold len in *; lia.
  - rewrite !Z.min_r by lia. replace (len - len) with 0 by lia.
    rewrite !drop_ge by (unfold len in *; lia). by rewrite !take_nil.
Qed.

(** The loop, started at [start] with [n] rounds to go, adds the [n]
    windows that begin at [start], [start + step], ... *)
Lemma chunk_loop_spec text size overlap (n : nat) :
  0 < size - overlap → 0 ≤ size →
  ∀ start chunks fuel,
    0 ≤ start →
    Z.of_nat (length text) ≤ start + Z.of_nat n * (size - overlap) →
    (n ≠ 0%nat → start + (Z.of_nat n - 1) * (size - overlap) < Z.of_nat (length text)) →
    (n < fuel)%nat →
    chunk_loop fuel text size overlap start chunks
    = Some (chunks ++
            ((λ j, take (Z.to_nat size)
                     (drop (Z.to_nat (start + Z.of_nat j * (size - overlap))) text))
               <$> seq 0 n)).
Proof.
  intros Hstep Hsize. induction n as [|n IH]; intros start chunks fuel Hstart Hend Hlast Hfuel.
  - destruct fuel as [|fuel]; [lia |]. cbn [chunk_loop].
    destruct (Z.ltb_spec start (Z.of_nat (length text))); [lia |].
    by rewrite app_nil_r.
  - destruct fuel as [|fuel]; [lia |]. cbn [chunk_loop].
    destruct (Z.ltb_spec start (Z.of_nat (length text))) as [_ | Hge]; [| nia].
    rewrite IH by (try lia; try nia). rewrite py_slice_window by lia.
    rewrite <- app_assoc. cbn [seq fmap list_fmap app]. do 3 f_equal.
    { do 2 f_equal. lia. }
    rewrite <- fmap_S_seq, <- list_fmap_compose. apply list_fmap_ext.
    intros i j _. simpl. do 3 f_equal. lia.
Qed.

Lemma windows_cover text (step n : nat) :
  (0 < step)%nat → (length text ≤ n * step)%nat →
  concat ((λ j, take step (drop (j * step) text)) <$> seq 0 n) = text.
Proof.
  intros Hstep. revert text. induction n as [|n IH]; intros text Hlen.
  - destruct text; [done | simpl in Hlen; lia].
  - cbn [seq fmap list_fmap concat]. rewrite <- fmap_S_seq, <- list_fmap_compose.
    etrans; [| apply (take_drop step text)]. f_equal.
    etrans; [| apply (IH (drop step text)); rewrite length_drop; lia].
    f_equal. apply list_fmap_ext. intros i j _. simpl.
    rewrite drop_drop. repeat f_equal; lia.
Qed.

(** X15.  With [0 ≤ overlap < size], [chunk_text] returns: the loop ends
    after [n] rounds, [n] being the least number of steps of
    [size - overlap] that reach the end of the text, so no chunk is
    empty.  Chunk [j] is the window of at most [size] items that starts
    at [j * (size - overlap)], and the first [size - overlap] items of
    the chunks, one after the other, are the text again: nothing is lost
    and neighbours overlap by [overlap]. *)
Theorem chunk_text_windows text size overlap (n fuel : nat) :
  0 ≤ overlap < size →
  (length text ≤ n * Z.to_nat (size - overlap))%nat →
  (n ≠ 0 → (n - 1) * Z.to_nat (size - overlap) < length text)%nat →
  (n < fuel)%nat →
  ∃ chunks,
    chunk_text fuel text size overlap = Some chunks ∧
    length chunks = n ∧
    (∀ j, (j < n)%nat →
          chunks !! j
          = Some (take (Z.to_nat size) (drop (j * Z.to_nat (size - overlap)) text))) ∧
    Forall (λ c, (0 < length c ≤ Z.to_nat size)%nat) chunks ∧
    concat (take (Z.to_nat (size - overlap)) <$> chunks) = text.
Proof.
  intros Hso Hend Hlast Hfuel. set (step := Z.to_nat (size - overlap)) in *.
  assert (Z.of_nat step = size - overlap) as Hstep by (unfold step; lia).
  unfold chunk_text.
  rewrite (chunk_loop_spec text size overlap n) by (try lia; nia).
  rewrite app_nil_l.
  assert ((λ j, take (Z.to_nat size)
                  (drop (Z.to_nat (0 + Z.of_nat j * (size - overlap))) text)) <$> seq 0 n
          = (λ j, take (Z.to_nat size) (drop (j * step) text)) <$> seq 0 n) as ->.
  { apply list_fmap_ext. intros i j _. simpl. do 2 f_equal. nia. }
  eexists. split; [reflexivity |].
  split; [by rewrite length_fmap, length_seq |].
  split.
  { intros j Hj. rewrite list_lookup_fmap, lookup_seq_lt by done. done. }
  split.
  { apply Forall_fmap, Forall_forall. intros j Hj%elem_of_seq. simpl.
    rewrite length_take, length_drop.
    assert (j * step ≤ (n - 1) * step)%nat by (apply Nat.mul_le_mono_r; lia). lia. }
  rewrite <- list_fmap_compose.
  etrans; [| apply (windows_cover text step n); lia].
  f_equal. apply list_fmap_ext. intros i j _. simpl.
  rewrite take_take. f_equal. lia.
Qed.

(** X16.  With [size ≤ overlap] the start of the window never moves
    forward: on a text that is not empty the loop of [chunk_text] does
    not end, whatever number of rounds it is given. *)
Theorem chunk_text_never_returns text size overlap fuel :
  size ≤ overlap → text ≠ [] → chunk_text fuel text size overlap = None.
Proof.
  intros Hso Htext. unfold chunk_text.
  assert (0 < Z.of_nat (length text)) as Hlen by (destruct text; [done | simpl; lia]).
  assert (∀ start chunks, start ≤ 0 →
            chunk_loop fuel text size overlap start chunks = None) as Hloop.
  { induction fuel as [|fuel IH]; intros start chunks Hstart; [done |].
    cbn [chunk_loop]. destruct (Z.ltb_spec start (Z.of_nat (length text))); [| lia].
    apply IH. lia. }
  by apply Hloop.
Qed.

End ChunkText.

Lemma chunk_text_windows_witness :
  ∃ chunks,
    chunk_text 5 (seq 1 10) 4 1 = Some chunks ∧
    length chunks = 4%nat ∧
    (∀ j, (j < 4)%nat →
          chunks !! j = Some (take (Z.to_nat 4) (drop (j * Z.to_nat (4 - 1)) (seq 1 10)))) ∧
    Forall (λ c, (0 < length c ≤ Z.to_nat 4)%nat) chunks ∧
    concat (take (Z.to_nat (4 - 1)) <$> chunks) = seq 1 10.
Proof.
  apply (chunk_text_windows (seq 1 10) 4 1 4 5).
  - lia.
  - simpl. lia.
  - simpl. lia.
  - lia.
Defined.

Example chunk_text_demo :
  chunk_text 5 (seq 1 10) 4 1 = Some [[1; 2; 3; 4]; [4; 5; 6; 7]; [7; 8; 9; 10]; [10]]%nat.
Proof. reflexivity. Qed.

Lemma chunk_text_never_returns_witness :
  chunk_text 1000 [1; 2; 3]%nat 2 2 = None.
Proof.
  apply (chunk_text_never_returns [1; 2; 3]%nat 2 2 1000).
  - lia.
  - discriminate.
Defined.

(** * The overall risk of a scan *)

Section OverallRisk.

Let pick (m y : string) : string := if String.ltb m y then y else m.

Lemma risk_levels_cases r :
  r ∈ risk_levels → r = "HIGH" ∨ r = "MEDIUM" ∨ r = "LOW" ∨ r = "SAFE".
Proof.
  unfold risk_levels. rewrite !elem_of_cons, elem_of_nil. tauto.
Qed.

Lemma pick_not_high m y :
  m ∈ risk_levels → y ∈ risk_levels → m ≠ "HIGH" →
  pick m y ∈ risk_levels ∧ pick m y ≠ "HIGH".
Proof.
  intros Hm Hy Hne.
  destruct (risk_levels_cases m Hm) as [-> | [-> | [-> | ->]]]; [done | | |];
    destruct (risk_levels_cases y Hy) as [-> | [-> | [-> | ->]]];
    (split; [vm_compute; set_solver | by vm_compute]).
Qed.

Lemma foldl_pick_not_high m rest :
  m ∈ risk_levels → m ≠ "HIGH" → Forall (λ r, r ∈ risk_levels) rest →
  foldl pick m rest ≠ "HIGH".
Proof.
  revert m. induction rest as [|y rest IH]; intros m Hm Hne Hall; [done |].
  apply Forall_cons in Hall as [Hy Hall]. cbn [foldl].
  destruct (pick_not_high m y Hm Hy Hne). by apply IH.
Qed.

Lemma foldl_pick_high rest :
  Forall (λ r, r ∈ risk_levels) rest →
  foldl pick "HIGH" rest = "HIGH" ↔ Forall (λ r, r = "HIGH") rest.
Proof.
  induction rest as [|y rest IH]; intros Hall; [done |].
  apply Forall_cons in Hall as [Hy Hall]. cbn [foldl].
  destruct (risk_levels_cases y Hy) as [-> | Hother].
  - change (pick "HIGH" "HIGH") with "HIGH". rewrite IH by done.
    split; [by constructor | by intros [_ ?]%Forall_cons].
  - assert (pick "HIGH" y = y ∧ y ≠ "HIGH") as [-> Hne]
      by (destruct Hother as [-> | [-> | ->]]; done).
    split; [intros H; by apply foldl_pick_not_high in H | by intros [? _]%Forall_cons].
Qed.

(** X17.  [scan_repo] takes as overall risk the greatest of the risk
    strings of its findings in the order of strings, in which
    ["HIGH" < "LOW" < "MEDIUM" < "SAFE"]: the overall risk is ["HIGH"],
    and with [fail_on_high] the scan exits with code 1, only when there
    is a finding and every finding is ["HIGH"].  One finding of risk
    [MEDIUM] or [LOW] beside the [HIGH] ones hides them. *)
Theorem overall_risk_high_iff_all_high fail_on_high risks :
  Forall (λ r, r ∈ risk_levels) risks →
  (overall_risk risks = "HIGH" ↔ risks ≠ [] ∧ Forall (λ r, r = "HIGH") risks) ∧
  (exits_with_1 fail_on_high risks = true ↔
   fail_on_high = true ∧ risks ≠ [] ∧ Forall (λ r, r = "HIGH") risks).
Proof.
  intros Hall.
  assert (overall_risk risks = "HIGH" ↔ risks ≠ [] ∧ Forall (λ r, r = "HIGH") risks)
    as Hmain.
  { unfold overall_risk, py_max_str. destruct risks as [|x rest]; [by split; [| intros []] |].
    apply Forall_cons in Hall as [Hx Hall]. fold pick.
    destruct (risk_levels_cases x Hx) as [-> | Hother].
    - rewrite foldl_pick_high by done.
      split; [intros ?; split; [done | by constructor] | by intros [_ [_ ?]%Forall_cons]].
    - assert (x ≠ "HIGH") as Hne by (destruct Hother as [-> | [-> | ->]]; done).
      split; [intros H; by apply foldl_pick_not_high in H
             | by intros [_ [? _]%Forall_cons]]. }
  split; [exact Hmain |].
  unfold exits_with_1. rewrite andb_true_iff, String.eqb_eq, Hmain. tauto.
Qed.

End OverallRisk.

Lemma overall_risk_high_iff_all_high_witness :
  (overall_risk ["HIGH"; "MEDIUM"] = "HIGH"
   ↔ ["HIGH"; "MEDIUM"] ≠ [] ∧ Forall (λ r, r = "HIGH") ["HIGH"; "MEDIUM"]) ∧
  (exits_with_1 true ["HIGH"; "MEDIUM"] = true ↔
   true = true ∧ ["HIGH"; "MEDIUM"] ≠ [] ∧ Forall (λ r, r = "HIGH") ["HIGH"; "MEDIUM"]).
Proof.
  apply (overall_risk_high_iff_all_high true ["HIGH"; "MEDIUM"]).
  repeat constructor; vm_compute; set_solver.
Defined.

Example overall_risk_hides_high :
  overall_risk ["HIGH"; "MEDIUM"; "HIGH"] = "MEDIUM" ∧
  exits_with_1 true ["HIGH"; "MEDIUM"; "HIGH"] = false ∧
  exits_with_1 true ["HIGH"; "HIGH"] = true.
Proof. repeat split. Qed.
